(** * Land-cover compositing and building extraction (j_dataprep/landcover.py)

    A shallow embedding of the [LandCover] and [Buildings] classes.

    - numpy arrays are heap objects: a variable or an attribute holds a
      reference ([loc]), [np.where] allocates a new array, [fill] and
      boolean-index assignment mutate the referenced array in place;
    - the geometry libraries (shapely, rasterio, rtree) are an interface
      ([GeoLib]) the development is parametric in;
    - exceptions are the left injection of the result of a computation;
    - [print], warnings, the HTTP service, the files and the random
      identifier generator are components of the [world]. *)

From Stdlib Require Import ZArith QArith Ascii.
From stdpp Require Import gmap strings list.

Open Scope Z_scope.

(** ** Exceptions, arrays *)

Inductive exn :=
  | ShapelyError     (* shapely.geometry.shape on a malformed mapping *)
  | ValueError       (* rasterize: no valid geometry objects found *)
  | IndexError       (* list index / boolean index of the wrong shape *)
  | AttributeError   (* attribute of None, .lower() of a non-string *)
  | OSError          (* a file that cannot be opened *)
  | Dangling.        (* a reference outside the heap; unreachable from Python *)

(** A two-dimensional ndarray, row by row. Cell values are integers: the
    land-cover codes and NODATA are, and of a height only the sign is read. *)
Abbreviation ndarray := (list (list Z)).
Abbreviation boolarray := (list (list bool)).
Definition loc := nat.

Definition NODATA : Z := -9999.

Definition array_shape {A} (a : list (list A)) : nat * nat :=
  (length a, from_option length 0%nat (head a)).

Definition cell {A} (a : list (list A)) (r c : nat) : option A :=
  a !! r ≫= λ row, row !! c.

Definition tabulate2 {A} (shp : nat * nat) (f : nat → nat → A) : list (list A) :=
  (λ r, f r <$> seq 0 shp.2) <$> seq 0 shp.1.

(** [np.where(mask, a, v)]: the element of [a] where the mask is true, the
    scalar [v] elsewhere. *)
Definition where_values (mask : boolarray) (a : ndarray) (v : Z) : ndarray :=
  zip_with (zip_with (λ (m : bool) x, if m then x else v)) mask a.

(** [a[to_update] = v] *)
Definition assign_values (to_update : boolarray) (a : ndarray) (v : Z) : ndarray :=
  zip_with (zip_with (λ (m : bool) x, if m then v else x)) to_update a.

Definition fill_values (a : ndarray) (v : Z) : ndarray :=
  (λ row : list Z, (λ _, v) <$> row) <$> a.

(** [a > k], elementwise *)
Definition greater_than (a : ndarray) (k : Z) : boolarray :=
  (λ row : list Z, (λ x, bool_decide (k < x)) <$> row) <$> a.

(** ** Values of the JSON attribute mappings *)

Inductive pyval :=
  | PStr (s : string)
  | PInt (z : Z).

Definition lower_ascii (a : ascii) : ascii :=
  let n := nat_of_ascii a in
  if bool_decide (65 ≤ n ≤ 90)%nat then ascii_of_nat (n + 32) else a.

(** [str.lower], on the ASCII letters *)
Fixpoint lower (s : string) : string :=
  match s with
  | EmptyString => EmptyString
  | String a s' => String (lower_ascii a) (lower s')
  end.

(** ** The geometry libraries *)

Inductive geom_kind := Polygon | MultiPolygon | LineString | MultiLineString | OtherGeometry.

(** [geom.bounds] *)
Record BoundingBox := BBox { minx : Q; miny : Q; maxx : Q; maxy : Q }.

(** [GeoJSON] are the geometry mappings of the features, [Geom] the shapely
    objects, [Affine] the raster transform.
    - [shape] raises on a malformed mapping ([None]);
    - [is_valid_geom] is rasterio's test before rasterizing: an invalid or
      empty geometry is skipped with a warning;
    - [burn t g r c]: rasterizing [g] under [t] touches the pixel in row [r],
      column [c] (its centre lies inside [g]);
    - [polygonize t cells] is the polygon [rasterio.features.shapes] traces
      around a connected region of pixels;
    - [rtree_order] is the order in which an R-tree built by the given
      insertions enumerates its entries. *)
Class GeoLib := {
  GeoJSON : Type;
  Geom : Type;
  Affine : Type;
  shape : GeoJSON → option Geom;
  mapping : Geom → GeoJSON;
  geom_type : Geom → geom_kind;
  buffer : Geom → Geom;
  is_valid_geom : Geom → bool;
  burn : Affine → Geom → nat → nat → bool;
  polygonize : Affine → list (nat * nat) → Geom;
  bounds : Geom → BoundingBox;
  intersects : Geom → Geom → bool;
  within : Geom → Geom → bool;
  rtree_order : list (nat * BoundingBox) → list (nat * BoundingBox);
}.

Section Model.
Context `{GeoLib}.

Record RawFeature := {
  raw_geometry : GeoJSON;
  raw_properties : gmap string pyval;
}.

(** A terrain or road feature after classification: ["properties"] holds at
    most the key ["landuse"]. *)
Record Feature := {
  geometry : GeoJSON;
  properties : gmap string Z;
}.

Record Building := {
  b_geometry : GeoJSON;
  parcel_id : string;
}.

Record Dataset := {
  ds_height : nat;
  ds_width : nat;
  ds_band : nat → nat → Z;
  ds_transform : Affine;
  ds_crs : string;
  ds_nodata : option Z;
}.

Inductive warning := ShapeSkipWarning (index : nat).

(** ** The world: heap of arrays, output, and the environment read from *)

Record world := World {
  heap : list ndarray;
  stdout : list string;
  warnings : list warning;
  drawn : nat;                                  (* identifiers drawn so far *)
  uuid_stream : nat → string;                   (* the n-th [str(uuid.uuid4())] *)
  top10nl : string → list RawFeature;           (* all pages of a collection *)
  raster_files : string → option Dataset;
  vector_files : string → string → option (list (Geom * string));
  json_files : string → option (gmap string (gmap string Z));
}.

Definition set_heap (h : list ndarray) (w : world) : world :=
  World h (stdout w) (warnings w) (drawn w) (uuid_stream w) (top10nl w)
        (raster_files w) (vector_files w) (json_files w).
Definition set_stdout (o : list string) (w : world) : world :=
  World (heap w) o (warnings w) (drawn w) (uuid_stream w) (top10nl w)
        (raster_files w) (vector_files w) (json_files w).
Definition set_warnings (o : list warning) (w : world) : world :=
  World (heap w) (stdout w) o (drawn w) (uuid_stream w) (top10nl w)
        (raster_files w) (vector_files w) (json_files w).
Definition set_drawn (n : nat) (w : world) : world :=
  World (heap w) (stdout w) (warnings w) n (uuid_stream w) (top10nl w)
        (raster_files w) (vector_files w) (json_files w).

Definition M (A : Type) : Type := world → exn + (A * world).

#[export] Instance M_ret : MRet M := λ A x w, inr (x, w).
#[export] Instance M_bind : MBind M := λ A B f m w,
  match m w with
  | inl e => inl e
  | inr (a, w') => f a w'
  end.

Definition raise {A} (e : exn) : M A := λ _, inl e.
Definition get_world : M world := λ w, inr (w, w).

Definition alloc (a : ndarray) : M loc :=
  λ w, inr (length (heap w), set_heap (heap w ++ [a]) w).
Definition deref (l : loc) : M ndarray :=
  λ w, match heap w !! l with
       | Some a => inr (a, w)
       | None => inl Dangling
       end.
Definition store (l : loc) (a : ndarray) : M unit :=
  λ w, inr (tt, set_heap (<[l := a]> (heap w)) w).
Definition print (s : string) : M unit :=
  λ w, inr (tt, set_stdout (stdout w ++ [s]) w).
Definition warn (x : warning) : M unit :=
  λ w, inr (tt, set_warnings (warnings w ++ [x]) w).

Definition from_some {A} (e : exn) (o : option A) : M A :=
  match o with
  | Some a => mret a
  | None => raise e
  end.

Fixpoint foldlM {A B} (f : A → B → M A) (a : A) (l : list B) : M A :=
  match l with
  | [] => mret a
  | b :: l' => a' ← f a b; foldlM f a' l'
  end.

Fixpoint forM {A B} (f : A → M B) (l : list A) : M (list B) :=
  match l with
  | [] => mret []
  | a :: l' => b ← f a; bs ← forM f l'; mret (b :: bs)
  end.

(** ** numpy and rasterio on heap arrays *)

Definition np_where (mask : boolarray) (array : loc) (v : Z) : M loc :=
  a ← deref array; alloc (where_values mask a v).

Definition ndarray_fill (array : loc) (v : Z) : M unit :=
  a ← deref array; store array (fill_values a v).

Definition shape_of (array : loc) : M (nat * nat) :=
  a ← deref array; mret (array_shape a).

(** [dataset.read(1)]: a new array each time *)
Definition ds_read (ds : Dataset) : M loc :=
  alloc (tabulate2 (ds_height ds, ds_width ds) (ds_band ds)).

Definition shapeM (j : GeoJSON) : M Geom := from_some ShapelyError (shape j).

Fixpoint skip_warnings (i : nat) (geoms : list Geom) : M unit :=
  match geoms with
  | [] => mret tt
  | g :: gs =>
      _ ← (if is_valid_geom g then mret tt else warn (ShapeSkipWarning i));
      skip_warnings (S i) gs
  end.

(** [rasterio.features.geometry_mask]: the shapes are burnt onto a raster
    filled with [True] (with [invert], onto [False]); invalid shapes are
    skipped with a warning, and there must be a valid one. *)
Definition geometry_mask (geometries : list Geom) (transform : Affine)
    (invert : bool) (out_shape : nat * nat) : M boolarray :=
  _ ← skip_warnings 0 geometries;
  let valid := filter (λ g, is_valid_geom g = true) geometries in
  if bool_decide (valid = []) then raise ValueError
  else mret (tabulate2 out_shape (λ r c,
         if existsb (λ g, burn transform g r c) valid then invert else negb invert)).

End Model.

(** ** np.squeeze

    The axes of length one are dropped, so the result of a two-dimensional
    array has rank 0, 1 or 2. *)

Inductive squeezed :=
  | Rank0 (x : Z)
  | Rank1 (v : list Z)
  | Rank2 (a : ndarray).

Definition np_squeeze (a : ndarray) : squeezed :=
  match array_shape a with
  | (1%nat, 1%nat) => Rank0 (default 0 (cell a 0 0))
  | (1%nat, _) => Rank1 (default [] (head a))
  | (_, 1%nat) => Rank1 ((λ row : list Z, default 0 (head row)) <$> a)
  | _ => Rank2 a
  end.

(** [output.shape[i]]: IndexError ([None]) beyond the rank *)
Definition shape_at (output : squeezed) (i : nat) : option nat :=
  match output, i with
  | Rank1 v, 0%nat => Some (length v)
  | Rank2 a, 0%nat => Some (array_shape a).1
  | Rank2 a, 1%nat => Some (array_shape a).2
  | _, _ => None
  end.

(** ** class LandCover *)

Module LandCover.
Section Defs.
Context `{GeoLib}.

(** The attributes of the object. [resolution] and [base_url] are read by
    the export and by the HTTP client only and are left out. *)
Record t := Self {
  bbox : Q * Q * Q * Q;
  transform : option Affine;
  crs : string;
  main_road : Z;
  dtm_dataset : option Dataset;
  water_mask : option boolarray;
  building_mask : option boolarray;
  buildings_path : option string;
  layer : option string;
  building_data : option (list Building);
  landcover_path : string;
  landcover_mapping : gmap string (gmap string Z);
  buildings : list Building;
  water : list RawFeature;
  roads : list Feature;
  terrains : list Feature;
  array : option loc;
  og_landcover : option loc;
  landcover_withoutbuild : option loc;
}.

Definition set_transform (x : option Affine) (s : t) : t :=
  Self (bbox s) x (crs s) (main_road s) (dtm_dataset s) (water_mask s)
    (building_mask s) (buildings_path s) (layer s) (building_data s)
    (landcover_path s) (landcover_mapping s) (buildings s) (water s) (roads s)
    (terrains s) (array s) (og_landcover s) (landcover_withoutbuild s).
Definition set_water_mask (x : option boolarray) (s : t) : t :=
  Self (bbox s) (transform s) (crs s) (main_road s) (dtm_dataset s) x
    (building_mask s) (buildings_path s) (layer s) (building_data s)
    (landcover_path s) (landcover_mapping s) (buildings s) (water s) (roads s)
    (terrains s) (array s) (og_landcover s) (landcover_withoutbuild s).
Definition set_building_mask (x : option boolarray) (s : t) : t :=
  Self (bbox s) (transform s) (crs s) (main_road s) (dtm_dataset s) (water_mask s)
    x (buildings_path s) (layer s) (building_data s)
    (landcover_path s) (landcover_mapping s) (buildings s) (water s) (roads s)
    (terrains s) (array s) (og_landcover s) (landcover_withoutbuild s).
Definition set_array (x : option loc) (s : t) : t :=
  Self (bbox s) (transform s) (crs s) (main_road s) (dtm_dataset s) (water_mask s)
    (building_mask s) (buildings_path s) (layer s) (building_data s)
    (landcover_path s) (landcover_mapping s) (buildings s) (water s) (roads s)
    (terrains s) x (og_landcover s) (landcover_withoutbuild s).
Definition set_og_landcover (x : option loc) (s : t) : t :=
  Self (bbox s) (transform s) (crs s) (main_road s) (dtm_dataset s) (water_mask s)
    (building_mask s) (buildings_path s) (layer s) (building_data s)
    (landcover_path s) (landcover_mapping s) (buildings s) (water s) (roads s)
    (terrains s) (array s) x (landcover_withoutbuild s).
Definition set_landcover_withoutbuild (x : option loc) (s : t) : t :=
  Self (bbox s) (transform s) (crs s) (main_road s) (dtm_dataset s) (water_mask s)
    (building_mask s) (buildings_path s) (layer s) (building_data s)
    (landcover_path s) (landcover_mapping s) (buildings s) (water s) (roads s)
    (terrains s) (array s) (og_landcover s) x.
Definition set_features (te ro : list Feature) (wa : list RawFeature)
    (bu : list Building) (s : t) : t :=
  Self (bbox s) (transform s) (crs s) (main_road s) (dtm_dataset s) (water_mask s)
    (building_mask s) (buildings_path s) (layer s) (building_data s)
    (landcover_path s) (landcover_mapping s) bu wa ro te
    (array s) (og_landcover s) (landcover_withoutbuild s).

Definition dtm_dataset_prep (dataset_path : option string) (dataset : option Dataset)
    : M (option Dataset) :=
  match dataset, dataset_path with
  | Some d, _ => mret (Some d)
  | None, Some p =>
      w ← get_world; d ← from_some OSError (raster_files w p); mret (Some d)
  | None, None => mret None
  end.

Definition load_landcover_mapping (path : string) : M (gmap string (gmap string Z)) :=
  w ← get_world; from_some OSError (json_files w path).

Definition get_landcover_code (self : t) (land_type : string) (isroad : bool) : Z :=
  let category := if isroad then "road" else "terrain" in
  default (-1) (default ∅ (landcover_mapping self !! category) !! lower land_type).

(** All the features of a collection; the pages and the status of the
    requests are the service's. *)
Definition get_top10nl (item_type : string) : M (list RawFeature) :=
  w ← get_world; mret (top10nl w item_type).

Definition is_polygonal (g : Geom) : bool :=
  match geom_type g with
  | Polygon | MultiPolygon => true
  | _ => false
  end.

(** [properties.get(key, "").lower()] *)
Definition get_lower (props : gmap string pyval) (key : string) : M string :=
  match props !! key with
  | None => mret (lower "")
  | Some (PStr s) => mret (lower s)
  | Some (PInt _) => raise AttributeError
  end.

(** [properties.get("hoogteniveau") != -1] *)
Definition not_minus_one (o : option pyval) : bool :=
  match o with
  | Some (PInt z) => negb (z =? -1)
  | _ => true
  end.

Definition new_properties (landuse_value : Z) : gmap string Z :=
  if landuse_value =? -1 then ∅ else {[ "landuse" := landuse_value ]}.

Definition water_step (buffered : bool) (water_features : list RawFeature)
    (wat : RawFeature) : M (list RawFeature) :=
  g ← shapeM (raw_geometry wat);
  let geom := if buffered then buffer g else g in
  let props := raw_properties wat in
  if not_minus_one (props !! "hoogteniveau") && is_polygonal geom
  then mret (water_features ++ [{| raw_geometry := mapping geom; raw_properties := props |}])
  else mret water_features.

Definition process_water_features : M (list RawFeature) :=
  waterdata_vlak ← get_top10nl "waterdeel_vlak";
  waterdata_lijn ← get_top10nl "waterdeel_lijn";
  water_features ← foldlM (water_step false) [] waterdata_vlak;
  foldlM (water_step true) water_features waterdata_lijn.

Definition terrain_step (landuse_terrain_mapping : gmap string Z)
    (terrain_features : list Feature) (ter : RawFeature) : M (list Feature) :=
  geom ← shapeM (raw_geometry ter);
  landusetype ← get_lower (raw_properties ter) "typelandgebruik";
  let landuse_value := default (-1) (landuse_terrain_mapping !! landusetype) in
  if is_polygonal geom
  then mret (terrain_features ++ [{| geometry := mapping geom; properties := new_properties landuse_value |}])
  else mret terrain_features.

Definition process_terrain_features (self : t) : M (list Feature) :=
  terreindata ← get_top10nl "terrein_vlak";
  let landuse_terrain_mapping := default ∅ (landcover_mapping self !! "terrain") in
  foldlM (terrain_step landuse_terrain_mapping) [] terreindata.

Definition road_step (main_road : Z) (landuse_road_mapping : gmap string Z)
    (road_features : list Feature) (road : RawFeature) : M (list Feature) :=
  geom ← shapeM (raw_geometry road);
  verhardingstype ← get_lower (raw_properties road) "verhardingstype";
  let landuse_value :=
    if String.eqb verhardingstype "verhard" then main_road
    else default (-1) (landuse_road_mapping !! verhardingstype) in
  if is_polygonal geom
  then mret (road_features ++ [{| geometry := mapping geom; properties := new_properties landuse_value |}])
  else mret road_features.

Definition process_road_features (self : t) : M (list Feature) :=
  wegdata ← get_top10nl "wegdeel_vlak";
  let landuse_road_mapping := default ∅ (landcover_mapping self !! "road") in
  foldlM (road_step (main_road self) landuse_road_mapping) [] wegdata.

Definition is_empty_path (o : option string) : bool :=
  match o with
  | None | Some EmptyString => true
  | _ => false
  end.

Definition load_buildings (self : t) : M (list Building) :=
  match building_data self with
  | Some data => mret data
  | None =>
      if is_empty_path (buildings_path self) || is_empty_path (layer self) then mret []
      else
        w ← get_world;
        gdf ← from_some OSError
          (vector_files w (default "" (buildings_path self)) (default "" (layer self)));
        mret ((λ gi : Geom * string, {| b_geometry := mapping gi.1; parcel_id := gi.2 |}) <$> gdf)
  end.

Definition get_features (self : t) : M t :=
  te ← process_terrain_features self;
  ro ← process_road_features self;
  wa ← process_water_features;
  bu ← load_buildings self;
  mret (set_features te ro wa bu self).

(** Opens a plot window; nothing of the object or of the arrays changes. *)
Definition visualize_raster (raster_array : loc) : M unit := mret tt.

(** The body of the terrain loop and of the road loop. *)
Definition paint_feature (transform : Affine) (array : loc) (ft : Feature) : M loc :=
  geom ← shapeM (geometry ft);
  match properties ft !! "landuse" with
  | Some landuse =>
      out_shape ← shape_of array;
      landuse_mask ← geometry_mask [geom] transform false out_shape;
      np_where landuse_mask array landuse
  | None => mret array
  end.

Definition is_line (g : Geom) : bool :=
  match geom_type g with
  | LineString | MultiLineString => true
  | _ => false
  end.

Definition water_geometry (wat : RawFeature) : M Geom :=
  g ← shapeM (raw_geometry wat);
  if is_line g then shapeM (raw_geometry wat) else shapeM (raw_geometry wat).

Definition convert_to_raster (self : t) : M (loc * t) :=
  ds ← from_some AttributeError (dtm_dataset self);
  array ← ds_read ds;
  let transform := ds_transform ds in
  let self := set_transform (Some transform) self in
  _ ← ndarray_fill array (-9999);
  array ← foldlM (paint_feature transform) array (terrains self);
  array ← foldlM (paint_feature transform) array (roads self);
  water_geometries ← forM water_geometry (water self);
  '(array, self) ←
    (if bool_decide (water_geometries = [])
     then
       _ ← print "No valid water geometries found. Skipping water rasterization.";
       mret (array, self)
     else
       out_shape ← shape_of array;
       water_mask ← geometry_mask water_geometries transform false out_shape;
       let self := set_water_mask (Some water_mask) self in
       array ← np_where water_mask array 7;
       mret (array, self));
  let self := set_landcover_withoutbuild (Some array) self in
  building_geometries ← forM (λ building, shapeM (b_geometry building)) (buildings self);
  '(array, self) ←
    (if bool_decide (building_geometries = [])
     then
       _ ← print "No valid building geometries found. Skipping building rasterization.";
       mret (array, self)
     else
       out_shape ← shape_of array;
       building_mask ← geometry_mask building_geometries transform false out_shape;
       let self := set_building_mask (Some building_mask) self in
       array ← np_where building_mask array 2;
       mret (array, self));
  _ ← visualize_raster array;
  mret (array, self).

Record init_args := {
  arg_bbox : Q * Q * Q * Q;
  arg_crs : string;
  arg_main_roadtype : Z;
  arg_building_data : option (list Building);
  arg_dataset : option Dataset;
  arg_dataset_path : option string;
  arg_buildings_path : option string;
  arg_layer : option string;
  arg_landcover_path : string;
}.

(** [__init__] *)
Definition init (a : init_args) : M t :=
  dtm ← dtm_dataset_prep (arg_dataset_path a) (arg_dataset a);
  landcover_mapping ← load_landcover_mapping (arg_landcover_path a);
  let self :=
    Self (arg_bbox a) None (arg_crs a) (arg_main_roadtype a) dtm None None
      (arg_buildings_path a) (arg_layer a) (arg_building_data a)
      (arg_landcover_path a) landcover_mapping [] [] [] [] None None None in
  self ← get_features self;
  '(result, self) ← convert_to_raster self;
  let self := set_array (Some result) self in
  let self := set_og_landcover (array self) self in
  let self := set_landcover_withoutbuild None self in
  mret self.

Definition update_build_landcover (self : t) (new_building_data : list Building) : M t :=
  building_geometries ←
    forM (λ building, shapeM (b_geometry building)) new_building_data;
  if bool_decide (building_geometries = [])
  then
    _ ← print "No valid building geometries found. Skipping building rasterization.";
    mret self
  else
    transform ← from_some AttributeError (transform self);
    array ← from_some AttributeError (array self);
    out_shape ← shape_of array;
    building_mask ← geometry_mask building_geometries transform false out_shape;
    array ← np_where building_mask array 2;
    mret (set_array (Some array) self).

(** [self.array[to_update] = land_type] writes into the array the attribute
    refers to; the boolean index must have its shape. *)
Definition update_landcover (self : t) (land_type : Z) (input_array : ndarray) : M t :=
  let to_update := greater_than input_array (-1) in
  array ← from_some AttributeError (array self);
  a ← deref array;
  if bool_decide (length <$> to_update = length <$> a)
  then _ ← store array (assign_values to_update a land_type); mret self
  else raise IndexError.

(** A GeoTIFF as [save_raster] writes it. *)
Record RasterFile := {
  rf_height : nat;
  rf_width : nat;
  rf_values : ndarray;
  rf_crs : string;
  rf_nodata : Z;
  rf_transform : option Affine;
}.

(** [save_raster], with the files written so far passed in and out. The
    squeezed array is asked for two axes when the file is opened, after the
    nodata value was chosen; GDAL creates no raster without a row or a
    column. [np.squeeze] of None is an array of rank 0. *)
Definition save_raster (self : t) (name : string) (change_nodata : bool)
    (disk : gmap string RasterFile) : M (gmap string RasterFile) :=
  ds ← from_some AttributeError (dtm_dataset self);
  let crs := ds_crs ds in
  let nodata := ds_nodata ds in
  let output_file := name in
  output ← match array self with
            | Some output => a ← deref output; mret (np_squeeze a)
            | None => mret (Rank0 0)
            end;
  nodata_value ←
    (if change_nodata then mret (-9999)
     else
       match nodata with
       | Some nodata_value => mret nodata_value
       | None =>
           _ ← print "Warning: No no data value found in dataset.. Defaulting to -9999.";
           mret (-9999)
       end);
  height ← from_some IndexError (shape_at output 0);
  width ← from_some IndexError (shape_at output 1);
  _ ← (if Nat.eqb height 0 || Nat.eqb width 0 then raise OSError else mret tt);
  values ← match output with
            | Rank2 a => mret a
            | _ => raise IndexError
            end;
  let disk :=
    <[output_file := {| rf_height := height; rf_width := width; rf_values := values;
                        rf_crs := crs; rf_nodata := nodata_value;
                        rf_transform := transform self |}]> disk in
  _ ← print ("File written to '" +:+ output_file +:+ "'");
  mret disk.

End Defs.
End LandCover.

(** ** Connected regions: scipy.ndimage.label and rasterio.features.shapes *)

Abbreviation pixel := (nat * nat)%type.

(** Two pixels share an edge. *)
Definition adjacent4 (a b : pixel) : bool :=
  (Nat.eqb a.1 b.1 && (Nat.eqb a.2 (S b.2) || Nat.eqb (S a.2) b.2))
  || (Nat.eqb a.2 b.2 && (Nat.eqb a.1 (S b.1) || Nat.eqb (S a.1) b.1)).

Definition is_on (m : boolarray) (p : pixel) : Prop := cell m p.1 p.2 = Some true.

(** The pixels of a mask that are set, row by row. *)
Definition cells_where (m : boolarray) : list pixel :=
  filter (λ p : pixel, cell m p.1 p.2 = Some true)
    (r ← seq 0 (array_shape m).1; c ← seq 0 (array_shape m).2; [(r, c)]).

Definition touches (adj : pixel → pixel → bool) (v : pixel) (C : list pixel) : bool :=
  existsb (adj v) C.

(** One step of the labelling: the pixel [v] joins the regions it touches,
    which become one region at the place of the first of them; a pixel that
    touches none starts a region. *)
Fixpoint add_cell (adj : pixel → pixel → bool) (v : pixel)
    (classes : list (list pixel)) : list (list pixel) :=
  match classes with
  | [] => [[v]]
  | C :: rest =>
      if touches adj v C
      then (C ++ concat (filter (λ D, touches adj v D = true) rest) ++ [v])
             :: filter (λ D, touches adj v D = false) rest
      else C :: add_cell adj v rest
  end.

Definition regions (adj : pixel → pixel → bool) (cells : list pixel) : list (list pixel) :=
  foldl (λ classes v, add_cell adj v classes) [] cells.

Definition label_of (regs : list (list pixel)) (p : pixel) : Z :=
  match list_find (λ R, p ∈ R) regs with
  | Some (i, _) => Z.of_nat (S i)
  | None => 0
  end.

(** [scipy.ndimage.label(input)] with the default structuring element: the
    regions are those of pixels joined by edges; the background is 0 and the
    regions are numbered from 1. Returns the labelled array and the number of
    regions. *)
Definition label (input : boolarray) : ndarray * nat :=
  let regs := regions adjacent4 (cells_where input) in
  (tabulate2 (array_shape input) (λ r c, label_of regs (r, c)), length regs).

(** [a.astype(np.uint8)] *)
Definition astype_uint8 (a : ndarray) : ndarray :=
  (λ row : list Z, (λ x, x `mod` 256) <$> row) <$> a.

(** Pixels joined by a path of pixels of [S], each step between neighbours. *)
Definition joined (adj : pixel → pixel → bool) (S : pixel → Prop) : relation pixel :=
  rtc (λ a b, S a ∧ S b ∧ adj a b = true).

(** Pixels joined by a path of set pixels, each step across an edge. *)
Definition connected4 (m : boolarray) : relation pixel := joined adjacent4 (is_on m).

(** The classes are the connected components of the pixels [S]: every pixel
    is in one class, no class is empty, the pixels of a class are joined, and
    neighbours are in one class. *)
Definition components (adj : pixel → pixel → bool) (S : list pixel)
    (classes : list (list pixel)) : Prop :=
  concat classes ≡ₚ S
  ∧ Forall (λ C, C ≠ []) classes
  ∧ (∀ C a b, C ∈ classes → a ∈ C → b ∈ C → joined adj (.∈ S) a b)
  ∧ (∀ a b, a ∈ S → b ∈ S → adj a b = true → ∃ C, C ∈ classes ∧ a ∈ C ∧ b ∈ C).

Section Shapes.
Context `{GeoLib}.

(** [rasterio.features.shapes(image, mask, transform)] with the default
    connectivity 4: one polygon, with its value, for each region of pixels
    of the mask that have one value and are joined by edges. *)
Definition shapes (image : ndarray) (mask : boolarray) (transform : Affine)
    : list (GeoJSON * Z) :=
  let value (p : pixel) := default 0 (cell image p.1 p.2) in
  (λ R, (mapping (polygonize transform R), value (default (0%nat, 0%nat) (head R))))
    <$> regions (λ a b, adjacent4 a b && (value a =? value b)) (cells_where mask).

(** rtree: the index keeps the entries inserted; a query gives the
    identifiers of those whose box meets the query box. *)
Definition boxes_intersect (a b : BoundingBox) : bool :=
  Qle_bool (minx a) (maxx b) && Qle_bool (minx b) (maxx a)
  && Qle_bool (miny a) (maxy b) && Qle_bool (miny b) (maxy a).

Definition rtree_insert (index : list (nat * BoundingBox)) (id : nat) (b : BoundingBox)
    : list (nat * BoundingBox) := index ++ [(id, b)].

Definition rtree_intersection (index : list (nat * BoundingBox)) (q : BoundingBox)
    : list nat :=
  fst <$> filter (λ e, boxes_intersect e.2 q = true) (rtree_order index).

Definition uuid4 : M string :=
  λ w, inr (uuid_stream w (drawn w), set_drawn (S (drawn w)) w).

End Shapes.

(** ** class Buildings *)

Module Buildings.
Section Defs.
Context `{GeoLib}.

(** The attributes of the object but for the downloaded table ([data]) and
    the parameters of the download. *)
Record t := Self {
  building_geometries : option (list Building);
  removed_buildings : list string;
  user_buildings : list Building;
  user_buildings_higher : list Building;
  removed_user_buildings : list string;
  is3D : bool;
}.

(** [list.remove(x)]: the first occurrence; ValueError when there is none *)
Fixpoint list_remove (x : string) (l : list string) : option (list string) :=
  match l with
  | [] => None
  | y :: l' => if String.eqb x y then Some l' else cons y <$> list_remove x l'
  end.

Definition remove_buildings (self : t) (identification : string) : M t :=
  mret (Self (building_geometries self) (removed_buildings self ++ [identification])
          (user_buildings self) (user_buildings_higher self)
          (removed_user_buildings self) (is3D self)).

Definition retrieve_buildings (self : t) (identification : string) : M t :=
  l ← from_some ValueError (list_remove identification (removed_buildings self));
  mret (Self (building_geometries self) l (user_buildings self)
          (user_buildings_higher self) (removed_user_buildings self) (is3D self)).

Definition remove_user_buildings (self : t) (identification : string) : M t :=
  mret (Self (building_geometries self) (removed_buildings self)
          (user_buildings self) (user_buildings_higher self)
          (removed_user_buildings self ++ [identification]) (is3D self)).

Definition retrieve_user_buildings (self : t) (identification : string) : M t :=
  l ← from_some ValueError (list_remove identification (removed_user_buildings self));
  mret (Self (building_geometries self) (removed_buildings self) (user_buildings self)
          (user_buildings_higher self) l (is3D self)).

(** [{"geometry": mapping(shape(geom)), "parcel_id": str(uuid.uuid4())[:8]}] *)
Definition new_building (gv : GeoJSON * Z) : M Building :=
  g ← shapeM gv.1;
  u ← uuid4;
  mret {| b_geometry := mapping g; parcel_id := String.substring 0 8 u |}.

(** The blobs of an array of heights: label, vectorize, identify. The
    method runs these lines on [highest_array] and on [footprint_array]. *)
Definition extract_blobs (heights : ndarray) (transform : Affine) : M (list Building) :=
  let '(labeled_array, num_clusters) := label (greater_than heights 0) in
  let shapes_found :=
    shapes (astype_uint8 labeled_array) (greater_than labeled_array 0) transform in
  forM new_building shapes_found.

Definition set_parcel_id (b : Building) (id : string) : Building :=
  {| b_geometry := b_geometry b; parcel_id := id |}.

(** The inner loop: the first candidate in relation with the footprint
    gives its identifier, and the loop is left. *)
Fixpoint match_candidates (footprint_geom : Geom) (highest_buildings : list Building)
    (footprint_building : Building) (possible_matches : list nat) : M Building :=
  match possible_matches with
  | [] => mret footprint_building
  | match_idx :: rest =>
      highest_building ← from_some IndexError (highest_buildings !! match_idx);
      highest_geom ← shapeM (b_geometry highest_building);
      if intersects footprint_geom highest_geom || within footprint_geom highest_geom
      then mret (set_parcel_id footprint_building (parcel_id highest_building))
      else match_candidates footprint_geom highest_buildings footprint_building rest
  end.

Definition match_footprint (rtree_index : list (nat * BoundingBox))
    (highest_buildings : list Building) (footprint_building : Building) : M Building :=
  footprint_geom ← shapeM (b_geometry footprint_building);
  let possible_matches := rtree_intersection rtree_index (bounds footprint_geom) in
  match_candidates footprint_geom highest_buildings footprint_building possible_matches.

Definition build_index (highest_buildings : list Building) : M (list (nat * BoundingBox)) :=
  foldlM (λ rtree_index (ib : nat * Building),
            geom ← shapeM (b_geometry ib.2);
            mret (rtree_insert rtree_index ib.1 (bounds geom)))
         [] (imap pair highest_buildings).

Definition insert_user_buildings (self : t) (highest_array : ndarray)
    (transform : Affine) (footprint_array : option ndarray) : M t :=
  let is3D := bool_decide (footprint_array ≠ None) in
  let removed_user_buildings := [] in
  let user_buildings_higher := [] in
  highest_buildings ← extract_blobs highest_array transform;
  match footprint_array with
  | Some footprint_array =>
      rtree_index ← build_index highest_buildings;
      footprint_buildings ← extract_blobs footprint_array transform;
      footprint_buildings ← forM (match_footprint rtree_index highest_buildings)
                              footprint_buildings;
      mret (Self (building_geometries self) (removed_buildings self)
              footprint_buildings highest_buildings removed_user_buildings is3D)
  | None =>
      mret (Self (building_geometries self) (removed_buildings self)
              highest_buildings user_buildings_higher removed_user_buildings is3D)
  end.

End Defs.
End Buildings.

(** ** Vocabulary of the statements *)

(** A computation returns, with a result and a world that satisfy [Q]. *)
Definition returns `{GeoLib} {A} (m : M A) (w : world) (Q : A → world → Prop) : Prop :=
  ∃ a w', m w = inr (a, w') ∧ Q a w'.

(** A computation raises. *)
Definition raises `{GeoLib} {A} (m : M A) (w : world) : Prop :=
  ∃ e, m w = inl e.

(** An array of [h] rows of [w] cells. *)
Definition rect {A} (h w : nat) (a : list (list A)) : Prop :=
  length a = h ∧ Forall (λ row, length row = w) a.

Inductive layer := Terrain | Road | Water | BuildingLayer.


Section Vocabulary.
Context `{GeoLib}.

(** The pixel is burnt by one of the valid geometries: the mask of
    [geometry_mask] is false there. *)
Definition covered (geometries : list Geom) (transform : Affine) (r c : nat) : bool :=
  existsb (λ g, burn transform g r c) (filter (λ g, is_valid_geom g = true) geometries).

(** The code a terrain or road feature writes at a pixel, if it writes. *)
Definition paints (transform : Affine) (ft : Feature) (r c : nat) : option Z :=
  g ← shape (geometry ft);
  k ← properties ft !! "landuse";
  if covered [g] transform r c then Some k else None.

(** The code the loop over a list of features leaves at a pixel: that of the
    last feature that writes there. *)
Definition loop_code (transform : Affine) (fts : list Feature) (r c : nat) : option Z :=
  last (omap (λ ft, paints transform ft r c) fts).

(** The code one mask written with the code [k] leaves at a pixel. *)
Definition mask_code (transform : Affine) (k : Z) (geometries : list GeoJSON)
    (r c : nat) : option Z :=
  if covered (omap shape geometries) transform r c then Some k else None.

(** The code a layer of the object writes at a pixel; [None] where its
    rasterization leaves the pixel alone. *)
Definition layer_code (self : LandCover.t) (transform : Affine) (L : layer)
    (r c : nat) : option Z :=
  match L with
  | Terrain => loop_code transform (LandCover.terrains self) r c
  | Road => loop_code transform (LandCover.roads self) r c
  | Water => mask_code transform 7 (raw_geometry <$> LandCover.water self) r c
  | BuildingLayer => mask_code transform 2 (b_geometry <$> LandCover.buildings self) r c
  end.


(** The first code of a list of layers, from the highest rank down;
    NODATA when no layer writes. *)
Definition composite (codes : list (option Z)) : Z :=
  default NODATA (list_find is_Some codes ≫= snd).

(** Nothing raises in the loop body for this feature: the mapping is
    parsed, and a geometry to rasterize is valid. *)
Definition feature_ok (ft : Feature) : bool :=
  match shape (geometry ft) with
  | Some g =>
      match properties ft !! "landuse" with
      | Some _ => is_valid_geom g
      | None => true
      end
  | None => false
  end.

(** The mappings are parsed, and if there are any, one is valid. *)
Definition mask_ok (geometries : list GeoJSON) : bool :=
  forallb (λ j, bool_decide (is_Some (shape j))) geometries
  && (bool_decide (geometries = [])
      || existsb (λ j, from_option is_valid_geom false (shape j)) geometries).

Definition rasterizable (self : LandCover.t) : bool :=
  bool_decide (is_Some (LandCover.dtm_dataset self))
  && forallb feature_ok (LandCover.terrains self)
  && forallb feature_ok (LandCover.roads self)
  && mask_ok (raw_geometry <$> LandCover.water self)
  && mask_ok (b_geometry <$> LandCover.buildings self).

(** What the rasterization prints. *)
Definition notes (self : LandCover.t) : list string :=
  (if bool_decide (LandCover.water self = [])
   then ["No valid water geometries found. Skipping water rasterization."] else [])
  ++ (if bool_decide (LandCover.buildings self = [])
      then ["No valid building geometries found. Skipping building rasterization."]
      else []).

Definition set_crs (object_crs dataset_crs : string) (self : LandCover.t) : LandCover.t :=
  LandCover.Self (LandCover.bbox self) (LandCover.transform self) object_crs
    (LandCover.main_road self)
    ((λ ds, {| ds_height := ds_height ds; ds_width := ds_width ds; ds_band := ds_band ds;
               ds_transform := ds_transform ds; ds_crs := dataset_crs;
               ds_nodata := ds_nodata ds |}) <$> LandCover.dtm_dataset self)
    (LandCover.water_mask self) (LandCover.building_mask self)
    (LandCover.buildings_path self) (LandCover.layer self) (LandCover.building_data self)
    (LandCover.landcover_path self) (LandCover.landcover_mapping self)
    (LandCover.buildings self) (LandCover.water self) (LandCover.roads self)
    (LandCover.terrains self) (LandCover.array self) (LandCover.og_landcover self)
    (LandCover.landcover_withoutbuild self).

Definition has_malformed (self : LandCover.t) : Prop :=
  (∃ ft, ft ∈ LandCover.terrains self ∧ shape (geometry ft) = None)
  ∨ (∃ ft, ft ∈ LandCover.roads self ∧ shape (geometry ft) = None)
  ∨ (∃ wat, wat ∈ LandCover.water self ∧ shape (raw_geometry wat) = None)
  ∨ (∃ b, b ∈ LandCover.buildings self ∧ shape (b_geometry b) = None).

(** The relation of the matcher as the specification words it: the
    candidate intersects the footprint or lies within it. *)
Definition candidate_related (footprint candidate : Geom) : bool :=
  intersects candidate footprint || within candidate footprint.

(** The identifier the specification gives a footprint blob: that of the
    first candidate the index returns that is related to it, its own
    otherwise. *)
Definition spec_match (highest : list Building) (footprint : Building) : option string :=
  fg ← shape (b_geometry footprint);
  let candidates :=
    rtree_intersection
      (imap (λ i b, (i, from_option bounds (BBox 0%Q 0%Q 0%Q 0%Q) (shape (b_geometry b)))) highest)
      (bounds fg) in
  let related (idx : nat) :=
    from_option (candidate_related fg) false
      (highest !! idx ≫= λ hb, shape (b_geometry hb)) in
  match list_find (λ idx, related idx = true) candidates with
  | Some (_, idx) => parcel_id <$> highest !! idx
  | None => Some (parcel_id footprint)
  end.

(** The blob of a region, with the [i]-th identifier drawn from [w]. *)
Definition blob_of (transform : Affine) (w : world) (i : nat) (R : list pixel) : Building :=
  {| b_geometry := mapping (polygonize transform R);
     parcel_id := String.substring 0 8 (uuid_stream w (drawn w + i)) |}.

(** A feature of the service that the ingestion can read: its geometry is
    parsed, and the attribute [key], when present, is a string. *)
Definition readable (key : string) (feature : RawFeature) : Prop :=
  is_Some (shape (raw_geometry feature))
  ∧ ∀ z, raw_properties feature !! key ≠ Some (PInt z).

(** The type of surface of a road is "verhard", in whatever case. *)
Definition hardened (road : RawFeature) : Prop :=
  ∃ s, raw_properties road !! "verhardingstype" = Some (PStr s) ∧ lower s = "verhard".

(** The lowercase value of a string attribute, of the empty string when the
    attribute is missing. *)
Definition attribute (key : string) (feature : RawFeature) : string :=
  match raw_properties feature !! key with
  | Some (PStr s) => lower s
  | _ => lower ""
  end.

(** What one feature of the service contributes to the terrain layer, to
    the road layer and to the water layer. *)
Definition terrain_feature (table : gmap string Z) (ter : RawFeature) : list Feature :=
  match shape (raw_geometry ter) with
  | Some g =>
      if LandCover.is_polygonal g
      then [{| geometry := mapping g;
               properties := LandCover.new_properties
                               (default (-1) (table !! attribute "typelandgebruik" ter)) |}]
      else []
  | None => []
  end.

Definition road_feature (main_road : Z) (table : gmap string Z) (road : RawFeature)
    : list Feature :=
  match shape (raw_geometry road) with
  | Some g =>
      if LandCover.is_polygonal g
      then [{| geometry := mapping g;
               properties := LandCover.new_properties
                 (if String.eqb (attribute "verhardingstype" road) "verhard" then main_road
                  else default (-1) (table !! attribute "verhardingstype" road)) |}]
      else []
  | None => []
  end.

Definition water_feature (buffered : bool) (wat : RawFeature) : list RawFeature :=
  match shape (raw_geometry wat) with
  | Some g =>
      let geom := if buffered then buffer g else g in
      if LandCover.not_minus_one (raw_properties wat !! "hoogteniveau")
         && LandCover.is_polygonal geom
      then [{| raw_geometry := mapping geom; raw_properties := raw_properties wat |}]
      else []
  | None => []
  end.

(** The relation the matcher tests. *)
Definition code_related (footprint_geom highest_geom : Geom) : bool :=
  intersects footprint_geom highest_geom || within footprint_geom highest_geom.

End Vocabulary.

(** ** A small instance of the libraries, for the examples

    A geometry is a kind and the list of the pixels it covers; a mapping is
    a geometry or is malformed ([None]). *)

Module Toy.

Definition geom := (geom_kind * list pixel)%type.

Definition share_pixel (a b : geom) : bool :=
  existsb (λ p, bool_decide (p ∈ b.2)) a.2.

Definition inside (a b : geom) : bool :=
  negb (bool_decide (a.2 = [])) && forallb (λ p, bool_decide (p ∈ b.2)) a.2.

Definition box_of (g : geom) : BoundingBox :=
  let rows := fst <$> g.2 in
  let cols := snd <$> g.2 in
  let q (n : nat) := inject_Z (Z.of_nat n) in
  BBox (q (foldr Nat.min (default 0%nat (head cols)) cols))
       (q (foldr Nat.min (default 0%nat (head rows)) rows))
       (q (S (foldr Nat.max 0%nat cols)))
       (q (S (foldr Nat.max 0%nat rows))).

Definition lib : GeoLib := {|
  GeoJSON := option geom;
  Geom := geom;
  Affine := unit;
  shape := id;
  mapping := Some;
  geom_type := fst;
  buffer := λ g, (Polygon, g.2);
  is_valid_geom := λ g, negb (bool_decide (g.2 = []));
  burn := λ _ g r c, bool_decide ((r, c) ∈ g.2);
  polygonize := λ _ R, (Polygon, R);
  bounds := box_of;
  intersects := share_pixel;
  within := inside;
  rtree_order := λ entries, rev entries;
|}.

Definition square (r c : nat) : option geom := Some (Polygon, [(r, c)]).

(** The only transform of the instance. *)
Definition identity : @Affine lib := tt.

Definition dataset (h w : nat) (crs : string) : @Dataset lib :=
  {| ds_height := h; ds_width := w; ds_band := λ _ _, 0;
     ds_transform := tt : @Affine lib; ds_crs := crs; ds_nodata := None |}.

Definition coded (j : option geom) (k : Z) : @Feature lib :=
  {| geometry := j : @GeoJSON lib; properties := {[ "landuse" := k ]} |}.


Definition building (j : option geom) (id : string) : @Building lib :=
  {| b_geometry := j : @GeoJSON lib; parcel_id := id |}.

Definition raw (j : option geom) (props : gmap string pyval) : @RawFeature lib :=
  {| raw_geometry := j : @GeoJSON lib; raw_properties := props |}.

(** An object over a grid of [h] by [w] pixels. *)
Definition landcover (h w : nat) (crs dataset_crs : string)
    (te ro : list (@Feature lib)) (wa : list (@RawFeature lib))
    (bu : list (@Building lib)) : @LandCover.t lib :=
  LandCover.Self (0%Q, 0%Q, inject_Z (Z.of_nat w), inject_Z (Z.of_nat h)) None crs 0
    (Some (dataset h w dataset_crs)) None None None None None "landcover.json" ∅
    bu wa ro te None None None.

Definition uuids (n : nat) : string :=
  match n with
  | 0%nat => "0a1b2c3d-0000-4000-8000-000000000000"
  | 1%nat => "1b2c3d4e-0000-4000-8000-000000000000"
  | 2%nat => "2c3d4e5f-0000-4000-8000-000000000000"
  | _ => "ffffffff-0000-4000-8000-000000000000"
  end.

Definition code_table : gmap string (gmap string Z) :=
  {[ "terrain" := {[ "grasland" := 5 ]}; "road" := {[ "onverhard" := 3 ]} ]}.

(** A world with an empty heap; the service knows no feature. *)
Definition world0 : @world lib :=
  World [] [] [] 0%nat uuids (λ _, []) (λ _, None) (λ _ _, None)
    (λ p, if String.eqb p "landcover.json" then Some code_table else None).

Definition buildings0 : @Buildings.t lib := Buildings.Self None [] [] [] [] false.

(** Four layers on a grid of 2 by 2: two terrain features that both cover
    the pixel (0, 0), a road feature there too, water on (0, 1), a building
    on (1, 0). *)
Definition four_layers : @LandCover.t lib :=
  landcover 2 2 "EPSG:28992" "EPSG:28992"
    [coded (square 0 0) 5; coded (Some (Polygon, [(0, 0); (1, 1)]%nat)) 6]
    [coded (square 0 0) 1]
    [raw (square 0 1) ∅]
    [building (square 1 0) "0363100012345678"].


(** The arguments of an object over one pixel; the service has no feature
    and there is no building. *)
Definition one_pixel_args : @LandCover.init_args lib :=
  {| LandCover.arg_bbox := (0%Q, 0%Q, 1%Q, 1%Q);
     LandCover.arg_crs := "EPSG:28992";
     LandCover.arg_main_roadtype := 0;
     LandCover.arg_building_data := None;
     LandCover.arg_dataset := Some (dataset 1 1 "EPSG:28992");
     LandCover.arg_dataset_path := None;
     LandCover.arg_buildings_path := None;
     LandCover.arg_layer := None;
     LandCover.arg_landcover_path := "landcover.json" |}.

(** The reference system of the object is not that of the dataset. *)
Definition mismatch : @LandCover.t lib :=
  landcover 2 2 "EPSG:4326" "EPSG:28992" [coded (square 0 0) 5] [] [] [].

(** The second building has a mapping that cannot be parsed. *)
Definition one_malformed : @LandCover.t lib :=
  landcover 2 2 "EPSG:28992" "EPSG:28992" [coded (square 0 0) 5] [] []
    [building (square 1 0) "0363100012345678"; building None "0363100087654321"].


(** A world whose heap holds one array of 2 by 2, all NODATA. *)
Definition world1 : @world lib :=
  World [[[-9999; -9999]; [-9999; -9999]]] [] [] 0%nat uuids (λ _, []) (λ _, None)
    (λ _ _, None) (λ _, None).

(** Two terrain features that cover the pixel (0, 0). *)
Definition overlapping_terrain : list (@Feature lib) :=
  [coded (square 0 0) 5; coded (Some (Polygon, [(0, 0); (1, 1)]%nat)) 6].

(** A terrain feature of a type the code table does not know. *)
Definition unknown_terrain : @RawFeature lib :=
  raw (square 0 0) {[ "typelandgebruik" := PStr "Bos: Loofbos" ]}.

(** Heights with two positive regions that touch at a corner only, and a
    footprint with one region that meets the first of them. *)
Definition highest_heights : ndarray := [[3; 0]; [0; 4]].
Definition footprint_heights : ndarray := [[1; 1]; [0; 0]].

(** Two terrain features that share no pixel. *)
Definition disjoint_terrain : list (@Feature lib) :=
  [coded (square 0 0) 5; coded (square 1 1) 6].

(** What the service answers in the examples of the ingestion. *)
Definition served (item_type : string) : list (@RawFeature lib) :=
  if String.eqb item_type "terrein_vlak" then
    [raw (square 0 0) {[ "typelandgebruik" := PStr "Grasland" ]}; unknown_terrain;
     raw (Some (LineString, [(1, 1)]%nat)) {[ "typelandgebruik" := PStr "grasland" ]}]
  else if String.eqb item_type "wegdeel_vlak" then
    [raw (square 1 0) {[ "verhardingstype" := PStr "Verhard" ]}]
  else if String.eqb item_type "waterdeel_vlak" then
    [raw (square 0 1) {[ "hoogteniveau" := PInt 0 ]};
     raw (square 1 1) {[ "hoogteniveau" := PInt (-1) ]}]
  else if String.eqb item_type "waterdeel_lijn" then
    [raw (Some (LineString, [(1, 1)]%nat)) ∅]
  else [].

Definition world_served : @world lib :=
  World [] [] [] 0%nat uuids served (λ _, None) (λ _ _, None)
    (λ p, if String.eqb p "landcover.json" then Some code_table else None).

(** The service answers a terrain feature with a mapping that cannot be
    parsed. *)
Definition world_broken : @world lib :=
  World [] [] [] 0%nat uuids
    (λ item_type, if String.eqb item_type "terrein_vlak"
                  then [raw (square 0 0) ∅; raw None ∅] else [])
    (λ _, None) (λ _ _, None)
    (λ p, if String.eqb p "landcover.json" then Some code_table else None).

(** An object with the code table of the examples. *)
Definition with_table : @LandCover.t lib :=
  LandCover.Self (0%Q, 0%Q, 2%Q, 2%Q) None "EPSG:28992" 0
    (Some (dataset 2 2 "EPSG:28992")) None None None None None "landcover.json" code_table
    [] [] [] [] None None None.

(** An object as [__init__] leaves it, over the array at the reference 0 of
    [world1]. *)
Definition initialized : @LandCover.t lib :=
  LandCover.Self (0%Q, 0%Q, 2%Q, 2%Q) (Some identity) "EPSG:28992" 0
    (Some (dataset 2 2 "EPSG:28992")) None None None None None "landcover.json" code_table
    [] [] [] [] (Some 0%nat) (Some 0%nat) None.

(** The same over one row of two pixels. *)
Definition one_row_world : @world lib :=
  World [[[-9999; -9999]]] [] [] 0%nat uuids (λ _, []) (λ _, None) (λ _ _, None) (λ _, None).

Definition one_row : @LandCover.t lib :=
  LandCover.Self (0%Q, 0%Q, 2%Q, 1%Q) (Some identity) "EPSG:28992" 0
    (Some (dataset 1 2 "EPSG:28992")) None None None None None "landcover.json" code_table
    [] [] [] [] (Some 0%nat) (Some 0%nat) None.

(** The four layers over a dataset with other heights, another reference
    system and a nodata value. *)
Definition hills : @Dataset lib :=
  {| ds_height := 2; ds_width := 2; ds_band := λ r c, Z.of_nat (r + 2 * c);
     ds_transform := tt : @Affine lib; ds_crs := "EPSG:4326"; ds_nodata := Some 0 |}.

Definition four_layers_hills : @LandCover.t lib :=
  LandCover.Self (0%Q, 0%Q, 2%Q, 2%Q) None "EPSG:4326" 0
    (Some hills) None None None None None "landcover.json" ∅
    (LandCover.buildings four_layers) (LandCover.water four_layers)
    (LandCover.roads four_layers) (LandCover.terrains four_layers) None None None.

(** Two highest blobs and a footprint blob that meets the second. *)
Definition highest_blobs : list (@Building lib) :=
  [building (square 0 0) "0a1b2c3d"; building (Some (Polygon, [(1, 0); (1, 1)]%nat)) "1b2c3d4e"].

Definition footprint_blob : @Building lib := building (square 1 1) "2c3d4e5f".

(** An object with removed buildings. *)
Definition buildings_removed : @Buildings.t lib :=
  Buildings.Self None ["0363100012345678"; "0363100087654321"] [] []
    ["0a1b2c3d"; "1b2c3d4e"; "0a1b2c3d"] false.

End Toy.

(** * Properties *)

(** ** Arrays *)

Section Arrays.
Context {A : Type}.
Implicit Types (a : list (list A)) (h w r c : nat).

Lemma cell_tabulate2 (shp : nat * nat) (f : nat → nat → A) r c :
  (r < shp.1)%nat → (c < shp.2)%nat → cell (tabulate2 shp f) r c = Some (f r c).
Proof.
  intros Hr Hc. unfold cell, tabulate2.
  rewrite list_lookup_fmap, lookup_seq_lt by done. simpl.
  by rewrite list_lookup_fmap, lookup_seq_lt.
Qed.

Lemma rect_tabulate2 h w (f : nat → nat → A) : rect h w (tabulate2 (h, w) f).
Proof.
  split.
  - unfold tabulate2. by rewrite length_fmap, length_seq.
  - apply Forall_fmap, Forall_forall. intros r _. simpl.
    by rewrite length_fmap, length_seq.
Qed.

Lemma rect_cell h w a r c :
  rect h w a → (r < h)%nat → (c < w)%nat → is_Some (cell a r c).
Proof.
  intros [Hl Hrows] Hr Hc. unfold cell.
  destruct (lookup_lt_is_Some_2 a r) as [row Hrow]; [lia|].
  rewrite Hrow. simpl. apply lookup_lt_is_Some_2.
  rewrite Forall_forall in Hrows.
  rewrite (Hrows row); [done|]. by eapply list_elem_of_lookup_2.
Qed.

Lemma array_shape_rect h w a : rect h w a → (0 < h)%nat → array_shape a = (h, w).
Proof.
  intros [Hl Hrows] Hh. unfold array_shape. rewrite Hl. f_equal.
  destruct a as [|row a']; simpl in *; [lia|].
  by inversion Hrows.
Qed.

End Arrays.

Lemma cell_where_values (m : boolarray) (a : ndarray) v r c :
  cell (where_values m a v) r c =
  b ← cell m r c; x ← cell a r c; Some (if b : bool then x else v).
Proof.
  unfold cell, where_values. rewrite lookup_zip_with.
  destruct (m !! r) as [mrow|]; simpl; [|done].
  destruct (a !! r) as [arow|]; simpl.
  - rewrite lookup_zip_with. by destruct (mrow !! c).
  - by destruct (mrow !! c).
Qed.

Lemma rect_where_values h w (m : boolarray) (a : ndarray) v :
  rect h w m → rect h w a → rect h w (where_values m a v).
Proof.
  intros [Hm Hmr] [Ha Har]. split.
  - unfold where_values. rewrite length_zip_with. lia.
  - unfold where_values. apply Forall_forall. intros row Hrow.
    apply list_elem_of_lookup in Hrow as [i Hi].
    apply lookup_zip_with_Some in Hi as (mrow & arow & -> & Hmi & Hai).
    rewrite length_zip_with.
    rewrite Forall_forall in Hmr. rewrite Forall_forall in Har.
    rewrite (Hmr mrow), (Har arow); [lia| |]; by eapply list_elem_of_lookup_2.
Qed.

Lemma cell_fill_values (a : ndarray) v r c :
  cell (fill_values a v) r c = (λ _, v) <$> cell a r c.
Proof.
  unfold cell, fill_values. rewrite list_lookup_fmap.
  destruct (a !! r) as [row|]; simpl; [|done]. by rewrite list_lookup_fmap.
Qed.

Lemma rect_fill_values h w (a : ndarray) v : rect h w a → rect h w (fill_values a v).
Proof.
  intros [Hl Hrows]. split.
  - unfold fill_values. by rewrite length_fmap.
  - unfold fill_values. apply Forall_fmap. eapply Forall_impl; [done|].
    intros row Hrow. simpl. by rewrite length_fmap.
Qed.

(** ** Computations *)

Section Computations.
Context `{GeoLib}.

Lemma returns_ret {A} (x : A) w (Q : A → world → Prop) : Q x w → returns (mret x) w Q.
Proof. intros HQ. by exists x, w. Qed.

Lemma returns_bind {A B} (m : M A) (f : A → M B) w (R : A → world → Prop)
    (Q : B → world → Prop) :
  returns m w R → (∀ a w', R a w' → returns (f a) w' Q) → returns (m ≫= f) w Q.
Proof.
  intros (a & w' & Hm & HR) Hf.
  destruct (Hf a w' HR) as (b & w'' & Hfa & HQ).
  exists b, w''. split; [|done].
  unfold mbind, M_bind. by rewrite Hm.
Qed.

Lemma returns_bind_eq {A B} (m : M A) (f : A → M B) w a w' (Q : B → world → Prop) :
  m w = inr (a, w') → returns (f a) w' Q → returns (m ≫= f) w Q.
Proof.
  intros Hm (b & w'' & Hf & HQ). exists b, w''. split; [|done].
  unfold mbind, M_bind. by rewrite Hm.
Qed.

Lemma returns_mono {A} (m : M A) w (P Q : A → world → Prop) :
  returns m w P → (∀ a w', P a w' → Q a w') → returns m w Q.
Proof. intros (a & w' & Hm & HP) HPQ. exists a, w'. eauto. Qed.

Lemma raises_bind {A B} (m : M A) (f : A → M B) w :
  raises m w → raises (m ≫= f) w.
Proof. intros [e He]. exists e. unfold mbind, M_bind. by rewrite He. Qed.

Lemma raises_bind_after {A B} (m : M A) (f : A → M B) w :
  (∀ a w', raises (f a) w') → raises (m ≫= f) w.
Proof.
  intros Hf. unfold raises, mbind, M_bind.
  destruct (m w) as [e|[a w']]; [by exists e|]. apply Hf.
Qed.

Lemma returns_not_raises {A} (m : M A) w Q : returns m w Q → ¬ raises m w.
Proof. intros (a & w' & Hm & _) [e He]. congruence. Qed.

End Computations.

(** ** The compositing engine *)

Section Compositing.
Context `{GeoLib}.
Implicit Types (a : ndarray) (l : loc) (t : Affine).

Lemma rect_mask {A} h w a (f : nat → nat → A) :
  rect h w a → rect h w (tabulate2 (array_shape a) f).
Proof.
  intros Ha. destruct h as [|h'].
  - destruct Ha as [Hl _]. apply nil_length_inv in Hl as ->. by split.
  - rewrite (array_shape_rect (S h') w a) by (done || lia). apply rect_tabulate2.
Qed.

Lemma cell_mask {A} h w a (f : nat → nat → A) r c :
  rect h w a → (r < h)%nat → (c < w)%nat →
  cell (tabulate2 (array_shape a) f) r c = Some (f r c).
Proof.
  intros Ha Hr Hc.
  apply cell_tabulate2; rewrite (array_shape_rect h w a) by (done || lia); done.
Qed.

Lemma skip_warnings_run (geoms : list Geom) i w0 :
  ∃ w', skip_warnings i geoms w0 = inr (tt, w')
        ∧ heap w' = heap w0 ∧ stdout w' = stdout w0.
Proof.
  revert i w0. induction geoms as [|g gs IH]; intros i w0; simpl.
  - by exists w0.
  - unfold mbind, M_bind. destruct (is_valid_geom g); simpl.
    + apply IH.
    + destruct (IH (S i) (set_warnings (warnings w0 ++ [ShapeSkipWarning i]) w0))
        as (w' & -> & Hh & Ho).
      by exists w'.
Qed.

Lemma geometry_mask_run (geoms : list Geom) t shp w0 :
  filter (λ g, is_valid_geom g = true) geoms ≠ [] →
  ∃ w', geometry_mask geoms t false shp w0
        = inr (tabulate2 shp (λ r c, negb (covered geoms t r c)), w')
        ∧ heap w' = heap w0 ∧ stdout w' = stdout w0.
Proof.
  intros Hvalid. unfold geometry_mask, mbind, M_bind.
  destruct (skip_warnings_run geoms 0 w0) as (w' & -> & Hh & Ho).
  exists w'. rewrite bool_decide_eq_false_2 by done.
  split; [|done]. reflexivity.
Qed.

(** Writing the code [k] under a mask: a new array, the old one kept. *)
Lemma mask_and_where_run (geoms : list Geom) t k l a h w w0 :
  heap w0 !! l = Some a → rect h w a →
  filter (λ g, is_valid_geom g = true) geoms ≠ [] →
  ∃ w' a',
    (out_shape ← shape_of l;
     m ← geometry_mask geoms t false out_shape;
     array ← np_where m l k;
     mret (array, m)) w0
    = inr ((length (heap w0), tabulate2 (array_shape a) (λ r c, negb (covered geoms t r c))), w')
    ∧ heap w' = heap w0 ++ [a'] ∧ rect h w a'
    ∧ (∀ r c, (r < h)%nat → (c < w)%nat →
         cell a' r c = if covered geoms t r c then Some k else cell a r c)
    ∧ stdout w' = stdout w0.
Proof.
  intros Hl Ha Hvalid.
  destruct (geometry_mask_run geoms t (array_shape a) w0 Hvalid) as (w1 & Hm & Hh & Ho).
  eexists _, (where_values (tabulate2 (array_shape a) (λ r c, negb (covered geoms t r c))) a k).
  split; [|split; [|split; [|split]]].
  - unfold shape_of, np_where, deref, alloc, mbind, M_bind, mret, M_ret.
    rewrite Hl. simpl. rewrite Hm. simpl. rewrite Hh, Hl. simpl. rewrite Hh.
    reflexivity.
  - done.
  - apply rect_where_values; [by apply rect_mask|done].
  - intros r c Hr Hc. rewrite cell_where_values, (cell_mask h w) by done. simpl.
    destruct (rect_cell h w a r c Ha Hr Hc) as [x ->]. simpl.
    by destruct (covered geoms t r c).
  - done.
Qed.

Lemma paint_feature_run t l a h w ft w0 :
  heap w0 !! l = Some a → rect h w a → feature_ok ft = true →
  returns (LandCover.paint_feature t l ft) w0 (λ l' w',
    ∃ a', heap w' !! l' = Some a' ∧ rect h w a'
      ∧ (∀ r c, (r < h)%nat → (c < w)%nat →
           cell a' r c = from_option Some (cell a r c) (paints t ft r c))
      ∧ stdout w' = stdout w0).
Proof.
  intros Hl Ha Hok. unfold feature_ok in Hok. unfold LandCover.paint_feature, paints.
  destruct (shape (geometry ft)) as [g|] eqn:Hg; [|done].
  unfold shapeM. rewrite Hg. simpl.
  destruct (properties ft !! "landuse") as [k|] eqn:Hk.
  - destruct (mask_and_where_run [g] t k l a h w w0 Hl Ha) as (w' & a' & Hrun & Hh & Ha' & Hc & Ho).
    { by rewrite filter_cons_True. }
    exists (length (heap w0)), w'. split.
    + revert Hrun. unfold mbind, M_bind, mret, M_ret. simpl.
      destruct (shape_of l w0) as [e|[shp w1]]; [done|].
      destruct (geometry_mask _ _ _ _ w1) as [e|[m w2]]; [done|].
      destruct (np_where m l k w2) as [e|[l' w3]]; [done|]. congruence.
    + exists a'. split; [|split; [|split]]; try done.
      * rewrite Hh. by rewrite lookup_app_r, Nat.sub_diag.
      * intros r c Hr Hcc. rewrite (Hc r c Hr Hcc). by destruct (covered _ _ _ _).
  - exists l, w0. split; [done|]. exists a. split; [done|]. split; [done|]. by split.
Qed.

Lemma loop_code_cons t ft fts r c :
  loop_code t (ft :: fts) r c
  = match loop_code t fts r c with
    | Some k => Some k
    | None => paints t ft r c
    end.
Proof.
  unfold loop_code. simpl. destruct (paints t ft r c) as [k|]; simpl.
  - rewrite last_cons. by destruct (last _).
  - by destruct (last _).
Qed.

Lemma paint_loop_run t h w fts : ∀ l a w0,
  heap w0 !! l = Some a → rect h w a → forallb feature_ok fts = true →
  returns (foldlM (LandCover.paint_feature t) l fts) w0 (λ l' w',
    ∃ a', heap w' !! l' = Some a' ∧ rect h w a'
      ∧ (∀ r c, (r < h)%nat → (c < w)%nat →
           cell a' r c = from_option Some (cell a r c) (loop_code t fts r c))
      ∧ stdout w' = stdout w0).
Proof.
  induction fts as [|ft fts IH]; intros l a w0 Hl Ha Hok; simpl.
  - apply returns_ret. exists a. split; [done|]. split; [done|]. by split.
  - apply andb_prop in Hok as [Hft Hfts].
    eapply returns_bind; [by eapply paint_feature_run|].
    intros l1 w1 (a1 & Hl1 & Ha1 & Hc1 & Ho1). simpl in *.
    eapply returns_mono; [by eapply IH|].
    intros l2 w2 (a2 & Hl2 & Ha2 & Hc2 & Ho2). simpl in *.
    exists a2. split; [done|]. split; [done|]. split; [|congruence].
    intros r c Hr Hc. rewrite (Hc2 r c Hr Hc), (Hc1 r c Hr Hc), loop_code_cons.
    by destruct (loop_code t fts r c).
Qed.

End Compositing.

Section Raster.
Context `{GeoLib}.
Implicit Types (a : ndarray) (l : loc) (t : Affine).

Lemma forM_shape {X} (proj : X → GeoJSON) (f : X → M Geom) (xs : list X) w0 :
  (∀ x w, f x w = shapeM (proj x) w) →
  forallb (λ j, bool_decide (is_Some (shape j))) (proj <$> xs) = true →
  forM f xs w0 = inr (omap shape (proj <$> xs), w0).
Proof.
  intros Hf. induction xs as [|x xs IH]; simpl; [done|].
  intros [Hx Hxs]%andb_prop. apply bool_decide_eq_true in Hx as [g Hg].
  unfold mbind, M_bind. rewrite Hf. unfold shapeM. rewrite Hg. simpl.
  by rewrite (IH Hxs).
Qed.

Lemma water_geometry_shape (wat : RawFeature) w0 :
  LandCover.water_geometry wat w0 = shapeM (raw_geometry wat) w0.
Proof.
  unfold LandCover.water_geometry, shapeM, mbind, M_bind.
  destruct (shape (raw_geometry wat)) as [g|]; simpl; [|done].
  by destruct (LandCover.is_line g).
Qed.

Lemma mask_ok_valid (jsons : list GeoJSON) :
  mask_ok jsons = true →
  omap shape jsons = [] ∨ filter (λ g, is_valid_geom g = true) (omap shape jsons) ≠ [].
Proof.
  intros [_ [Hnil|Hex]%orb_prop]%andb_prop.
  - apply bool_decide_eq_true in Hnil as ->. by left.
  - right. apply existsb_exists in Hex as (j & Hj & Hv).
    destruct (shape j) as [g|] eqn:Hg; [|done]. simpl in Hv.
    intros Hnil.
    assert (g ∈ filter (λ g, is_valid_geom g = true) (omap shape jsons)) as Hin.
    { apply list_elem_of_filter. split; [done|].
      apply list_elem_of_omap. exists j. split; [by apply list_elem_of_In|done]. }
    rewrite Hnil in Hin. by apply not_elem_of_nil in Hin.
Qed.

Lemma omap_shape_nil {X} (proj : X → GeoJSON) (xs : list X) :
  forallb (λ j, bool_decide (is_Some (shape j))) (proj <$> xs) = true →
  omap shape (proj <$> xs) = [] ↔ xs = [].
Proof.
  destruct xs as [|x xs]; simpl; [done|].
  intros [Hx _]%andb_prop. apply bool_decide_eq_true in Hx as [g ->].
  split; intros; discriminate.
Qed.

(** One of the two layers that are rasterized as a whole, with its note
    when there is no geometry. *)
Lemma mask_branch_run (setter : option boolarray → LandCover.t → LandCover.t)
    (note : string) (gs : list Geom) t k l a h w (self : LandCover.t) w0 :
  heap w0 !! l = Some a → rect h w a →
  gs = [] ∨ filter (λ g, is_valid_geom g = true) gs ≠ [] →
  returns
    (if bool_decide (gs = [])
     then _ ← print note; mret (l, self)
     else
       out_shape ← shape_of l;
       m ← geometry_mask gs t false out_shape;
       let self := setter (Some m) self in
       array ← np_where m l k;
       mret (array, self)) w0
    (λ ls w',
       ∃ a', heap w' !! ls.1 = Some a' ∧ rect h w a'
         ∧ (∀ r c, (r < h)%nat → (c < w)%nat →
              cell a' r c = if covered gs t r c then Some k else cell a r c)
         ∧ stdout w' = stdout w0 ++ (if bool_decide (gs = []) then [note] else [])
         ∧ (gs = [] → ls.1 = l)
         ∧ ((∀ x, LandCover.buildings (setter x self) = LandCover.buildings self) →
            LandCover.buildings ls.2 = LandCover.buildings self)).
Proof.
  intros Hl Ha Hgs. case_bool_decide as Hnil.
  - subst gs. eexists (l, self), _. split; [reflexivity|]. exists a. simpl.
    split; [done|]. split; [done|]. split; [done|]. split; [done|]. by split.
  - destruct Hgs as [?|Hvalid]; [done|].
    destruct (mask_and_where_run gs t k l a h w w0 Hl Ha Hvalid)
      as (w' & a' & Hrun & Hh & Ha' & Hc & Ho).
    eexists (length (heap w0), _), w'. split.
    + revert Hrun. unfold mbind, M_bind, mret, M_ret. simpl.
      destruct (shape_of l w0) as [e|[shp w1]]; [done|].
      destruct (geometry_mask _ _ _ _ w1) as [e|[m w2]]; [done|].
      destruct (np_where m l k w2) as [e|[l' w3]]; [done|].
      intros Heq. injection Heq as -> -> ->. reflexivity.
    + exists a'. simpl. split; [by rewrite Hh, lookup_app_r, Nat.sub_diag|].
      split; [done|]. split; [done|]. split; [by rewrite Ho, app_nil_r|].
      split; [done|]. intros Hset. apply Hset.
Qed.

Lemma composite_layers (b wa ro te : option Z) :
  from_option Some (from_option Some (from_option Some (Some NODATA) te) ro) wa
  = Some (composite [None; wa; ro; te])
  ∧ (∀ k, Some k = Some (composite [Some k; wa; ro; te])).
Proof. split; [by destruct wa, ro, te|done]. Qed.

End Raster.

Section ConvertToRaster.
Context `{GeoLib}.
Implicit Types (a : ndarray) (l : loc) (t : Affine).

Lemma ds_read_run (ds : Dataset) w0 :
  returns (ds_read ds) w0 (λ l w',
    l = length (heap w0)
    ∧ heap w' = heap w0 ++ [tabulate2 (ds_height ds, ds_width ds) (ds_band ds)]
    ∧ stdout w' = stdout w0).
Proof. eexists _, _. split; [reflexivity|]. done. Qed.

Lemma ndarray_fill_run l a v h w w0 :
  heap w0 !! l = Some a → rect h w a →
  returns (ndarray_fill l v) w0 (λ _ w',
    ∃ a', heap w' !! l = Some a' ∧ rect h w a'
      ∧ (∀ r c, (r < h)%nat → (c < w)%nat → cell a' r c = Some v)
      ∧ length (heap w') = length (heap w0)
      ∧ stdout w' = stdout w0).
Proof.
  intros Hl Ha. eexists tt, _. split.
  - unfold ndarray_fill, deref, store, mbind, M_bind. rewrite Hl. reflexivity.
  - exists (fill_values a v). simpl.
    split; [apply list_lookup_insert_eq; by eapply lookup_lt_Some|].
    split; [by apply rect_fill_values|].
    split; [|by rewrite length_insert].
    intros r c Hr Hc. rewrite cell_fill_values.
    by destruct (rect_cell h w a r c Ha Hr Hc) as [x ->].
Qed.

(** The grid of the rasterization: at each pixel the code of the layer of
    highest rank that writes there, NODATA where none does. *)
Lemma convert_to_raster_run (self : LandCover.t) ds w0 :
  LandCover.dtm_dataset self = Some ds → rasterizable self = true →
  returns (LandCover.convert_to_raster self) w0 (λ ls w',
    ∃ a, heap w' !! ls.1 = Some a
      ∧ rect (ds_height ds) (ds_width ds) a
      ∧ (∀ r c, (r < ds_height ds)%nat → (c < ds_width ds)%nat →
           cell a r c = Some (composite
             [layer_code self (ds_transform ds) BuildingLayer r c;
              layer_code self (ds_transform ds) Water r c;
              layer_code self (ds_transform ds) Road r c;
              layer_code self (ds_transform ds) Terrain r c]))
      ∧ stdout w' = stdout w0 ++ notes self).
Proof.
  intros Hds Hok. unfold rasterizable in Hok.
  apply andb_prop in Hok as [Hok Hbu]. apply andb_prop in Hok as [Hok Hwa].
  apply andb_prop in Hok as [Hok Hro]. apply andb_prop in Hok as [_ Hte].
  unfold LandCover.convert_to_raster. rewrite Hds.
  eapply returns_bind_eq; [reflexivity|].
  eapply returns_bind; [apply ds_read_run|]. intros l0 w1 (-> & Hh1 & Ho1).
  assert (heap w1 !! length (heap w0)
          = Some (tabulate2 (ds_height ds, ds_width ds) (ds_band ds))) as Hl0.
  { by rewrite Hh1, lookup_app_r, Nat.sub_diag. }
  eapply returns_bind.
  { eapply ndarray_fill_run; [done|apply rect_tabulate2]. }
  intros _ w2 (a0 & Hl2 & Ha0 & Hc0 & _ & Ho2).
  eapply returns_bind; [by eapply paint_loop_run|].
  intros l3 w3 (a1 & Hl3 & Ha1 & Hc1 & Ho3).
  eapply returns_bind; [by eapply paint_loop_run|].
  intros l4 w4 (a2 & Hl4 & Ha2 & Hc2 & Ho4).
  eapply returns_bind_eq.
  { apply (forM_shape raw_geometry); [apply water_geometry_shape|].
    by apply andb_prop in Hwa as [? _]. }
  eapply returns_bind.
  { eapply (mask_branch_run LandCover.set_water_mask); [done..|].
    by apply mask_ok_valid. }
  intros [l6 self6] w6 (a3 & Hl6 & Ha3 & Hc3 & Ho6 & _ & Hself6). simpl in *.
  eapply returns_bind_eq.
  { apply (forM_shape b_geometry); [done|].
    rewrite Hself6 by done. by apply andb_prop in Hbu as [? _]. }
  eapply returns_bind.
  { eapply (mask_branch_run LandCover.set_building_mask); [done..|].
    rewrite Hself6 by done. by apply mask_ok_valid. }
  intros [l8 self8] w8 (a4 & Hl8 & Ha4 & Hc4 & Ho8 & _ & _). simpl in *.
  eapply returns_bind_eq; [reflexivity|].
  apply returns_ret. exists a4. simpl.
  split; [done|]. split; [done|]. split.
  - intros r c Hr Hc.
    rewrite (Hc4 r c), (Hc3 r c), (Hc2 r c), (Hc1 r c), (Hc0 r c) by done.
    rewrite Hself6 by done. unfold layer_code, mask_code.
    destruct (covered (omap shape (b_geometry <$> _)) _ r c).
    + apply composite_layers; exact None.
    + destruct (covered (omap shape (raw_geometry <$> _)) _ r c);
        by destruct (loop_code _ (LandCover.roads self) r c),
                    (loop_code _ (LandCover.terrains self) r c).
  - rewrite Ho8, Ho6, Ho4, Ho3, Ho2, Ho1, Hself6 by done. unfold notes.
    apply andb_prop in Hwa as [Hwa _]. apply andb_prop in Hbu as [Hbu _].
    rewrite (bool_decide_ext _ _ (omap_shape_nil raw_geometry _ Hwa)).
    rewrite (bool_decide_ext _ _ (omap_shape_nil b_geometry _ Hbu)).
    by rewrite <- (assoc_L (++)).
Qed.

End ConvertToRaster.

(** ** The order of the layers, and of the features of a layer *)

Section Layers.
Context `{GeoLib}.
Implicit Types (a : ndarray) (l : loc) (t : Affine).


Lemma composite_highest (codes : list (option Z)) k :
  composite (Some k :: codes) = k.
Proof. done. Qed.

Lemma composite_skip (codes : list (option Z)) :
  composite (None :: codes) = composite codes.
Proof.
  unfold composite. simpl.
  destruct (list_find is_Some codes) as [[i x]|]; done.
Qed.



Lemma loop_code_last t (pre post : list Feature) f r c k :
  paints t f r c = Some k →
  (∀ f', f' ∈ post → paints t f' r c = None) →
  loop_code t (pre ++ f :: post) r c = Some k.
Proof.
  intros Hf Hpost. unfold loop_code.
  assert (omap (λ ft, paints t ft r c) post = []) as Hnil.
  { induction post as [|p post IH]; simpl; [done|].
    rewrite (Hpost p) by left. apply IH. intros f' Hf'. apply Hpost. by right. }
  change (f :: post) with ([f] ++ post).
  rewrite !omap_app, Hnil, app_nil_r. simpl. rewrite Hf. apply last_snoc.
Qed.

Lemma loop_code_only t (fts : list Feature) f r c k :
  f ∈ fts → paints t f r c = Some k →
  (∀ f' k', f' ∈ fts → paints t f' r c = Some k' → f' = f) →
  loop_code t fts r c = Some k.
Proof.
  intros Hin Hf Honly. unfold loop_code.
  destruct (last (omap (λ ft, paints t ft r c) fts)) as [k'|] eqn:Hlast.
  - apply last_Some_elem_of, list_elem_of_omap in Hlast as (f' & Hf' & Hk').
    rewrite (Honly f' k' Hf' Hk') in Hk'. congruence.
  - apply last_None in Hlast.
    assert (k ∈ omap (λ ft, paints t ft r c) fts) as Hk.
    { apply list_elem_of_omap. by exists f. }
    rewrite Hlast in Hk. by apply not_elem_of_nil in Hk.
Qed.

(** C2. In the loop over the features of the terrain layer or of the road
    layer, of two features that write the same pixel the later in the list
    gives the pixel its value; and when no two features of the list write a
    common pixel, each pixel gets the code of the feature that covers it, in
    whatever order the features are listed. *)
Theorem within_layer_order t h w l a w0 (fts : list Feature) :
  heap w0 !! l = Some a → rect h w a → forallb feature_ok fts = true →
  returns (foldlM (LandCover.paint_feature t) l fts) w0 (λ l' w',
    ∃ a', heap w' !! l' = Some a'
      ∧ ∀ pre f1 mid f2 post r c k1 k2,
          fts = pre ++ f1 :: mid ++ f2 :: post →
          (r < h)%nat → (c < w)%nat →
          paints t f1 r c = Some k1 → paints t f2 r c = Some k2 →
          (∀ f, f ∈ post → paints t f r c = None) →
          cell a' r c = Some k2)
  ∧ ((∀ f f' r c k k', f ∈ fts → f' ∈ fts →
        paints t f r c = Some k → paints t f' r c = Some k' → f = f') →
     ∀ fts', fts' ≡ₚ fts →
       returns (foldlM (LandCover.paint_feature t) l fts') w0 (λ l' w',
         ∃ a', heap w' !! l' = Some a'
           ∧ ∀ f r c k, (r < h)%nat → (c < w)%nat →
               f ∈ fts → paints t f r c = Some k → cell a' r c = Some k)).
Proof.
  intros Hl Ha Hok. split.
  - eapply returns_mono; [by eapply paint_loop_run|].
    intros l' w' (a' & Hl' & _ & Hc & _). exists a'. split; [done|].
    intros pre f1 mid f2 post r c k1 k2 -> Hr Hcc _ Hf2 Hpost.
    rewrite (Hc r c Hr Hcc).
    replace (pre ++ f1 :: mid ++ f2 :: post) with ((pre ++ f1 :: mid) ++ f2 :: post)
      by by rewrite <- (assoc_L (++)).
    by rewrite (loop_code_last t _ post f2 r c k2).
  - intros Hdisjoint fts' Hperm.
    assert (forallb feature_ok fts' = true) as Hok'.
    { apply forallb_forall. intros f Hf. rewrite forallb_forall in Hok.
      apply Hok. by eapply Permutation_in. }
    eapply returns_mono; [by eapply paint_loop_run|].
    intros l' w' (a' & Hl' & _ & Hc & _). exists a'. split; [done|].
    intros f r c k Hr Hcc Hf Hk. rewrite (Hc r c Hr Hcc).
    rewrite (loop_code_only t fts' f r c k); [done| by rewrite Hperm |done|].
    intros f' k' Hf' Hk'. rewrite Hperm in Hf'. by eapply (Hdisjoint f' f).
Qed.

End Layers.

(** ** Errors and notes *)

Section Errors.
Context `{GeoLib}.
Implicit Types (l : loc) (t : Affine).

Lemma raises_bind_post {A B} (m : M A) (f : A → M B) w :
  (∀ a w', m w = inr (a, w') → raises (f a) w') → raises (m ≫= f) w.
Proof.
  intros Hf. unfold raises, mbind, M_bind.
  destruct (m w) as [e|[a w']] eqn:Hm; [by exists e|]. by apply Hf.
Qed.

Lemma foldlM_raises {A B} (f : A → B → M A) (xs : list B) x :
  x ∈ xs → (∀ a w, raises (f a x) w) → ∀ a w, raises (foldlM f a xs) w.
Proof.
  intros Hx Hf. induction xs as [|y xs IH]; intros a w; [by apply not_elem_of_nil in Hx|].
  simpl. apply elem_of_cons in Hx as [<-|Hx].
  - by apply raises_bind.
  - apply raises_bind_after. intros a' w'. by apply IH.
Qed.

Lemma forM_raises {A B} (f : A → M B) (xs : list A) x :
  x ∈ xs → (∀ w, raises (f x) w) → ∀ w, raises (forM f xs) w.
Proof.
  intros Hx Hf. induction xs as [|y xs IH]; intros w; [by apply not_elem_of_nil in Hx|].
  simpl. apply elem_of_cons in Hx as [<-|Hx].
  - by apply raises_bind.
  - apply raises_bind_after. intros b w'. apply raises_bind. by apply IH.
Qed.

Lemma paint_feature_raises t ft l w0 :
  shape (geometry ft) = None → raises (LandCover.paint_feature t l ft) w0.
Proof.
  intros Hg. exists ShapelyError.
  unfold LandCover.paint_feature, shapeM, mbind, M_bind. by rewrite Hg.
Qed.

Lemma water_branch_buildings (gs : list Geom) t l (self : LandCover.t) w0 ls w' :
  (if bool_decide (gs = [])
   then _ ← print "No valid water geometries found. Skipping water rasterization.";
        mret (l, self)
   else
     out_shape ← shape_of l;
     m ← geometry_mask gs t false out_shape;
     let self := LandCover.set_water_mask (Some m) self in
     array ← np_where m l 7;
     mret (array, self)) w0 = inr (ls, w') →
  LandCover.buildings ls.2 = LandCover.buildings self.
Proof.
  case_bool_decide.
  - intros [= <- _]. done.
  - unfold mbind, M_bind.
    destruct (shape_of l w0) as [e|[shp w1]]; [done|].
    destruct (geometry_mask gs t false shp w1) as [e|[m w2]]; [done|].
    destruct (np_where m l 7 w2) as [e|[l' w3]]; [done|].
    intros [= <- _]. done.
Qed.

Lemma convert_to_raster_raises (self : LandCover.t) w0 :
  has_malformed self → raises (LandCover.convert_to_raster self) w0.
Proof.
  intros Hbad. unfold LandCover.convert_to_raster.
  apply raises_bind_after. intros ds w1.
  apply raises_bind_after. intros l1 w2.
  apply raises_bind_after. intros _ w3.
  destruct Hbad as [(ft & Hin & Hg)|[(ft & Hin & Hg)|[(wat & Hin & Hg)|(b & Hin & Hg)]]].
  - apply raises_bind. eapply foldlM_raises; [done|].
    intros l w. by apply paint_feature_raises.
  - apply raises_bind_after. intros l2 w4.
    apply raises_bind. eapply foldlM_raises; [done|].
    intros l w. by apply paint_feature_raises.
  - apply raises_bind_after. intros l2 w4.
    apply raises_bind_after. intros l3 w5.
    apply raises_bind. eapply forM_raises; [done|].
    intros w. exists ShapelyError.
    unfold LandCover.water_geometry, shapeM, mbind, M_bind. by rewrite Hg.
  - apply raises_bind_after. intros l2 w4.
    apply raises_bind_after. intros l3 w5.
    apply raises_bind_after. intros wg w6.
    apply raises_bind_post. intros [l7 self7] w7 Hbranch.
    apply water_branch_buildings in Hbranch. simpl in Hbranch.
    apply raises_bind. eapply forM_raises; [simpl; by rewrite Hbranch|].
    intros w. exists ShapelyError. unfold shapeM. by rewrite Hg.
Qed.

End Errors.

Section ReferenceSystem.
Context `{GeoLib}.

Ltac run_step :=
  match goal with
  | |- context [match shape_of ?l ?w with _ => _ end] =>
      destruct (shape_of l w) as [?|[? ?]]; [done|]
  | |- context [match geometry_mask ?g ?t ?i ?s ?w with _ => _ end] =>
      destruct (geometry_mask g t i s w) as [?|[? ?]]; [done|]
  | |- context [match np_where ?m ?l ?k ?w with _ => _ end] =>
      destruct (np_where m l k w) as [?|[? ?]]; [done|]
  | |- context [match forM ?f ?xs ?w with _ => _ end] =>
      destruct (forM f xs w) as [?|[? ?]]; [done|]
  | |- context [match foldlM ?f ?x ?xs ?w with _ => _ end] =>
      destruct (foldlM f x xs w) as [?|[? ?]]; [done|]
  | |- context [match ndarray_fill ?l ?k ?w with _ => _ end] =>
      destruct (ndarray_fill l k w) as [?|[[] ?]]; [done|]
  end.

(** The rasterization reads neither the reference system of the object nor
    that of the dataset. *)
Lemma convert_to_raster_crs (self : LandCover.t) oc dc w0 :
  LandCover.convert_to_raster (set_crs oc dc self) w0
  = match LandCover.convert_to_raster self w0 with
    | inl e => inl e
    | inr ((l, s), w') => inr ((l, set_crs oc dc s), w')
    end.
Proof.
  unfold LandCover.convert_to_raster. simpl.
  destruct (LandCover.dtm_dataset self) as [ds|]; simpl; [|done].
  unfold mbind, M_bind. simpl.
  do 4 run_step.
  case_bool_decide; simpl.
  - run_step. case_bool_decide; simpl; [done|]. by do 3 run_step.
  - do 3 run_step. simpl. run_step. case_bool_decide; simpl; [done|]. by do 3 run_step.
Qed.

(** C5, as the code has it. No reference system is compared: the outcome of
    the rasterization, a grid or an exception, is the same whatever the
    reference systems of the object and of the dataset are. A geometry that
    cannot be parsed is not skipped: the exception leaves the call, and no
    grid is returned. *)
Theorem no_reference_check_no_skip (self : LandCover.t) w0 :
  (∀ oc dc,
     LandCover.convert_to_raster (set_crs oc dc self) w0
     = match LandCover.convert_to_raster self w0 with
       | inl e => inl e
       | inr ((l, s), w') => inr ((l, set_crs oc dc s), w')
       end)
  ∧ (has_malformed self → raises (LandCover.convert_to_raster self) w0).
Proof.
  split.
  - intros oc dc. apply convert_to_raster_crs.
  - apply convert_to_raster_raises.
Qed.


End ReferenceSystem.

(** ** Features without a classification *)

Section Unclassified.
Context `{GeoLib}.
Implicit Types (l : loc) (t : Affine).

Lemma foldlM_app {A B} (f : A → B → M A) (xs ys : list B) : ∀ a w,
  foldlM f a (xs ++ ys) w = (a' ← foldlM f a xs; foldlM f a' ys) w.
Proof.
  induction xs as [|x xs IH]; intros a w; simpl; [done|].
  unfold mbind, M_bind. destruct (f a x w) as [e|[a' w']]; [done|]. apply IH.
Qed.

Lemma paint_feature_unclassified t l (ft : Feature) w0 :
  is_Some (shape (geometry ft)) → properties ft !! "landuse" = None →
  LandCover.paint_feature t l ft w0 = inr (l, w0).
Proof.
  intros [g Hg] Hk. unfold LandCover.paint_feature, shapeM, mbind, M_bind.
  by rewrite Hg, Hk.
Qed.

Lemma paint_loop_unclassified t (pre post : list Feature) ft l w0 :
  is_Some (shape (geometry ft)) → properties ft !! "landuse" = None →
  foldlM (LandCover.paint_feature t) l (pre ++ ft :: post) w0
  = foldlM (LandCover.paint_feature t) l (pre ++ post) w0.
Proof.
  intros Hg Hk. rewrite !foldlM_app. unfold mbind, M_bind.
  destruct (foldlM _ l pre w0) as [e|[l' w']]; [done|]. simpl.
  unfold mbind, M_bind. by rewrite paint_feature_unclassified.
Qed.

(** C8. A terrain feature, or a road feature that is not hardened, whose
    type is not in the code table gets the value -1, which is neither NODATA
    nor one of the codes 0..8; the feature is kept without a ["landuse"], and
    the loop of the rasterization passes over it: the same array, the same
    world, and the loop over a list with the feature is the loop over the list
    without it. *)
Theorem lookup_miss_alters_nothing (isroad : bool) (main_road : Z)
    (table : gmap string Z) (feature : RawFeature) (acc : list Feature)
    (type : string) w0 :
  (∀ g, shape (mapping g) = Some g) →
  is_Some (shape (raw_geometry feature)) →
  LandCover.get_lower (raw_properties feature)
    (if isroad then "verhardingstype" else "typelandgebruik") w0 = inr (type, w0) →
  (isroad = true → type ≠ "verhard") →
  table !! type = None →
  default (-1) (table !! type) = -1 ∧ -1 ≠ NODATA ∧ ¬ (0 ≤ -1 ≤ 8)
  ∧ ∃ new,
      (if isroad then LandCover.road_step main_road table acc feature
       else LandCover.terrain_step table acc feature) w0 = inr (acc ++ new, w0)
      ∧ ∀ ft, ft ∈ new →
          properties ft !! "landuse" = None
          ∧ ∀ t l w,
              LandCover.paint_feature t l ft w = inr (l, w)
              ∧ ∀ pre post,
                  foldlM (LandCover.paint_feature t) l (pre ++ ft :: post) w
                  = foldlM (LandCover.paint_feature t) l (pre ++ post) w.
Proof.
  intros Hround [g Hg] Htype Hhard Hmiss.
  split; [by rewrite Hmiss|]. split; [done|]. split; [lia|].
  assert (∀ ft : Feature,
            ft = {| geometry := mapping g; properties := LandCover.new_properties (-1) |} →
            properties ft !! "landuse" = None
            ∧ ∀ t l w,
                LandCover.paint_feature t l ft w = inr (l, w)
                ∧ ∀ pre post,
                    foldlM (LandCover.paint_feature t) l (pre ++ ft :: post) w
                    = foldlM (LandCover.paint_feature t) l (pre ++ post) w) as Hnew.
  { intros ft ->. split; [done|]. intros t l w. split.
    - apply paint_feature_unclassified; simpl; [by rewrite Hround|done].
    - intros pre post. apply paint_loop_unclassified; simpl; [by rewrite Hround|done]. }
  destruct isroad.
  - unfold LandCover.road_step, shapeM, mbind, M_bind. rewrite Hg. simpl.
    rewrite Htype. specialize (Hhard eq_refl). apply String.eqb_neq in Hhard as ->.
    rewrite Hmiss. simpl. destruct (LandCover.is_polygonal g).
    + eexists [_]. split; [reflexivity|].
      intros ft ->%list_elem_of_singleton. by apply Hnew.
    + exists []. split; [by rewrite app_nil_r|]. intros ft []%not_elem_of_nil.
  - unfold LandCover.terrain_step, shapeM, mbind, M_bind. rewrite Hg. simpl.
    rewrite Htype, Hmiss. simpl. destruct (LandCover.is_polygonal g).
    + eexists [_]. split; [reflexivity|].
      intros ft ->%list_elem_of_singleton. by apply Hnew.
    + exists []. split; [by rewrite app_nil_r|]. intros ft []%not_elem_of_nil.
Qed.

End Unclassified.

(** ** Connected regions *)

Lemma elem_of_concat {A} (x : A) (ls : list (list A)) :
  x ∈ concat ls ↔ ∃ l, l ∈ ls ∧ x ∈ l.
Proof.
  induction ls as [|l ls IH]; simpl.
  - split; [by intros ?%not_elem_of_nil|]. by intros (l & ?%not_elem_of_nil & _).
  - rewrite elem_of_app, IH. split.
    + intros [Hx|(l' & Hl' & Hx)]; [exists l|exists l']; split; try done;
        [by left|by right].
    + intros (l' & [->|Hl']%elem_of_cons & Hx); [by left|right; by exists l'].
Qed.

Lemma NoDup_concat_unique {A} (ls : list (list A)) (R C : list A) x :
  NoDup (concat ls) → R ∈ ls → C ∈ ls → x ∈ R → x ∈ C → R = C.
Proof.
  induction ls as [|l ls IH]; simpl; [by intros _ ?%not_elem_of_nil|].
  intros (Hl & Hdisj & Hls)%NoDup_app [->|HR]%elem_of_cons [->|HC]%elem_of_cons HxR HxC.
  - done.
  - destruct (Hdisj x HxR). apply elem_of_concat. by exists C.
  - destruct (Hdisj x HxC). apply elem_of_concat. by exists R.
  - by apply IH.
Qed.

Section Regions.
Variable adj : pixel → pixel → bool.

Lemma touches_true v (D : list pixel) :
  touches adj v D = true ↔ ∃ d, d ∈ D ∧ adj v d = true.
Proof.
  unfold touches. rewrite existsb_exists.
  split; intros (d & Hd & Hadj); exists d; split; try done; by apply list_elem_of_In.
Qed.

Lemma add_cell_elem v (classes : list (list pixel)) X :
  X ∈ add_cell adj v classes
  ↔ X = concat (filter (λ D, touches adj v D = true) classes) ++ [v]
    ∨ (X ∈ classes ∧ touches adj v X = false).
Proof.
  induction classes as [|C rest IH].
  - simpl. rewrite list_elem_of_singleton. split; [by left|].
    intros [->|[?%not_elem_of_nil _]]; done.
  - simpl add_cell. destruct (touches adj v C) eqn:HC.
    + rewrite filter_cons_True by done. simpl concat.
      rewrite elem_of_cons, list_elem_of_filter, <- (assoc_L (++)).
      split.
      * intros [->|[Hnt HX]]; [by left|right]. split; [by right|done].
      * intros [->|[[->|HX]%elem_of_cons Hnt]]; [by left|congruence|right; done].
    + rewrite filter_cons_False by (rewrite HC; done).
      rewrite elem_of_cons, IH. split.
      * intros [->|[->|[HX Hnt]]]; [right; split; [by left|done]|by left|].
        right. split; [by right|done].
      * intros [->|[[->|HX]%elem_of_cons Hnt]]; [right; by left|by left|].
        right. right. done.
Qed.

Lemma concat_filter_split v (classes : list (list pixel)) :
  concat (filter (λ D, touches adj v D = true) classes)
    ++ concat (filter (λ D, touches adj v D = false) classes)
  ≡ₚ concat classes.
Proof.
  induction classes as [|C rest IH]; [done|].
  destruct (touches adj v C) eqn:HC.
  - rewrite filter_cons_True, (filter_cons_False (λ D, touches adj v D = false))
      by (rewrite ?HC; done).
    simpl. by rewrite <- (assoc_L (++)), IH.
  - rewrite filter_cons_False, (filter_cons_True (λ D, touches adj v D = false))
      by (rewrite ?HC; done).
    simpl. rewrite <- IH, !(assoc_L (++)). f_equiv. apply (comm (++)).
Qed.

Lemma add_cell_perm v (classes : list (list pixel)) :
  concat (add_cell adj v classes) ≡ₚ concat classes ++ [v].
Proof.
  induction classes as [|C rest IH]; [done|].
  simpl add_cell. destruct (touches adj v C) eqn:HC; simpl concat.
  - rewrite <- (concat_filter_split v rest), <- !(assoc_L (++)).
    do 2 f_equiv. apply (comm (++)).
  - by rewrite IH, (assoc_L (++)).
Qed.

Lemma regions_snoc (cells : list pixel) v :
  regions adj (cells ++ [v]) = add_cell adj v (regions adj cells).
Proof. unfold regions. by rewrite foldl_snoc. Qed.

Lemma regions_perm (cells : list pixel) : concat (regions adj cells) ≡ₚ cells.
Proof.
  induction cells as [|v cells IH] using rev_ind; [done|].
  by rewrite regions_snoc, add_cell_perm, IH.
Qed.

Lemma joined_mono (S S' : pixel → Prop) a b :
  (∀ p, S p → S' p) → joined adj S a b → joined adj S' a b.
Proof. intros HS. apply rtc_subrel. intros x y (? & ? & ?). split_and!; auto. Qed.

Hypothesis adj_sym : ∀ a b, adj a b = adj b a.

Lemma joined_sym (S : pixel → Prop) a b : joined adj S a b → joined adj S b a.
Proof.
  induction 1 as [|x y z (Hx & Hy & Hxy) _ IH]; [apply rtc_refl|].
  eapply rtc_r; [done|]. split_and!; try done. by rewrite adj_sym.
Qed.

Lemma add_cell_components (S : list pixel) v (classes : list (list pixel)) :
  components adj S classes → components adj (S ++ [v]) (add_cell adj v classes).
Proof.
  intros (Hperm & Hne & Hjoin & Hclosed).
  assert (∀ C p, C ∈ classes → p ∈ C → p ∈ S) as Hsub.
  { intros C p HC Hp. rewrite <- Hperm. apply elem_of_concat. by exists C. }
  assert (∀ a, a ∈ concat (filter (λ D, touches adj v D = true) classes) ++ [v] →
               joined adj (.∈ S ++ [v]) a v) as Htov.
  { intros a [Ha| ->%list_elem_of_singleton]%elem_of_app; [|apply rtc_refl].
    apply elem_of_concat in Ha as (D & [Ht HD]%list_elem_of_filter & Ha).
    apply touches_true in Ht as (d & Hd & Hvd).
    eapply rtc_r.
    - eapply joined_mono; [|by apply (Hjoin D a d)].
      intros p Hp. apply elem_of_app. by left.
    - split_and!; [apply elem_of_app; left; by eapply Hsub| |by rewrite adj_sym].
      apply elem_of_app. right. by apply list_elem_of_singleton. }
  split_and!.
  - by rewrite add_cell_perm, Hperm.
  - apply Forall_forall. intros X [->|[HX _]]%add_cell_elem.
    + intros Hnil. by apply app_eq_nil in Hnil as [_ ?].
    + rewrite Forall_forall in Hne. by apply Hne.
  - intros X a b [->|[HX _]]%add_cell_elem Ha Hb.
    + etrans; [by apply Htov|]. by apply joined_sym, Htov.
    + eapply joined_mono; [|by apply (Hjoin X)].
      intros p Hp. apply elem_of_app. by left.
  - assert (∀ b, b ∈ S → adj v b = true →
              b ∈ concat (filter (λ D, touches adj v D = true) classes) ++ [v]) as Hnear.
    { intros b Hb Hvb. apply elem_of_app. left.
      rewrite <- Hperm in Hb. apply elem_of_concat in Hb as (D & HD & Hb).
      apply elem_of_concat. exists D. split; [|done].
      apply list_elem_of_filter. split; [|done]. apply touches_true. by exists b. }
    assert (v ∈ concat (filter (λ D, touches adj v D = true) classes) ++ [v]) as Hv.
    { apply elem_of_app. right. by apply list_elem_of_singleton. }
    intros a b [Ha| ->%list_elem_of_singleton]%elem_of_app
                [Hb| ->%list_elem_of_singleton]%elem_of_app Hab.
    + destruct (Hclosed a b Ha Hb Hab) as (C & HC & HaC & HbC).
      destruct (touches adj v C) eqn:Ht.
      * eexists. split; [apply add_cell_elem; by left|].
        split; apply elem_of_app; left; apply elem_of_concat; exists C;
          (split; [by apply list_elem_of_filter|done]).
      * exists C. split; [apply add_cell_elem; by right|done].
    + eexists. split; [apply add_cell_elem; by left|]. split; [|done].
      apply Hnear; [done|by rewrite adj_sym].
    + eexists. split; [apply add_cell_elem; by left|]. split; [done|].
      by apply Hnear.
    + eexists. split; [apply add_cell_elem; by left|]. done.
Qed.

(** The regions of the labelling are the connected components. *)
Lemma regions_components (cells : list pixel) :
  components adj cells (regions adj cells).
Proof.
  induction cells as [|v cells IH] using rev_ind.
  - split_and!; [done|by apply Forall_nil| |].
    + by intros C a b ?%not_elem_of_nil.
    + by intros a b ?%not_elem_of_nil.
  - rewrite regions_snoc. by apply add_cell_components.
Qed.

Lemma components_same_class (S : list pixel) (classes : list (list pixel)) R a b :
  components adj S classes → NoDup S →
  R ∈ classes → a ∈ R → (b ∈ R ↔ joined adj (.∈ S) a b).
Proof.
  intros (Hperm & _ & Hjoin & Hclosed) Hnodup HR Ha. split.
  - intros Hb. by apply (Hjoin R).
  - intros Hab. induction Hab as [|x y z (Hx & Hy & Hxy) _ IH]; [done|].
    apply IH. destruct (Hclosed x y Hx Hy Hxy) as (C & HC & HxC & HyC).
    assert (R = C) as ->; [|done].
    eapply (NoDup_concat_unique classes); [by rewrite Hperm|done..].
Qed.

End Regions.

(** ** The pixels of a mask *)

Section Masks.
Implicit Types (m : boolarray) (p : pixel).

Lemma array_shape_fmap {A B} (g : A → B) (a : list (list A)) :
  array_shape ((λ row : list A, g <$> row) <$> a) = array_shape a.
Proof.
  unfold array_shape. rewrite length_fmap. f_equal.
  destruct a as [|row a]; simpl; [done|]. by rewrite length_fmap.
Qed.

Lemma cell_fmap {A B} (g : A → B) (a : list (list A)) r c :
  cell ((λ row : list A, g <$> row) <$> a) r c = g <$> cell a r c.
Proof.
  unfold cell. rewrite list_lookup_fmap.
  destruct (a !! r) as [row|]; simpl; [|done]. by rewrite list_lookup_fmap.
Qed.

Lemma array_shape_tabulate2 {A B} (a : list (list A)) (f : nat → nat → B) :
  array_shape (tabulate2 (array_shape a) f) = array_shape a.
Proof.
  destruct a as [|row a]; [done|].
  unfold array_shape, tabulate2. simpl. by rewrite !length_fmap, !length_seq.
Qed.

Lemma is_on_in_range h w m p :
  rect h w m → is_on m p → (p.1 < (array_shape m).1)%nat ∧ (p.2 < (array_shape m).2)%nat.
Proof.
  intros Hrect Hon. unfold is_on, cell in Hon.
  destruct (m !! p.1) as [row|] eqn:Hrow; simpl in Hon; [|done].
  assert (p.1 < h)%nat as Hr.
  { destruct Hrect as [<- _]. by eapply lookup_lt_Some. }
  rewrite (array_shape_rect h w m) by (done || lia). simpl. split; [done|].
  destruct Hrect as [_ Hrows]. rewrite Forall_forall in Hrows.
  rewrite <- (Hrows row) by by eapply list_elem_of_lookup_2.
  by eapply lookup_lt_Some.
Qed.

Lemma elem_of_cells_where m p :
  p ∈ cells_where m
  ↔ is_on m p ∧ (p.1 < (array_shape m).1)%nat ∧ (p.2 < (array_shape m).2)%nat.
Proof.
  unfold cells_where. rewrite list_elem_of_filter. unfold is_on.
  apply and_iff_compat_l.
  rewrite list_elem_of_bind. split.
  - intros (r & (c & ->%list_elem_of_singleton & Hc%elem_of_seq)%list_elem_of_bind
              & Hr%elem_of_seq). simpl in *. lia.
  - intros [Hr Hc]. exists p.1. split; [|apply elem_of_seq; lia].
    apply list_elem_of_bind. exists p.2. split; [|apply elem_of_seq; lia].
    apply list_elem_of_singleton. by destruct p.
Qed.

Lemma elem_of_cells_where_rect h w m p :
  rect h w m → p ∈ cells_where m ↔ is_on m p.
Proof.
  intros Hrect. rewrite elem_of_cells_where. split; [by intros [? _]|].
  intros Hon. split; [done|]. by eapply is_on_in_range.
Qed.

Lemma NoDup_cells_where m : NoDup (cells_where m).
Proof.
  unfold cells_where. apply NoDup_filter, NoDup_bind; [| |apply NoDup_seq].
  - intros r1 r2 p _ _ (c1 & ->%list_elem_of_singleton & _)%list_elem_of_bind
                       (c2 & [= <- _]%list_elem_of_singleton & _)%list_elem_of_bind.
    done.
  - intros r _. apply NoDup_bind; [| |apply NoDup_seq].
    + by intros c1 c2 p _ _ ->%list_elem_of_singleton [= <-]%list_elem_of_singleton.
    + intros c _. apply NoDup_singleton.
Qed.

Lemma filter_ext_in {A} (P Q : A → Prop) `{!∀ x, Decision (P x), !∀ x, Decision (Q x)}
    (l : list A) :
  (∀ x, x ∈ l → P x ↔ Q x) → filter P l = filter Q l.
Proof.
  induction l as [|x l IH]; intros HPQ; [done|].
  rewrite !filter_cons.
  rewrite IH by (intros y Hy; apply HPQ; by right).
  destruct (decide (P x)) as [HP|HP], (decide (Q x)) as [HQ|HQ]; try done.
  - destruct HQ. by apply (HPQ x); [left|].
  - destruct HP. by apply (HPQ x); [left|].
Qed.

Lemma cells_where_ext m1 m2 :
  array_shape m1 = array_shape m2 →
  (∀ p, (p.1 < (array_shape m1).1)%nat → (p.2 < (array_shape m1).2)%nat →
        is_on m1 p ↔ is_on m2 p) →
  cells_where m1 = cells_where m2.
Proof.
  intros Hshape Hon. unfold cells_where. rewrite <- Hshape.
  apply filter_ext_in. intros p Hp. apply Hon.
  - apply list_elem_of_bind in Hp as (r & (c & ->%list_elem_of_singleton & _)%list_elem_of_bind
                                        & Hr%elem_of_seq). simpl in *. lia.
  - apply list_elem_of_bind in Hp as (r & (c & ->%list_elem_of_singleton & Hc%elem_of_seq)%list_elem_of_bind
                                        & _). simpl in *. lia.
Qed.

End Masks.

(** ** Labelling and vectorizing *)

Lemma adjacent4_sym a b : adjacent4 a b = adjacent4 b a.
Proof.
  apply Bool.eq_iff_eq_true. unfold adjacent4.
  rewrite !orb_true_iff, !andb_true_iff, !orb_true_iff, !Nat.eqb_eq. lia.
Qed.

Lemma list_find_ext_in {A} (P Q : A → Prop) `{!∀ x, Decision (P x), !∀ x, Decision (Q x)}
    (l : list A) :
  (∀ x, x ∈ l → P x ↔ Q x) → list_find P l = list_find Q l.
Proof.
  induction l as [|x l IH]; intros HPQ; [done|]. csimpl.
  rewrite IH by (intros y Hy; apply HPQ; by right).
  destruct (decide (P x)) as [HP|HP], (decide (Q x)) as [HQ|HQ]; try done.
  - destruct HQ. by apply (HPQ x); [left|].
  - destruct HP. by apply (HPQ x); [left|].
Qed.

Lemma label_of_pos (regs : list (list pixel)) p :
  0 < label_of regs p ↔ ∃ R, R ∈ regs ∧ p ∈ R.
Proof.
  unfold label_of. destruct (list_find _ regs) as [[i R]|] eqn:Hfind.
  - apply list_find_Some in Hfind as (Hi & Hp & _). split; [|lia].
    intros _. exists R. split; [by eapply list_elem_of_lookup_2|done].
  - apply list_find_None in Hfind. rewrite Forall_forall in Hfind.
    split; [lia|]. intros (R & HR & Hp). by destruct (Hfind R HR).
Qed.

Lemma label_of_same (regs : list (list pixel)) a b :
  (∀ R, R ∈ regs → a ∈ R ↔ b ∈ R) → label_of regs a = label_of regs b.
Proof. intros Hab. unfold label_of. by rewrite (list_find_ext_in _ (λ R, b ∈ R)). Qed.

Lemma touches_ext (adj1 adj2 : pixel → pixel → bool) v (D : list pixel) :
  (∀ d, d ∈ D → adj1 v d = adj2 v d) → touches adj1 v D = touches adj2 v D.
Proof.
  unfold touches. induction D as [|d D IH]; intros Hd; simpl; [done|].
  rewrite (Hd d) by left. f_equal. apply IH. intros d' Hd'. apply Hd. by right.
Qed.

Lemma add_cell_ext (adj1 adj2 : pixel → pixel → bool) v (classes : list (list pixel)) :
  (∀ D d, D ∈ classes → d ∈ D → adj1 v d = adj2 v d) →
  add_cell adj1 v classes = add_cell adj2 v classes.
Proof.
  induction classes as [|C rest IH]; intros Hext; [done|]. simpl.
  rewrite (touches_ext adj1 adj2 v C) by (intros d Hd; apply (Hext C); [by left|done]).
  assert (∀ D, D ∈ rest → touches adj1 v D = touches adj2 v D) as Hrest.
  { intros D HD. apply touches_ext. intros d Hd. apply (Hext D); [by right|done]. }
  rewrite (filter_ext_in (λ D, touches adj1 v D = true) (λ D, touches adj2 v D = true))
    by (intros D HD; by rewrite Hrest).
  rewrite (filter_ext_in (λ D, touches adj1 v D = false) (λ D, touches adj2 v D = false))
    by (intros D HD; by rewrite Hrest).
  rewrite IH; [done|]. intros D d HD. apply Hext. by right.
Qed.

Lemma regions_ext (adj1 adj2 : pixel → pixel → bool) (cells : list pixel) :
  (∀ a b, a ∈ cells → b ∈ cells → adj1 a b = adj2 a b) →
  regions adj1 cells = regions adj2 cells.
Proof.
  induction cells as [|v cells IH] using rev_ind; intros Hext; [done|].
  rewrite !regions_snoc.
  rewrite <- IH by (intros a b Ha Hb; apply Hext; apply elem_of_app; by left).
  apply add_cell_ext. intros D d HD Hd. apply Hext.
  - apply elem_of_app. right. by left.
  - apply elem_of_app. left. rewrite <- (regions_perm adj1 cells).
    apply elem_of_concat. by exists D.
Qed.

Section Labelling.
Context `{GeoLib}.

(** The regions [shapes] finds in the labelled array, cast to 8 bits and
    masked by its positive labels, are those [label] numbered: two of them
    never share an edge, so that equal values after the cast join nothing. *)
Lemma shapes_of_label (m : boolarray) (transform : Affine) :
  let labeled := (label m).1 in
  fst <$> shapes (astype_uint8 labeled) (greater_than labeled 0) transform
  = (λ R, mapping (polygonize transform R)) <$> regions adjacent4 (cells_where m).
Proof.
  intros labeled. unfold shapes. rewrite <- list_fmap_compose.
  set (regs := regions adjacent4 (cells_where m)).
  assert (∀ p, p ∈ cells_where m →
            cell labeled p.1 p.2 = Some (label_of regs p)) as Hcell.
  { intros [r c] (_ & Hr & Hc)%elem_of_cells_where.
    by apply (cell_tabulate2 _ (λ r c, label_of regs (r, c))). }
  assert (cells_where (greater_than labeled 0) = cells_where m) as ->.
  { apply cells_where_ext.
    - unfold greater_than. rewrite array_shape_fmap. apply array_shape_tabulate2.
    - unfold greater_than at 1 2. rewrite array_shape_fmap.
      replace (array_shape labeled) with (array_shape m)
        by (symmetry; apply array_shape_tabulate2).
      intros [r c] Hr Hc. cbn [fst snd] in Hr, Hc.
      unfold is_on at 1. unfold greater_than. rewrite cell_fmap. cbn [fst snd].
      unfold labeled, label. cbn [fst].
      rewrite (cell_tabulate2 _ (λ r c, label_of regs (r, c))) by done.
      cbn [fmap option_fmap option_map]. split.
      + intros [= Hpos%bool_decide_eq_true].
        apply label_of_pos in Hpos as (R & HR & Hp).
        assert ((r, c) ∈ cells_where m) as Hin.
        { rewrite <- (regions_perm adjacent4). apply elem_of_concat. by exists R. }
        by apply elem_of_cells_where in Hin as [? _].
      + intros Hon. f_equal. apply bool_decide_eq_true.
        apply label_of_pos.
        assert ((r, c) ∈ concat regs) as (R & HR & Hp)%elem_of_concat.
        { unfold regs. rewrite regions_perm. by apply elem_of_cells_where. }
        by exists R. }
  assert (regions
            (λ a b, adjacent4 a b
               && (default 0 (cell (astype_uint8 labeled) a.1 a.2)
                   =? default 0 (cell (astype_uint8 labeled) b.1 b.2)))
            (cells_where m) = regs) as ->; [|done].
  apply regions_ext. intros a b Ha Hb.
  destruct (adjacent4 a b) eqn:Hab; [|done]. simpl.
  apply Z.eqb_eq. unfold astype_uint8. rewrite !cell_fmap, !Hcell by done. simpl.
  f_equal. apply label_of_same. intros R HR.
  pose proof (regions_components adjacent4 adjacent4_sym (cells_where m)) as Hcomp.
  split; intros Hin.
  - eapply (components_same_class adjacent4); [done|apply NoDup_cells_where|done..|].
    apply rtc_once. done.
  - eapply (components_same_class adjacent4); [done|apply NoDup_cells_where|done..|].
    apply rtc_once. split_and!; [done..|]. by rewrite adjacent4_sym.
Qed.

Lemma new_building_run (gv : GeoJSON * Z) g w0 :
  shape gv.1 = Some g →
  Buildings.new_building gv w0
  = inr ({| b_geometry := mapping g;
            parcel_id := String.substring 0 8 (uuid_stream w0 (drawn w0)) |},
         set_drawn (S (drawn w0)) w0).
Proof.
  intros Hg. unfold Buildings.new_building, shapeM, uuid4, mbind, M_bind. by rewrite Hg.
Qed.

Lemma forM_new_building (transform : Affine) (gvs : list (GeoJSON * Z))
    (regs : list (list pixel)) : ∀ w0,
  (∀ g, shape (mapping g) = Some g) →
  fst <$> gvs = (λ R, mapping (polygonize transform R)) <$> regs →
  forM Buildings.new_building gvs w0
  = inr (imap (blob_of transform w0) regs, set_drawn (drawn w0 + length regs) w0).
Proof.
  intros w0 Hround. revert regs w0.
  induction gvs as [|gv gvs IH]; intros [|R regs] w0 Heq; try done.
  - simpl. unfold mret, M_ret. do 2 f_equal. destruct w0. unfold set_drawn. simpl.
    f_equal. lia.
  - injection Heq as HR Hrest. simpl forM. unfold mbind, M_bind.
    rewrite (new_building_run gv (polygonize transform R)) by by rewrite HR.
    rewrite (IH regs _ Hrest). rewrite imap_cons. unfold mret, M_ret.
    f_equal. f_equal; [f_equal|].
    + unfold blob_of. by rewrite Nat.add_0_r.
    + apply imap_ext. intros i R' _. unfold blob_of. simpl. do 3 f_equal. lia.
    + destruct w0. unfold set_drawn. simpl. f_equal. lia.
Qed.

(** The blobs of an array: one for each connected region of its positive
    pixels, with the identifiers drawn in turn. *)
Lemma extract_blobs_run (heights : ndarray) (transform : Affine) w0 :
  (∀ g, shape (mapping g) = Some g) →
  let regs := regions adjacent4 (cells_where (greater_than heights 0)) in
  Buildings.extract_blobs heights transform w0
  = inr (imap (blob_of transform w0) regs, set_drawn (drawn w0 + length regs) w0).
Proof.
  intros Hround regs. unfold Buildings.extract_blobs.
  destruct (label (greater_than heights 0)) as [labeled n] eqn:Hlabel.
  apply forM_new_building; [done|].
  pose proof (shapes_of_label (greater_than heights 0) transform) as Hshapes.
  rewrite Hlabel in Hshapes. apply Hshapes.
Qed.

End Labelling.

(** ** Extraction and matching of the buildings *)

Lemma rect_fmap {A B} (g : A → B) h w (a : list (list A)) :
  rect h w a → rect h w ((λ row : list A, g <$> row) <$> a).
Proof.
  intros [Hl Hrows]. split; [by rewrite length_fmap|].
  apply Forall_fmap. eapply Forall_impl; [done|]. intros row Hrow. simpl.
  by rewrite length_fmap.
Qed.

Section Matching.
Context `{GeoLib}.
Implicit Types (t : Affine).

Hypothesis shape_mapping : ∀ g, shape (mapping g) = Some g.

(** C9. The blobs of the extraction are one polygon, with an identifier, for
    each maximal region of positive pixels joined across edges: every positive
    pixel is in one region and no other pixel is in any, no region is empty,
    two pixels are in one region exactly when a path of positive pixels joins
    them, each step across an edge; and an array without a positive pixel gives
    an empty list, not an error. *)
Theorem blobs_are_components (self : Buildings.t) (highest_array : ndarray) t h w w0 :
  rect h w highest_array →
  let mask := greater_than highest_array 0 in
  ∃ regs,
    Buildings.insert_user_buildings self highest_array t None w0
    = inr (Buildings.Self (Buildings.building_geometries self)
             (Buildings.removed_buildings self)
             (imap (blob_of t w0) regs) [] [] false,
           set_drawn (drawn w0 + length regs) w0)
    ∧ (∀ p, (∃ R, R ∈ regs ∧ p ∈ R) ↔ is_on mask p)
    ∧ NoDup (concat regs)
    ∧ Forall (λ R, R ≠ []) regs
    ∧ (∀ R a b, R ∈ regs → a ∈ R → (b ∈ R ↔ connected4 mask a b))
    ∧ ((∀ p, ¬ is_on mask p) → regs = []).
Proof.
  intros Hrect mask.
  assert (rect h w mask) as Hmask by by apply rect_fmap.
  set (regs := regions adjacent4 (cells_where mask)).
  pose proof (regions_components adjacent4 adjacent4_sym (cells_where mask)) as Hcomp.
  assert (∀ p, (∃ R, R ∈ regs ∧ p ∈ R) ↔ is_on mask p) as Hcover.
  { intros p. rewrite <- elem_of_concat. unfold regs. rewrite regions_perm.
    by apply elem_of_cells_where_rect with h w. }
  exists regs. split_and!.
  - unfold Buildings.insert_user_buildings, mbind, M_bind.
    by rewrite extract_blobs_run.
  - done.
  - unfold regs. rewrite regions_perm. apply NoDup_cells_where.
  - by destruct Hcomp as (_ & ? & _).
  - intros R a b HR Ha.
    rewrite (components_same_class adjacent4 (cells_where mask) regs R a b
               Hcomp (NoDup_cells_where mask) HR Ha).
    unfold connected4.
    split; apply joined_mono; intros p; by apply elem_of_cells_where_rect with h w.
  - intros Hoff. destruct regs as [|R regs'] eqn:Hregs; [done|].
    destruct Hcomp as (_ & Hne & _). unfold regs in Hregs. rewrite Hregs in Hne.
    apply Forall_cons in Hne as [HR _]. destruct R as [|p R]; [done|].
    destruct (Hoff p). apply Hcover. exists (p :: R). split; by left.
Qed.

Lemma blob_shape t w (i : nat) (R : list pixel) :
  shape (b_geometry (blob_of t w i R)) = Some (polygonize t R).
Proof. apply shape_mapping. Qed.

Lemma build_index_run (highest_buildings : list Building) w0 :
  Forall (λ b, is_Some (shape (b_geometry b))) highest_buildings →
  Buildings.build_index highest_buildings w0
  = inr (imap (λ i b, (i, from_option bounds (BBox 0%Q 0%Q 0%Q 0%Q) (shape (b_geometry b))))
           highest_buildings, w0).
Proof.
  intros Hall. unfold Buildings.build_index.
  assert (∀ (pairs : list (nat * Building)) acc,
    Forall (λ ib, is_Some (shape (b_geometry ib.2))) pairs →
    foldlM (λ rtree_index (ib : nat * Building),
              geom ← shapeM (b_geometry ib.2);
              mret (rtree_insert rtree_index ib.1 (bounds geom))) acc pairs w0
    = inr (acc ++ ((λ ib, (ib.1, from_option bounds (BBox 0%Q 0%Q 0%Q 0%Q)
                                    (shape (b_geometry ib.2)))) <$> pairs), w0)) as Hgen.
  { induction pairs as [|[i b] pairs IH]; intros acc Hpairs; simpl.
    - by rewrite app_nil_r.
    - apply Forall_cons in Hpairs as [[g Hg] Hpairs]. simpl in Hg.
      unfold mbind, M_bind, shapeM. rewrite Hg. simpl.
      rewrite (IH _ Hpairs). unfold rtree_insert. by rewrite <- (assoc_L (++)). }
  rewrite Hgen.
  - simpl. do 2 f_equal. rewrite fmap_imap. done.
  - apply Forall_forall. intros [i b] (j & Hj)%list_elem_of_lookup.
    rewrite list_lookup_imap in Hj. destruct (highest_buildings !! j) as [b'|] eqn:Hb; [|done].
    injection Hj as <- <-. simpl. rewrite Forall_forall in Hall.
    apply Hall. by eapply list_elem_of_lookup_2.
Qed.

Hypothesis intersects_sym : ∀ a b, intersects a b = intersects b a.
Hypothesis within_intersects : ∀ a b, within a b = true → intersects a b = true.

Lemma relation_of_the_code (footprint_geom highest_geom : Geom) :
  intersects footprint_geom highest_geom || within footprint_geom highest_geom
  = candidate_related footprint_geom highest_geom.
Proof.
  unfold candidate_related.
  destruct (within footprint_geom highest_geom) eqn:Hw1,
           (within highest_geom footprint_geom) eqn:Hw2;
    rewrite ?(within_intersects _ _ Hw1), ?(within_intersects _ _ Hw2),
            ?orb_true_r, ?orb_false_r; try done.
  - apply within_intersects in Hw1.
    by rewrite (intersects_sym highest_geom footprint_geom), Hw1.
  - apply within_intersects in Hw2.
    by rewrite (intersects_sym footprint_geom highest_geom), Hw2.
Qed.

Lemma match_candidates_run (footprint_geom : Geom) (highest_buildings : list Building)
    (footprint_building : Building) (possible_matches : list nat) w0 :
  (∀ idx, idx ∈ possible_matches →
     ∃ b, highest_buildings !! idx = Some b ∧ is_Some (shape (b_geometry b))) →
  ∃ x,
    Buildings.match_candidates footprint_geom highest_buildings footprint_building
      possible_matches w0 = inr (x, w0)
    ∧ b_geometry x = b_geometry footprint_building
    ∧ Some (parcel_id x)
      = match list_find
                (λ idx, from_option (candidate_related footprint_geom) false
                          (highest_buildings !! idx ≫= λ hb, shape (b_geometry hb)) = true)
                possible_matches with
        | Some (_, idx) => parcel_id <$> highest_buildings !! idx
        | None => Some (parcel_id footprint_building)
        end.
Proof.
  induction possible_matches as [|idx rest IH]; intros Hin.
  - by exists footprint_building.
  - destruct (Hin idx) as (b & Hb & g & Hg); [by left|].
    simpl Buildings.match_candidates. unfold mbind, M_bind, shapeM. rewrite Hb. simpl.
    rewrite Hg. simpl. rewrite relation_of_the_code. csimpl.
    rewrite Hb. simpl. rewrite Hg. simpl.
    destruct (candidate_related footprint_geom g) eqn:Hrel.
    + rewrite decide_True by done. rewrite Hb. eexists. split; [reflexivity|]. done.
    + rewrite decide_False by done.
      destruct IH as (x & Hrun & Hgeom & Hid); [intros i Hi; apply Hin; by right|].
      exists x. split; [done|]. split; [done|]. rewrite Hid.
      by destruct (list_find _ rest) as [[i idx']|].
Qed.

Hypothesis rtree_order_perm : ∀ entries, rtree_order entries ≡ₚ entries.

Lemma match_footprint_run (highest_buildings : list Building)
    (footprint_building : Building) w0 :
  Forall (λ b, is_Some (shape (b_geometry b))) highest_buildings →
  is_Some (shape (b_geometry footprint_building)) →
  ∃ x,
    Buildings.match_footprint
      (imap (λ i b, (i, from_option bounds (BBox 0%Q 0%Q 0%Q 0%Q) (shape (b_geometry b))))
         highest_buildings)
      highest_buildings footprint_building w0 = inr (x, w0)
    ∧ b_geometry x = b_geometry footprint_building
    ∧ Some (parcel_id x) = spec_match highest_buildings footprint_building.
Proof.
  intros Hall [fg Hfg]. unfold Buildings.match_footprint, spec_match, mbind, M_bind, shapeM.
  rewrite Hfg. simpl. apply match_candidates_run.
  intros idx Hidx. unfold rtree_intersection in Hidx.
  apply list_elem_of_fmap in Hidx as ([i bb] & -> & [_ Hentry]%list_elem_of_filter).
  rewrite rtree_order_perm in Hentry.
  apply list_elem_of_lookup in Hentry as (j & Hj). rewrite list_lookup_imap in Hj.
  destruct (highest_buildings !! j) as [b|] eqn:Hb; [|done].
  injection Hj as <- _. simpl. exists b. split; [done|].
  rewrite Forall_forall in Hall. apply Hall. by eapply list_elem_of_lookup_2.
Qed.

Lemma forM_Forall2 {A B} (f : A → M B) (R : A → B → Prop) (xs : list A) w0 :
  Forall (λ x, ∃ y, f x w0 = inr (y, w0) ∧ R x y) xs →
  ∃ ys, forM f xs w0 = inr (ys, w0) ∧ Forall2 R xs ys.
Proof.
  induction 1 as [|x xs (y & Hy & HR) _ (ys & Hys & HRs)].
  - by exists [].
  - exists (y :: ys). split; [|by constructor].
    simpl. unfold mbind, M_bind. by rewrite Hy, Hys.
Qed.

Lemma blobs_parse t w (regs : list (list pixel)) :
  Forall (λ b, is_Some (shape (b_geometry b))) (imap (blob_of t w) regs).
Proof.
  apply Forall_forall. intros b (i & Hi)%list_elem_of_lookup.
  rewrite list_lookup_imap in Hi. destruct (regs !! i) as [R|]; [|done].
  injection Hi as <-. rewrite blob_shape. by eexists.
Qed.

(** The call with a footprint array: both extractions, the index, and the
    match of each footprint blob. *)
Lemma match_run (self : Buildings.t) (highest_array footprint_array : ndarray) t w0 :
  ∃ highest_buildings w1 footprint_buildings w2 matched,
    Buildings.extract_blobs highest_array t w0 = inr (highest_buildings, w1)
    ∧ Buildings.extract_blobs footprint_array t w1 = inr (footprint_buildings, w2)
    ∧ Buildings.insert_user_buildings self highest_array t (Some footprint_array) w0
      = inr (Buildings.Self (Buildings.building_geometries self)
               (Buildings.removed_buildings self) matched highest_buildings [] true, w2)
    ∧ Forall2 (λ fb x, b_geometry x = b_geometry fb
                       ∧ Some (parcel_id x) = spec_match highest_buildings fb)
        footprint_buildings matched.
Proof.
  destruct (forM_Forall2
    (Buildings.match_footprint
       (imap (λ i b, (i, from_option bounds (BBox 0%Q 0%Q 0%Q 0%Q) (shape (b_geometry b))))
          (imap (blob_of t w0)
             (regions adjacent4 (cells_where (greater_than highest_array 0)))))
       (imap (blob_of t w0)
          (regions adjacent4 (cells_where (greater_than highest_array 0)))))
    (λ fb x, b_geometry x = b_geometry fb
             ∧ Some (parcel_id x)
               = spec_match (imap (blob_of t w0)
                   (regions adjacent4 (cells_where (greater_than highest_array 0)))) fb)
    (imap (blob_of t (set_drawn (drawn w0 + length
             (regions adjacent4 (cells_where (greater_than highest_array 0)))) w0))
       (regions adjacent4 (cells_where (greater_than footprint_array 0))))
    (set_drawn (drawn (set_drawn (drawn w0 + length
             (regions adjacent4 (cells_where (greater_than highest_array 0)))) w0)
        + length (regions adjacent4 (cells_where (greater_than footprint_array 0))))
       (set_drawn (drawn w0 + length
             (regions adjacent4 (cells_where (greater_than highest_array 0)))) w0)))
    as (matched & Hmatched & Hall).
  { eapply Forall_impl; [apply blobs_parse|]. intros fb Hfb.
    apply match_footprint_run; [apply blobs_parse|done]. }
  eexists _, _, _, _, matched.
  split; [by apply extract_blobs_run|].
  split; [by apply extract_blobs_run|]. split; [|exact Hall].
  unfold Buildings.insert_user_buildings, mbind, M_bind.
  rewrite extract_blobs_run by done.
  rewrite build_index_run by apply blobs_parse.
  rewrite extract_blobs_run by done.
  rewrite Hmatched. reflexivity.
Qed.


(** C4. Each footprint blob gets the identifier of the first candidate that
    the query of the index returns and whose geometry intersects the geometry
    of the footprint or lies within it, and keeps its own identifier when there
    is no such candidate; the geometries of the footprint blobs and the highest
    blobs are those of the extraction. *)
Theorem footprint_match (self : Buildings.t) (highest_array footprint_array : ndarray)
    t w0 :
  ∃ highest_buildings w1 footprint_buildings w2 self',
    Buildings.extract_blobs highest_array t w0 = inr (highest_buildings, w1)
    ∧ Buildings.extract_blobs footprint_array t w1 = inr (footprint_buildings, w2)
    ∧ Buildings.insert_user_buildings self highest_array t (Some footprint_array) w0
      = inr (self', w2)
    ∧ Buildings.user_buildings_higher self' = highest_buildings
    ∧ Forall2 (λ fb x, b_geometry x = b_geometry fb
                       ∧ Some (parcel_id x) = spec_match highest_buildings fb)
        footprint_buildings (Buildings.user_buildings self').
Proof.
  destruct (match_run self highest_array footprint_array t w0)
    as (hb & w1 & fb & w2 & matched & Hhb & Hfb & Hrun & Hall).
  eexists hb, w1, fb, w2, _. split; [done|]. split; [done|]. split; [exact Hrun|].
  split; [done|]. exact Hall.
Qed.

Lemma remove_user_buildings_loop (ids : list string) : ∀ (self : Buildings.t) w0,
  ∃ self1,
    foldlM Buildings.remove_user_buildings self ids w0 = inr (self1, w0)
    ∧ Buildings.building_geometries self1 = Buildings.building_geometries self
    ∧ Buildings.removed_buildings self1 = Buildings.removed_buildings self
    ∧ Buildings.removed_user_buildings self1 = Buildings.removed_user_buildings self ++ ids.
Proof.
  induction ids as [|id ids IH]; intros self w0.
  - exists self. by rewrite app_nil_r.
  - destruct (IH (Buildings.Self (Buildings.building_geometries self)
                    (Buildings.removed_buildings self) (Buildings.user_buildings self)
                    (Buildings.user_buildings_higher self)
                    (Buildings.removed_user_buildings self ++ [id])
                    (Buildings.is3D self)) w0) as (self1 & Hrun & Hbg & Hrb & Hrub).
    exists self1. split; [exact Hrun|]. split; [done|]. split; [done|].
    rewrite Hrub. simpl. by rewrite <- (assoc_L (++)).
Qed.

Lemma insert_user_buildings_frame (s1 s2 : Buildings.t) (highest_array : ndarray) t
    (footprint_array : option ndarray) w0 :
  Buildings.building_geometries s1 = Buildings.building_geometries s2 →
  Buildings.removed_buildings s1 = Buildings.removed_buildings s2 →
  Buildings.insert_user_buildings s1 highest_array t footprint_array w0
  = Buildings.insert_user_buildings s2 highest_array t footprint_array w0.
Proof. intros Hbg Hrb. unfold Buildings.insert_user_buildings. by rewrite Hbg, Hrb. Qed.

(** C10. Whatever identifiers [remove_user_buildings] recorded before, a
    call of [insert_user_buildings] returns an object whose list of removed
    user buildings is empty, whose list of higher blobs is empty too when no
    footprint array is given, and which is the object the call returns when
    nothing was recorded. *)
Theorem insert_discards_removals (self : Buildings.t) (ids : list string)
    (highest_array : ndarray) t (footprint_array : option ndarray) w0 :
  ∃ self' w',
    (self1 ← foldlM Buildings.remove_user_buildings self ids;
     Buildings.insert_user_buildings self1 highest_array t footprint_array) w0
    = inr (self', w')
    ∧ Buildings.removed_user_buildings self' = []
    ∧ (footprint_array = None → Buildings.user_buildings_higher self' = [])
    ∧ Buildings.insert_user_buildings self highest_array t footprint_array w0
      = inr (self', w').
Proof.
  destruct (remove_user_buildings_loop ids self w0) as (self1 & Hloop & Hbg & Hrb & _).
  unfold mbind at 1, M_bind at 1. rewrite Hloop.
  rewrite (insert_user_buildings_frame self1 self) by done.
  destruct footprint_array as [footprint_array|].
  - destruct (match_run self highest_array footprint_array t w0)
      as (hb & w1 & fb & w2 & matched & _ & _ & Hrun & _).
    eexists _, _. split; [exact Hrun|]. split; [done|]. split; [done|]. exact Hrun.
  - assert (∃ blobs w',
              Buildings.insert_user_buildings self highest_array t None w0
              = inr (Buildings.Self (Buildings.building_geometries self)
                       (Buildings.removed_buildings self) blobs [] [] false, w'))
      as (blobs & w' & Hrun).
    { eexists _, _. unfold Buildings.insert_user_buildings, mbind, M_bind.
      rewrite extract_blobs_run by done. reflexivity. }
    eexists _, _. split; [exact Hrun|]. split; [done|]. split; [done|]. exact Hrun.
Qed.

End Matching.

(** ** The arrays the object keeps *)

Section Snapshots.
Context `{GeoLib}.

(** After [__init__] the attributes [og_landcover] and [array] are one
    reference, and [landcover_withoutbuild] is None. *)
Lemma init_aliases (a : LandCover.init_args) w0 (self : LandCover.t) w' :
  LandCover.init a w0 = inr (self, w') →
  LandCover.og_landcover self = LandCover.array self
  ∧ is_Some (LandCover.array self)
  ∧ LandCover.landcover_withoutbuild self = None.
Proof.
  unfold LandCover.init, mbind, M_bind.
  destruct (LandCover.dtm_dataset_prep _ _ w0) as [e|[dtm w1]]; [done|].
  destruct (LandCover.load_landcover_mapping _ w1) as [e|[table w2]]; [done|].
  destruct (LandCover.get_features _ w2) as [e|[self2 w3]]; [done|].
  destruct (LandCover.convert_to_raster self2 w3) as [e|[[l self3] w4]]; [done|].
  intros [= <- <-]. simpl. split; [done|]. split; [by eexists|done].
Qed.

(** [update_landcover] writes into the array [array] refers to, whatever
    other attribute refers to it. *)
Lemma update_landcover_in_place (self : LandCover.t) (land_type : Z)
    (input_array a : ndarray) l w0 :
  LandCover.array self = Some l → heap w0 !! l = Some a →
  length <$> greater_than input_array (-1) = length <$> a →
  LandCover.update_landcover self land_type input_array w0
  = inr (self, set_heap (<[l := assign_values (greater_than input_array (-1)) a land_type]>
                           (heap w0)) w0).
Proof.
  intros Harr Hl Hshape. unfold LandCover.update_landcover, mbind, M_bind, deref, store.
  rewrite Harr. simpl. rewrite Hl. by rewrite bool_decide_eq_true_2.
Qed.

Lemma forM_shape_world {X} (proj : X → GeoJSON) (xs : list X) w0 ys w' :
  forM (λ x, shapeM (proj x)) xs w0 = inr (ys, w') → w' = w0.
Proof.
  revert ys. induction xs as [|x xs IH]; intros ys; simpl; [by intros [= _ <-]|].
  unfold mbind, M_bind, shapeM.
  destruct (shape (proj x)) as [g|]; simpl; [|done].
  destruct (forM _ xs w0) as [e|[gs w1]] eqn:Hxs; [done|].
  intros [= _ <-]. by eapply IH.
Qed.

(** [update_build_landcover] allocates: the arrays of the heap, that of
    [og_landcover] among them, keep their values. *)
Lemma update_build_landcover_keeps (self : LandCover.t) (new_building_data : list Building)
    w0 (self' : LandCover.t) w' :
  LandCover.update_build_landcover self new_building_data w0 = inr (self', w') →
  LandCover.og_landcover self' = LandCover.og_landcover self
  ∧ ∀ l a, heap w0 !! l = Some a → heap w' !! l = Some a.
Proof.
  unfold LandCover.update_build_landcover. unfold mbind at 1, M_bind at 1.
  destruct (forM _ new_building_data w0) as [e|[gs w1]] eqn:Hgs; [done|].
  apply (forM_shape_world b_geometry) in Hgs as ->.
  case_bool_decide.
  - intros [= <- <-]. done.
  - unfold shape_of, np_where, deref, alloc, mbind, M_bind.
    destruct (LandCover.transform self) as [t|]; simpl; [|done].
    destruct (LandCover.array self) as [l0|]; simpl; [|done].
    destruct (heap w0 !! l0) as [a0|] eqn:Hl0; simpl; [|done].
    destruct (geometry_mask gs t false (array_shape a0) w0) as [e|[m w2]] eqn:Hm; [done|].
    assert (heap w2 = heap w0) as Hheap.
    { revert Hm. unfold geometry_mask, mbind, M_bind.
      destruct (skip_warnings_run gs 0 w0) as (w3 & -> & Hh & _).
      case_bool_decide; [done|]. by intros [= _ <-]. }
    rewrite Hheap, Hl0. intros [= <- <-]. simpl. split; [done|].
    intros l a Hl. rewrite Hheap. by apply lookup_app_l_Some.
Qed.

End Snapshots.

(** C7, on an object over one pixel. After [__init__], [og_landcover] refers
    to the array [array] refers to, which holds NODATA, and
    [landcover_withoutbuild] is None; [update_landcover] with the code 5 then
    writes 5 into that array: the array of [og_landcover] no longer holds the
    value it held. *)
Theorem og_landcover_overwritten :
  ∃ self w1 w2 l,
    LandCover.init (H := Toy.lib) Toy.one_pixel_args Toy.world0 = inr (self, w1)
    ∧ LandCover.og_landcover self = Some l
    ∧ LandCover.array self = Some l
    ∧ LandCover.landcover_withoutbuild self = None
    ∧ heap w1 !! l = Some [[-9999]]
    ∧ LandCover.update_landcover self 5 [[0]] w1 = inr (self, w2)
    ∧ heap w2 !! l = Some [[5]].
Proof.
  eexists _, _, _, _. split; [vm_compute; reflexivity|].
  split; [reflexivity|]. split; [reflexivity|]. split; [reflexivity|].
  split; [reflexivity|]. split; [vm_compute; reflexivity|]. reflexivity.
Qed.

(** ** Examples on the small instance *)

Lemma toy_shape_mapping (g : @Geom Toy.lib) : @shape Toy.lib (@mapping Toy.lib g) = Some g.
Proof. reflexivity. Qed.

Lemma toy_intersects_sym (a b : @Geom Toy.lib) :
  @intersects Toy.lib a b = @intersects Toy.lib b a.
Proof.
  apply Bool.eq_iff_eq_true. simpl. unfold Toy.share_pixel.
  rewrite !existsb_exists.
  split; intros (p & Hp & Hq%bool_decide_eq_true); exists p;
    (split; [by apply list_elem_of_In|apply bool_decide_eq_true; by apply list_elem_of_In]).
Qed.

Lemma toy_within_intersects (a b : @Geom Toy.lib) :
  @within Toy.lib a b = true → @intersects Toy.lib a b = true.
Proof.
  simpl. unfold Toy.inside, Toy.share_pixel.
  intros [Hne Hall]%andb_prop. destruct (a.2) as [|p ps]; [done|].
  simpl in *. by apply andb_prop in Hall as [-> _].
Qed.

Lemma toy_rtree_order_perm (entries : list (nat * BoundingBox)) :
  @rtree_order Toy.lib entries ≡ₚ entries.
Proof. simpl. symmetry. apply Permutation_rev. Qed.


Lemma within_layer_order_witness :
  heap Toy.world1 !! 0%nat = Some [[-9999; -9999]; [-9999; -9999]]
  ∧ rect 2 2 [[-9999; -9999]; [-9999; -9999]]
  ∧ forallb feature_ok Toy.overlapping_terrain = true
  ∧ returns (foldlM (LandCover.paint_feature Toy.identity) 0%nat Toy.overlapping_terrain) Toy.world1
      (λ l' w',
        ∃ a', heap w' !! l' = Some a'
          ∧ ∀ pre f1 mid f2 post r c k1 k2,
              Toy.overlapping_terrain = pre ++ f1 :: mid ++ f2 :: post →
              (r < 2)%nat → (c < 2)%nat →
              paints Toy.identity f1 r c = Some k1 → paints Toy.identity f2 r c = Some k2 →
              (∀ f, f ∈ post → paints Toy.identity f r c = None) →
              cell a' r c = Some k2).
Proof.
  assert (rect 2 2 [[-9999; -9999]; [-9999; -9999]]) as Hrect.
  { split; [reflexivity|]. repeat constructor. }
  split; [reflexivity|]. split; [exact Hrect|]. split; [vm_compute; reflexivity|].
  apply (within_layer_order (H := Toy.lib) Toy.identity 2 2 0%nat
           [[-9999; -9999]; [-9999; -9999]]
           Toy.world1 Toy.overlapping_terrain);
    [reflexivity|exact Hrect|vm_compute; reflexivity].
Defined.


(** Against C5 as it is worded: the reference system of the object is not
    that of the dataset and the call returns a grid; and one building with a
    mapping that cannot be parsed, next to a well-formed one, makes the whole
    call raise. *)
Lemma reference_mismatch_and_malformed :
  LandCover.crs Toy.mismatch ≠ "EPSG:28992"
  ∧ (LandCover.dtm_dataset Toy.mismatch = Some (Toy.dataset 2 2 "EPSG:28992")
     ∧ ∃ l self' w', LandCover.convert_to_raster Toy.mismatch Toy.world0 = inr (l, self', w')
         ∧ heap w' !! l = Some [[5; -9999]; [-9999; -9999]])
  ∧ LandCover.convert_to_raster Toy.one_malformed Toy.world0 = inl ShapelyError.
Proof.
  split; [done|]. split; [|vm_compute; reflexivity].
  split; [reflexivity|]. eexists _, _, _. split; [vm_compute; reflexivity|reflexivity].
Qed.

Lemma no_reference_check_no_skip_witness :
  has_malformed Toy.one_malformed
  ∧ raises (LandCover.convert_to_raster Toy.one_malformed) Toy.world0.
Proof.
  assert (has_malformed Toy.one_malformed) as Hbad.
  { right. right. right. exists (Toy.building None "0363100087654321").
    split; [|reflexivity]. right. left. }
  split; [exact Hbad|].
  exact (proj2 (no_reference_check_no_skip Toy.one_malformed Toy.world0) Hbad).
Defined.



Lemma lookup_miss_alters_nothing_witness :
  (∀ g : @Geom Toy.lib, @shape Toy.lib (@mapping Toy.lib g) = Some g)
  ∧ is_Some (@shape Toy.lib (raw_geometry Toy.unknown_terrain))
  ∧ LandCover.get_lower (raw_properties Toy.unknown_terrain) "typelandgebruik" Toy.world0
    = inr ("bos: loofbos", Toy.world0)
  ∧ ({[ "grasland" := 5 ]} : gmap string Z) !! "bos: loofbos" = None
  ∧ ∃ new,
      LandCover.terrain_step {[ "grasland" := 5 ]} [] Toy.unknown_terrain Toy.world0
      = inr ([] ++ new, Toy.world0)
      ∧ ∀ ft, ft ∈ new → properties ft !! "landuse" = None.
Proof.
  assert (is_Some (@shape Toy.lib (raw_geometry Toy.unknown_terrain))) as Hparsed
    by (eexists; reflexivity).
  assert (LandCover.get_lower (raw_properties Toy.unknown_terrain) "typelandgebruik"
            Toy.world0 = inr ("bos: loofbos", Toy.world0)) as Htype
    by (vm_compute; reflexivity).
  assert (({[ "grasland" := 5 ]} : gmap string Z) !! "bos: loofbos" = None) as Hmiss
    by (vm_compute; reflexivity).
  split; [exact toy_shape_mapping|]. split; [exact Hparsed|]. split; [exact Htype|].
  split; [exact Hmiss|].
  destruct (lookup_miss_alters_nothing (H := Toy.lib) false 0 {[ "grasland" := 5 ]}
              Toy.unknown_terrain [] "bos: loofbos" Toy.world0
              toy_shape_mapping Hparsed Htype (λ Hroad, False_ind _ (Bool.diff_false_true Hroad))
              Hmiss)
    as (_ & _ & _ & new & Hstep & Hnew).
  exists new. split; [exact Hstep|]. intros ft Hft. exact (proj1 (Hnew ft Hft)).
Defined.

Lemma footprint_match_witness :
  (∀ g : @Geom Toy.lib, @shape Toy.lib (@mapping Toy.lib g) = Some g)
  ∧ (∀ a b : @Geom Toy.lib, @intersects Toy.lib a b = @intersects Toy.lib b a)
  ∧ (∀ a b : @Geom Toy.lib, @within Toy.lib a b = true → @intersects Toy.lib a b = true)
  ∧ (∀ entries, @rtree_order Toy.lib entries ≡ₚ entries)
  ∧ ∃ highest_buildings w1 footprint_buildings w2 self',
      Buildings.extract_blobs Toy.highest_heights Toy.identity Toy.world0 = inr (highest_buildings, w1)
      ∧ Buildings.extract_blobs Toy.footprint_heights Toy.identity w1 = inr (footprint_buildings, w2)
      ∧ Buildings.insert_user_buildings Toy.buildings0 Toy.highest_heights Toy.identity
          (Some Toy.footprint_heights) Toy.world0 = inr (self', w2)
      ∧ Buildings.user_buildings_higher self' = highest_buildings
      ∧ Forall2 (λ fb x, b_geometry x = b_geometry fb
                         ∧ Some (parcel_id x) = spec_match highest_buildings fb)
          footprint_buildings (Buildings.user_buildings self').
Proof.
  split; [exact toy_shape_mapping|]. split; [exact toy_intersects_sym|].
  split; [exact toy_within_intersects|]. split; [exact toy_rtree_order_perm|].
  exact (footprint_match (H := Toy.lib) toy_shape_mapping toy_intersects_sym
           toy_within_intersects toy_rtree_order_perm
           Toy.buildings0 Toy.highest_heights Toy.footprint_heights Toy.identity Toy.world0).
Defined.

Lemma blobs_are_components_witness :
  (∀ g : @Geom Toy.lib, @shape Toy.lib (@mapping Toy.lib g) = Some g)
  ∧ rect 2 2 Toy.highest_heights
  ∧ ∃ regs,
      Buildings.insert_user_buildings Toy.buildings0 Toy.highest_heights Toy.identity None Toy.world0
      = inr (Buildings.Self None [] (imap (blob_of Toy.identity Toy.world0) regs) [] [] false,
             set_drawn (drawn Toy.world0 + length regs) Toy.world0)
      ∧ (∀ p, (∃ R, R ∈ regs ∧ p ∈ R) ↔ is_on (greater_than Toy.highest_heights 0) p)
      ∧ NoDup (concat regs)
      ∧ Forall (λ R, R ≠ []) regs
      ∧ (∀ R a b, R ∈ regs → a ∈ R →
           (b ∈ R ↔ connected4 (greater_than Toy.highest_heights 0) a b))
      ∧ ((∀ p, ¬ is_on (greater_than Toy.highest_heights 0) p) → regs = []).
Proof.
  assert (rect 2 2 Toy.highest_heights) as Hrect.
  { split; [reflexivity|]. repeat constructor. }
  split; [exact toy_shape_mapping|]. split; [exact Hrect|].
  exact (blobs_are_components (H := Toy.lib) toy_shape_mapping Toy.buildings0
           Toy.highest_heights Toy.identity 2 2 Toy.world0 Hrect).
Defined.

Lemma insert_discards_removals_witness :
  (∀ g : @Geom Toy.lib, @shape Toy.lib (@mapping Toy.lib g) = Some g)
  ∧ (∀ a b : @Geom Toy.lib, @intersects Toy.lib a b = @intersects Toy.lib b a)
  ∧ (∀ a b : @Geom Toy.lib, @within Toy.lib a b = true → @intersects Toy.lib a b = true)
  ∧ (∀ entries, @rtree_order Toy.lib entries ≡ₚ entries)
  ∧ ∃ self' w',
      (self1 ← foldlM Buildings.remove_user_buildings Toy.buildings0 ["0a1b2c3d"; "1b2c3d4e"];
       Buildings.insert_user_buildings self1 Toy.highest_heights Toy.identity
         (Some Toy.footprint_heights)) Toy.world0 = inr (self', w')
      ∧ Buildings.removed_user_buildings self' = []
      ∧ (Some Toy.footprint_heights = None → Buildings.user_buildings_higher self' = [])
      ∧ Buildings.insert_user_buildings Toy.buildings0 Toy.highest_heights Toy.identity
          (Some Toy.footprint_heights) Toy.world0 = inr (self', w').
Proof.
  split; [exact toy_shape_mapping|]. split; [exact toy_intersects_sym|].
  split; [exact toy_within_intersects|]. split; [exact toy_rtree_order_perm|].
  exact (insert_discards_removals (H := Toy.lib) toy_shape_mapping toy_intersects_sym
           toy_within_intersects toy_rtree_order_perm
           Toy.buildings0 ["0a1b2c3d"; "1b2c3d4e"] Toy.highest_heights Toy.identity
           (Some Toy.footprint_heights) Toy.world0).
Defined.

(** The grid of the four layers: the later terrain feature wins on (0, 0)
    inside its layer, the road overwrites it, the building is written last. *)
Example four_layers_grid :
  ∃ l self' w',
    LandCover.convert_to_raster Toy.four_layers Toy.world0 = inr (l, self', w')
    ∧ heap w' !! l = Some [[1; 7]; [2; 6]]
    ∧ stdout w' = [].
Proof. eexists _, _, _. split; [vm_compute; reflexivity|]. by split. Qed.

(** Two pixels that touch at a corner are two regions. *)
Example diagonal_pixels_two_regions :
  regions adjacent4 (cells_where (greater_than Toy.highest_heights 0))
  = [[(0, 0)]; [(1, 1)]]%nat.
Proof. vm_compute. reflexivity. Qed.

(** The footprint blob takes the identifier of the highest blob it meets. *)
Example footprint_takes_identifier :
  ∃ self' w',
    Buildings.insert_user_buildings Toy.buildings0 Toy.highest_heights Toy.identity
      (Some Toy.footprint_heights) Toy.world0 = inr (self', w')
    ∧ parcel_id <$> Buildings.user_buildings_higher self' = ["0a1b2c3d"; "1b2c3d4e"]
    ∧ parcel_id <$> Buildings.user_buildings self' = ["0a1b2c3d"]
    ∧ Buildings.is3D self' = true.
Proof. eexists _, _. split; [vm_compute; reflexivity|]. by split_and!. Qed.

(** A footprint blob that meets no highest blob keeps the identifier drawn
    for it. *)
Example footprint_keeps_identifier :
  ∃ self' w',
    Buildings.insert_user_buildings Toy.buildings0 [[3; 0; 0]] Toy.identity
      (Some [[0; 0; 1]]) Toy.world0 = inr (self', w')
    ∧ parcel_id <$> Buildings.user_buildings_higher self' = ["0a1b2c3d"]
    ∧ parcel_id <$> Buildings.user_buildings self' = ["1b2c3d4e"].
Proof. eexists _, _. split; [vm_compute; reflexivity|]. by split_and!. Qed.

(** * Further properties of the code *)

(** ** The grid of the rasterization *)

Lemma rect_ext {A} h w (a b : list (list A)) :
  rect h w a → rect h w b →
  (∀ r c, (r < h)%nat → (c < w)%nat → cell a r c = cell b r c) → a = b.
Proof.
  intros [Hla Hra] [Hlb Hrb] Hcells. apply list_eq. intros r.
  destruct (decide (r < h)%nat) as [Hr|Hr].
  - destruct (lookup_lt_is_Some_2 a r) as [ra Ha]; [lia|].
    destruct (lookup_lt_is_Some_2 b r) as [rb Hb]; [lia|].
    rewrite Ha, Hb. f_equal. apply list_eq. intros c.
    rewrite Forall_forall in Hra. rewrite Forall_forall in Hrb.
    pose proof (Hra ra (list_elem_of_lookup_2 _ _ _ Ha)) as Hwa.
    pose proof (Hrb rb (list_elem_of_lookup_2 _ _ _ Hb)) as Hwb.
    destruct (decide (c < w)%nat) as [Hc|Hc].
    + specialize (Hcells r c Hr Hc). unfold cell in Hcells.
      by rewrite Ha, Hb in Hcells.
    + by rewrite !lookup_ge_None_2 by lia.
  - by rewrite !lookup_ge_None_2 by lia.
Qed.

Lemma cell_in_range {A} h w (a : list (list A)) r c x :
  rect h w a → cell a r c = Some x → (r < h)%nat ∧ (c < w)%nat.
Proof.
  intros [Hl Hrows] Hcell. unfold cell in Hcell.
  destruct (a !! r) as [row|] eqn:Hrow; simpl in Hcell; [|done].
  split; [rewrite <- Hl; by eapply lookup_lt_Some|].
  rewrite Forall_forall in Hrows.
  rewrite <- (Hrows row) by by eapply list_elem_of_lookup_2.
  by eapply lookup_lt_Some.
Qed.

Section Grid.
Context `{GeoLib}.
Implicit Types (l : loc) (t : Affine).

Lemma loop_code_source t (fts : list Feature) r c k :
  loop_code t fts r c = Some k →
  ∃ ft, ft ∈ fts ∧ properties ft !! "landuse" = Some k.
Proof.
  unfold loop_code. intros (ft & Hft & Hk)%last_Some_elem_of%list_elem_of_omap.
  exists ft. split; [done|]. unfold paints in Hk.
  destruct (shape (geometry ft)) as [g|]; simpl in Hk; [|done].
  destruct (properties ft !! "landuse") as [k'|]; simpl in Hk; [|done].
  destruct (covered [g] t r c); congruence.
Qed.

(** X1. When the codes of the terrain and road features are among 0..8,
    every cell of the grid of the rasterization is NODATA or one of 0..8. *)
Theorem grid_values_in_range (self : LandCover.t) ds w0 :
  LandCover.dtm_dataset self = Some ds → rasterizable self = true →
  (∀ ft k, ft ∈ LandCover.terrains self ++ LandCover.roads self →
           properties ft !! "landuse" = Some k → 0 ≤ k ≤ 8) →
  returns (LandCover.convert_to_raster self) w0 (λ ls w',
    ∃ a, heap w' !! ls.1 = Some a
      ∧ rect (ds_height ds) (ds_width ds) a
      ∧ ∀ r c x, cell a r c = Some x → x = NODATA ∨ 0 ≤ x ≤ 8).
Proof.
  intros Hds Hok Hcodes.
  eapply returns_mono; [by apply convert_to_raster_run|].
  intros ls w' (a & Hl & Ha & Hc & _). exists a. split; [done|]. split; [done|].
  intros r c x Hx. destruct (cell_in_range _ _ a r c x Ha Hx) as [Hr Hcc].
  rewrite (Hc r c Hr Hcc) in Hx. injection Hx as <-.
  unfold layer_code, mask_code.
  destruct (covered (omap shape (b_geometry <$> _)) _ r c); [right; by compute|].
  rewrite composite_skip.
  destruct (covered (omap shape (raw_geometry <$> _)) _ r c); [right; by compute|].
  rewrite composite_skip.
  destruct (loop_code _ (LandCover.roads self) r c) as [k|] eqn:Hro.
  { right. rewrite composite_highest.
    apply loop_code_source in Hro as (ft & Hft & Hk).
    apply (Hcodes ft k); [apply elem_of_app; by right|done]. }
  rewrite composite_skip.
  destruct (loop_code _ (LandCover.terrains self) r c) as [k|] eqn:Hte.
  { right. rewrite composite_highest.
    apply loop_code_source in Hte as (ft & Hft & Hk).
    apply (Hcodes ft k); [apply elem_of_app; by left|done]. }
  by left.
Qed.

(** X2. The heights of the dataset are never read into the grid: two
    objects with the same features over datasets of the same size and
    transform get the same grid, whatever the rasters of the datasets, their
    reference systems and the worlds hold. *)
Theorem grid_ignores_heights (self1 self2 : LandCover.t) ds1 ds2 w1 w2 :
  LandCover.dtm_dataset self1 = Some ds1 → LandCover.dtm_dataset self2 = Some ds2 →
  rasterizable self1 = true →
  ds_height ds1 = ds_height ds2 → ds_width ds1 = ds_width ds2 →
  ds_transform ds1 = ds_transform ds2 →
  LandCover.terrains self1 = LandCover.terrains self2 →
  LandCover.roads self1 = LandCover.roads self2 →
  LandCover.water self1 = LandCover.water self2 →
  LandCover.buildings self1 = LandCover.buildings self2 →
  returns (LandCover.convert_to_raster self1) w1 (λ ls1 w1',
    returns (LandCover.convert_to_raster self2) w2 (λ ls2 w2',
      ∃ a, heap w1' !! ls1.1 = Some a ∧ heap w2' !! ls2.1 = Some a)).
Proof.
  intros Hds1 Hds2 Hok1 Hh Hw Ht Hte Hro Hwa Hbu.
  assert (rasterizable self2 = true) as Hok2.
  { revert Hok1. unfold rasterizable. rewrite Hds1, Hds2, Hte, Hro, Hwa, Hbu.
    by rewrite !bool_decide_eq_true_2 by by eexists. }
  eapply returns_mono; [by apply convert_to_raster_run|].
  intros ls1 w1' (a1 & Hl1 & Ha1 & Hc1 & _).
  eapply returns_mono; [by apply convert_to_raster_run|].
  intros ls2 w2' (a2 & Hl2 & Ha2 & Hc2 & _).
  exists a1. split; [done|]. rewrite Hl2. f_equal.
  apply (rect_ext (ds_height ds1) (ds_width ds1)); [by rewrite Hh, Hw|done|].
  intros r c Hr Hc. rewrite (Hc1 r c Hr Hc), (Hc2 r c) by lia.
  unfold layer_code. by rewrite Ht, Hte, Hro, Hwa, Hbu.
Qed.

End Grid.

(** ** What the rasterization leaves in the object *)

Section Attributes.
Context `{GeoLib}.
Implicit Types (l : loc) (t : Affine).

Lemma mask_branch_exact (setter : option boolarray → LandCover.t → LandCover.t)
    (note : string) (gs : list Geom) t k l a h w (self : LandCover.t) w0 :
  heap w0 !! l = Some a → rect h w a →
  gs = [] ∨ filter (λ g, is_valid_geom g = true) gs ≠ [] →
  returns
    (if bool_decide (gs = [])
     then _ ← print note; mret (l, self)
     else
       out_shape ← shape_of l;
       m ← geometry_mask gs t false out_shape;
       let self := setter (Some m) self in
       array ← np_where m l k;
       mret (array, self)) w0
    (λ ls w',
       (gs = [] ∧ ls = (l, self) ∧ heap w' = heap w0)
       ∨ (gs ≠ [] ∧ ∃ a',
            ls = (length (heap w0),
                  setter (Some (tabulate2 (array_shape a)
                                  (λ r c, negb (covered gs t r c)))) self)
            ∧ heap w' = heap w0 ++ [a'] ∧ rect h w a'
            ∧ ∀ r c, (r < h)%nat → (c < w)%nat →
                cell a' r c = if covered gs t r c then Some k else cell a r c)).
Proof.
  intros Hl Ha Hgs. case_bool_decide as Hnil.
  - eexists (l, self), _. split; [reflexivity|]. left. by split_and!.
  - destruct Hgs as [?|Hvalid]; [done|].
    destruct (mask_and_where_run gs t k l a h w w0 Hl Ha Hvalid)
      as (w' & a' & Hrun & Hh & Ha' & Hc & Ho).
    eexists (length (heap w0), _), w'. split.
    + revert Hrun. unfold mbind, M_bind, mret, M_ret. simpl.
      destruct (shape_of l w0) as [e|[shp w1]]; [done|].
      destruct (geometry_mask _ _ _ _ w1) as [e|[m w2]]; [done|].
      destruct (np_where m l k w2) as [e|[l' w3]]; [done|].
      intros Heq. injection Heq as -> -> ->. reflexivity.
    + right. split; [done|]. exists a'. by split_and!.
Qed.

(** X3. After the rasterization the object holds the transform of the
    dataset and its lists of features as they were; [landcover_withoutbuild]
    refers to an array of the heap that is the grid of the terrain, road and
    water layers, and it is the array returned exactly when there is no
    building; the water and building masks are set when their layer is not
    empty, false exactly where the layer writes. *)
Theorem convert_to_raster_attributes (self : LandCover.t) ds w0 :
  LandCover.dtm_dataset self = Some ds → rasterizable self = true →
  returns (LandCover.convert_to_raster self) w0 (λ ls w',
    LandCover.transform ls.2 = Some (ds_transform ds)
    ∧ LandCover.terrains ls.2 = LandCover.terrains self
    ∧ LandCover.roads ls.2 = LandCover.roads self
    ∧ LandCover.water ls.2 = LandCover.water self
    ∧ LandCover.buildings ls.2 = LandCover.buildings self
    ∧ (∃ snapshot a,
         LandCover.landcover_withoutbuild ls.2 = Some snapshot
         ∧ heap w' !! snapshot = Some a
         ∧ (∀ r c, (r < ds_height ds)%nat → (c < ds_width ds)%nat →
              cell a r c = Some (composite
                [layer_code self (ds_transform ds) Water r c;
                 layer_code self (ds_transform ds) Road r c;
                 layer_code self (ds_transform ds) Terrain r c]))
         ∧ (snapshot = ls.1 ↔ LandCover.buildings self = []))
    ∧ (LandCover.water self ≠ [] →
       ∃ m, LandCover.water_mask ls.2 = Some m
         ∧ ∀ r c, (r < ds_height ds)%nat → (c < ds_width ds)%nat →
             cell m r c
             = Some (bool_decide (layer_code self (ds_transform ds) Water r c = None)))
    ∧ (LandCover.buildings self ≠ [] →
       ∃ m, LandCover.building_mask ls.2 = Some m
         ∧ ∀ r c, (r < ds_height ds)%nat → (c < ds_width ds)%nat →
             cell m r c
             = Some (bool_decide
                       (layer_code self (ds_transform ds) BuildingLayer r c = None)))).
Proof.
  intros Hds Hok. unfold rasterizable in Hok.
  apply andb_prop in Hok as [Hok Hbu]. apply andb_prop in Hok as [Hok Hwa].
  apply andb_prop in Hok as [Hok Hro]. apply andb_prop in Hok as [_ Hte].
  pose proof Hwa as [Hwa_parse _]%andb_prop. pose proof Hbu as [Hbu_parse _]%andb_prop.
  unfold LandCover.convert_to_raster. rewrite Hds.
  eapply returns_bind_eq; [reflexivity|].
  eapply returns_bind; [apply ds_read_run|]. intros l0 w1 (-> & Hh1 & Ho1).
  assert (heap w1 !! length (heap w0)
          = Some (tabulate2 (ds_height ds, ds_width ds) (ds_band ds))) as Hl0.
  { by rewrite Hh1, lookup_app_r, Nat.sub_diag. }
  eapply returns_bind.
  { eapply ndarray_fill_run; [done|apply rect_tabulate2]. }
  intros _ w2 (a0 & Hl2 & Ha0 & Hc0 & _ & Ho2).
  eapply returns_bind; [by eapply paint_loop_run|].
  intros l3 w3 (a1 & Hl3 & Ha1 & Hc1 & Ho3).
  eapply returns_bind; [by eapply paint_loop_run|].
  intros l4 w4 (a2 & Hl4 & Ha2 & Hc2 & Ho4).
  eapply returns_bind_eq.
  { by apply (forM_shape raw_geometry); [apply water_geometry_shape|]. }
  eapply returns_bind.
  { eapply (mask_branch_exact LandCover.set_water_mask); [done..|].
    by apply mask_ok_valid. }
  intros [l6 self6] w6 Hwater.
  assert (∃ a3, heap w6 !! l6 = Some a3
            ∧ rect (ds_height ds) (ds_width ds) a3
            ∧ (∀ r c, (r < ds_height ds)%nat → (c < ds_width ds)%nat →
                 cell a3 r c = Some (composite
                   [layer_code self (ds_transform ds) Water r c;
                    layer_code self (ds_transform ds) Road r c;
                    layer_code self (ds_transform ds) Terrain r c]))
            ∧ LandCover.buildings self6 = LandCover.buildings self
            ∧ LandCover.terrains self6 = LandCover.terrains self
            ∧ LandCover.roads self6 = LandCover.roads self
            ∧ LandCover.water self6 = LandCover.water self
            ∧ LandCover.transform self6 = Some (ds_transform ds)
            ∧ LandCover.building_mask self6 = LandCover.building_mask self
            ∧ (LandCover.water self ≠ [] →
               ∃ m, LandCover.water_mask self6 = Some m
                 ∧ ∀ r c, (r < ds_height ds)%nat → (c < ds_width ds)%nat →
                     cell m r c = Some (bool_decide
                       (layer_code self (ds_transform ds) Water r c = None))))
    as (a3 & Hl6 & Ha3 & Hc3 & Hbu6 & Hte6 & Hro6 & Hwa6 & Htr6 & Hbm6 & Hwm6).
  { assert (∀ r c, (r < ds_height ds)%nat → (c < ds_width ds)%nat →
              cell a2 r c = Some (composite
                [None; layer_code self (ds_transform ds) Road r c;
                 layer_code self (ds_transform ds) Terrain r c])) as Hbase.
    { intros r c Hr Hc. rewrite (Hc2 r c), (Hc1 r c), (Hc0 r c) by done. simpl.
      by destruct (loop_code _ (LandCover.roads self) r c),
                  (loop_code _ (LandCover.terrains self) r c). }
    simpl in Hwater.
    destruct Hwater as [(Hnil & [= -> ->] & Hh6)|(Hne & a3 & [= -> ->] & Hh6 & Ha3 & Hc3)].
    - exists a2. rewrite Hh6. split_and!; try done.
      + intros r c Hr Hc. rewrite (Hbase r c Hr Hc). unfold layer_code, mask_code.
        by rewrite Hnil.
      + intros Hne. by apply (omap_shape_nil raw_geometry) in Hnil.
    - exists a3. rewrite Hh6. split_and!; try done.
      + by rewrite lookup_app_r, Nat.sub_diag.
      + intros r c Hr Hc. rewrite (Hc3 r c Hr Hc), (Hbase r c Hr Hc).
        unfold layer_code, mask_code.
        by destruct (covered _ _ r c).
      + intros _. eexists. split; [reflexivity|]. intros r c Hr Hc.
        rewrite (cell_mask (ds_height ds) (ds_width ds)) by done.
        unfold layer_code, mask_code. simpl. by destruct (covered _ _ r c). }
  simpl.
  eapply returns_bind_eq.
  { apply (forM_shape b_geometry); [done|]. simpl. by rewrite Hbu6. }
  eapply returns_bind.
  { eapply (mask_branch_exact LandCover.set_building_mask); [done..|].
    simpl. rewrite Hbu6. by apply mask_ok_valid. }
  intros [l8 self8] w8 Hbuild. simpl in Hbuild.
  eapply returns_bind_eq; [reflexivity|]. apply returns_ret. simpl.
  assert (l6 < length (heap w6))%nat as Hlt by by eapply lookup_lt_Some.
  destruct Hbuild as [(Hnil & [= -> ->] & Hh8)|(Hne & a4 & [= -> ->] & Hh8 & Ha4 & Hc4)].
  - rewrite Hbu6 in Hnil. apply (omap_shape_nil b_geometry) in Hnil; [|done].
    simpl. split_and!; try done.
    exists l6, a3. rewrite Hh8. by split_and!.
  - rewrite Hbu6 in Hne.
    simpl. split_and!; try done.
    + exists l6, a3. rewrite Hh8. split_and!; try done.
      * by apply lookup_app_l_Some.
      * split; [lia|]. intros Hnil. destruct Hne. by rewrite Hnil.
    + intros _. eexists. split; [reflexivity|]. intros r c Hr Hc.
      rewrite (cell_mask (ds_height ds) (ds_width ds)) by done.
      unfold layer_code, mask_code. rewrite Hbu6. by destruct (covered _ _ r c).
Qed.

End Attributes.

(** ** The two updates of the grid *)

Lemma cell_assign_values (m : boolarray) (a : ndarray) v r c :
  cell (assign_values m a v) r c =
  b ← cell m r c; x ← cell a r c; Some (if b : bool then v else x).
Proof.
  unfold cell, assign_values. rewrite lookup_zip_with.
  destruct (m !! r) as [mrow|]; simpl; [|done].
  destruct (a !! r) as [arow|]; simpl.
  - rewrite lookup_zip_with. by destruct (mrow !! c).
  - by destruct (mrow !! c).
Qed.

Lemma row_lengths_fmap {A B} (g : A → B) (a : list (list A)) :
  length <$> ((λ row : list A, g <$> row) <$> a) = length <$> a.
Proof.
  rewrite <- list_fmap_compose. apply list_fmap_ext. intros _ row _. simpl.
  by rewrite length_fmap.
Qed.

Lemma row_lengths_assign (m : boolarray) (a : ndarray) v :
  length <$> m = length <$> a → length <$> assign_values m a v = length <$> a.
Proof.
  unfold assign_values. revert a.
  induction m as [|mrow m IH]; intros [|arow a]; try done.
  simpl. intros [= Hrow Hrest]. f_equal; [|by apply IH].
  rewrite length_zip_with. lia.
Qed.

Section Updates.
Context `{GeoLib}.
Implicit Types (l : loc) (t : Affine).

Lemma update_build_landcover_run (self : LandCover.t) (new_building_data : list Building)
    l a t h w w0 :
  LandCover.array self = Some l → LandCover.transform self = Some t →
  heap w0 !! l = Some a → rect h w a →
  mask_ok (b_geometry <$> new_building_data) = true →
  returns (LandCover.update_build_landcover self new_building_data) w0 (λ self' w',
    (new_building_data = [] →
       self' = self ∧ heap w' = heap w0
       ∧ stdout w' = stdout w0
           ++ ["No valid building geometries found. Skipping building rasterization."])
    ∧ (new_building_data ≠ [] →
       ∃ a', self' = LandCover.set_array (Some (length (heap w0))) self
         ∧ heap w' = heap w0 ++ [a'] ∧ rect h w a'
         ∧ stdout w' = stdout w0
         ∧ ∀ r c, (r < h)%nat → (c < w)%nat →
             cell a' r c
             = if covered (omap shape (b_geometry <$> new_building_data)) t r c
               then Some 2 else cell a r c)).
Proof.
  intros Harr Htr Hl Ha Hok. pose proof Hok as [Hparse _]%andb_prop.
  unfold LandCover.update_build_landcover.
  eapply returns_bind_eq; [by apply (forM_shape b_geometry)|].
  case_bool_decide as Hnil.
  - apply (omap_shape_nil b_geometry) in Hnil as ->; [|done].
    eexists _, _. split; [reflexivity|]. split; [done|]. by intros [].
  - rewrite Htr, Harr.
    destruct (mask_and_where_run (omap shape (b_geometry <$> new_building_data))
                t 2 l a h w w0 Hl Ha) as (w' & a' & Hrun & Hh & Ha' & Hc & Ho).
    { by destruct (mask_ok_valid _ Hok). }
    eexists _, w'. split.
    + revert Hrun. unfold mbind, M_bind, mret, M_ret. simpl.
      destruct (shape_of l w0) as [e|[shp w1]]; [done|].
      destruct (geometry_mask _ _ _ _ w1) as [e|[m w2]]; [done|].
      destruct (np_where m l 2 w2) as [e|[l' w3]]; [done|].
      intros Heq. injection Heq as -> _ ->. reflexivity.
    + split.
      * intros ->. by destruct Hnil.
      * intros _. exists a'. by split_and!.
Qed.

(** X4. [update_build_landcover] with buildings writes the code 2 where
    they cover the grid into a new array, to which [array] then refers; the
    arrays that were in the heap keep their place and their values. Without a
    building it prints its note and changes nothing. *)
Theorem update_build_landcover_spec (self : LandCover.t)
    (new_building_data : list Building) l a t h w w0 :
  LandCover.array self = Some l → LandCover.transform self = Some t →
  heap w0 !! l = Some a → rect h w a →
  mask_ok (b_geometry <$> new_building_data) = true →
  returns (LandCover.update_build_landcover self new_building_data) w0 (λ self' w',
    (new_building_data = [] →
       self' = self ∧ heap w' = heap w0
       ∧ stdout w' = stdout w0
           ++ ["No valid building geometries found. Skipping building rasterization."])
    ∧ (new_building_data ≠ [] →
       ∃ a', self' = LandCover.set_array (Some (length (heap w0))) self
         ∧ heap w' = heap w0 ++ [a'] ∧ rect h w a'
         ∧ stdout w' = stdout w0
         ∧ ∀ r c, (r < h)%nat → (c < w)%nat →
             cell a' r c
             = if covered (omap shape (b_geometry <$> new_building_data)) t r c
               then Some 2 else cell a r c)).
Proof. apply update_build_landcover_run. Qed.

(** X5. [update_landcover] writes the code into the array [array] refers
    to, at the cells where the input is greater than -1, and leaves the other
    cells, the other arrays and the object as they are; an input of another
    shape raises IndexError. *)
Theorem update_landcover_spec (self : LandCover.t) (land_type : Z)
    (input_array a : ndarray) l w0 :
  LandCover.array self = Some l → heap w0 !! l = Some a →
  (length <$> input_array = length <$> a →
   ∃ a',
     LandCover.update_landcover self land_type input_array w0
     = inr (self, set_heap (<[l := a']> (heap w0)) w0)
     ∧ length <$> a' = length <$> a
     ∧ ∀ r c x y, cell a r c = Some x → cell input_array r c = Some y →
         cell a' r c = Some (if bool_decide (-1 < y) then land_type else x))
  ∧ (length <$> input_array ≠ length <$> a →
     LandCover.update_landcover self land_type input_array w0 = inl IndexError).
Proof.
  intros Harr Hl.
  assert (length <$> greater_than input_array (-1) = length <$> input_array) as Hgt
    by apply row_lengths_fmap.
  split.
  - intros Hshape. eexists. split; [|split].
    + apply (update_landcover_in_place self land_type input_array a l w0 Harr Hl).
      by rewrite Hgt.
    + apply row_lengths_assign. by rewrite Hgt.
    + intros r c x y Hx Hy. rewrite cell_assign_values. unfold greater_than.
      rewrite cell_fmap, Hx, Hy. done.
  - intros Hshape.
    unfold LandCover.update_landcover, mbind, M_bind, deref. rewrite Harr. simpl.
    rewrite Hl. rewrite bool_decide_eq_false_2; [done|]. by rewrite Hgt.
Qed.

(** X6. Once [update_build_landcover] has written buildings, [array]
    refers to a new array, and an [update_landcover] that follows leaves the
    array [og_landcover] refers to as it was. *)
Theorem og_landcover_safe_after_build (self : LandCover.t)
    (new_building_data : list Building) l a t h w w0 :
  LandCover.og_landcover self = Some l → LandCover.array self = Some l →
  LandCover.transform self = Some t →
  heap w0 !! l = Some a → rect h w a →
  mask_ok (b_geometry <$> new_building_data) = true → new_building_data ≠ [] →
  returns (LandCover.update_build_landcover self new_building_data) w0 (λ self1 w1,
    ∀ land_type input_array self2 w2,
      LandCover.update_landcover self1 land_type input_array w1 = inr (self2, w2) →
      LandCover.og_landcover self2 = Some l ∧ heap w2 !! l = Some a).
Proof.
  intros Hog Harr Htr Hl Ha Hok Hne.
  eapply returns_mono; [by eapply update_build_landcover_run|].
  intros self1 w1 [_ Hbuilt] land_type input_array self2 w2.
  destruct (Hbuilt Hne) as (a' & -> & Hh & _).
  assert (l < length (heap w0))%nat as Hlt by by eapply lookup_lt_Some.
  unfold LandCover.update_landcover, mbind, M_bind, deref, store. simpl.
  rewrite Hh, lookup_app_r, Nat.sub_diag by done. simpl.
  case_bool_decide; [|done]. intros [= <- <-]. simpl. split; [done|].
  rewrite list_lookup_insert_ne by lia. rewrite Hh. by apply lookup_app_l_Some.
Qed.

End Updates.

(** ** The ingestion of the features *)

Lemma lower_ascii_idemp (a : ascii) : lower_ascii (lower_ascii a) = lower_ascii a.
Proof. destruct a as [[] [] [] [] [] [] [] []]; reflexivity. Qed.

Lemma lower_idemp (s : string) : lower (lower s) = lower s.
Proof. induction s as [|a s IH]; simpl; [done|]. by rewrite lower_ascii_idemp, IH. Qed.

Section Ingestion.
Context `{GeoLib}.

Lemma foldlM_append_exact {X F} (step : list F → X → M (list F)) (f : X → list F)
    (xs : list X) w0 :
  Forall (λ x, ∀ acc, step acc x w0 = inr (acc ++ f x, w0)) xs →
  ∀ acc, foldlM step acc xs w0 = inr (acc ++ concat (f <$> xs), w0).
Proof.
  induction 1 as [|x xs Hx _ IH]; intros acc; simpl.
  - by rewrite app_nil_r.
  - unfold mbind, M_bind. rewrite Hx, IH. by rewrite <- (assoc_L (++)).
Qed.

Lemma get_lower_run (key : string) (feature : RawFeature) w0 :
  (∀ z, raw_properties feature !! key ≠ Some (PInt z)) →
  LandCover.get_lower (raw_properties feature) key w0 = inr (attribute key feature, w0).
Proof.
  intros Hstr. unfold LandCover.get_lower, attribute.
  destruct (raw_properties feature !! key) as [[s|z]|] eqn:Hkey; try done.
  by destruct (Hstr z).
Qed.

Lemma attribute_lower (key : string) (feature : RawFeature) :
  lower (attribute key feature) = attribute key feature.
Proof.
  unfold attribute. destruct (raw_properties feature !! key) as [[s|z]|]; try done.
  apply lower_idemp.
Qed.

Lemma terrain_step_run (table : gmap string Z) (ter : RawFeature) w0 :
  readable "typelandgebruik" ter →
  ∀ acc, LandCover.terrain_step table acc ter w0 = inr (acc ++ terrain_feature table ter, w0).
Proof.
  intros [[g Hg] Hstr] acc. unfold LandCover.terrain_step, terrain_feature, shapeM.
  rewrite Hg. unfold mbind, M_bind. simpl. rewrite get_lower_run by done.
  destruct (LandCover.is_polygonal g); [done|]. by rewrite app_nil_r.
Qed.

Lemma road_step_run (main_road : Z) (table : gmap string Z) (road : RawFeature) w0 :
  readable "verhardingstype" road →
  ∀ acc, LandCover.road_step main_road table acc road w0
         = inr (acc ++ road_feature main_road table road, w0).
Proof.
  intros [[g Hg] Hstr] acc. unfold LandCover.road_step, road_feature, shapeM.
  rewrite Hg. unfold mbind, M_bind. simpl. rewrite get_lower_run by done.
  destruct (LandCover.is_polygonal g); [done|]. by rewrite app_nil_r.
Qed.

Lemma water_step_run (buffered : bool) (wat : RawFeature) w0 :
  is_Some (shape (raw_geometry wat)) →
  ∀ acc, LandCover.water_step buffered acc wat w0
         = inr (acc ++ water_feature buffered wat, w0).
Proof.
  intros [g Hg] acc. unfold LandCover.water_step, water_feature, shapeM.
  rewrite Hg. unfold mbind, M_bind. simpl.
  destruct (_ && _); [done|]. by rewrite app_nil_r.
Qed.

(** The loops of the ingestion collect, in the order of the service, what
    each feature contributes. *)
Lemma process_terrain_features_run (self : LandCover.t) w0 :
  Forall (readable "typelandgebruik") (top10nl w0 "terrein_vlak") →
  LandCover.process_terrain_features self w0
  = inr (concat (terrain_feature (default ∅ (LandCover.landcover_mapping self !! "terrain"))
                   <$> top10nl w0 "terrein_vlak"), w0).
Proof.
  intros Hall. unfold LandCover.process_terrain_features, LandCover.get_top10nl.
  unfold mbind at 1, M_bind at 1. simpl.
  rewrite (foldlM_append_exact _
             (terrain_feature (default ∅ (LandCover.landcover_mapping self !! "terrain"))));
    [done|].
  eapply Forall_impl; [exact Hall|]. intros ter Hter. by apply terrain_step_run.
Qed.

Lemma process_road_features_run (self : LandCover.t) w0 :
  Forall (readable "verhardingstype") (top10nl w0 "wegdeel_vlak") →
  LandCover.process_road_features self w0
  = inr (concat (road_feature (LandCover.main_road self)
                   (default ∅ (LandCover.landcover_mapping self !! "road"))
                   <$> top10nl w0 "wegdeel_vlak"), w0).
Proof.
  intros Hall. unfold LandCover.process_road_features, LandCover.get_top10nl.
  unfold mbind at 1, M_bind at 1. simpl.
  rewrite (foldlM_append_exact _
             (road_feature (LandCover.main_road self)
                (default ∅ (LandCover.landcover_mapping self !! "road"))));
    [done|].
  eapply Forall_impl; [exact Hall|]. intros road Hroad. by apply road_step_run.
Qed.

Lemma process_water_features_run w0 :
  Forall (λ wat, is_Some (shape (raw_geometry wat)))
    (top10nl w0 "waterdeel_vlak" ++ top10nl w0 "waterdeel_lijn") →
  LandCover.process_water_features w0
  = inr (concat (water_feature false <$> top10nl w0 "waterdeel_vlak")
         ++ concat (water_feature true <$> top10nl w0 "waterdeel_lijn"), w0).
Proof.
  intros [Hvlak Hlijn]%Forall_app.
  unfold LandCover.process_water_features, LandCover.get_top10nl, mbind, M_bind. simpl.
  rewrite (foldlM_append_exact _ (water_feature false)).
  - rewrite (foldlM_append_exact _ (water_feature true)); [done|].
    eapply Forall_impl; [exact Hlijn|]. intros wat Hwat. by apply water_step_run.
  - eapply Forall_impl; [exact Hvlak|]. intros wat Hwat. by apply water_step_run.
Qed.

Lemma new_properties_cases (v : Z) :
  (v = -1 ∧ LandCover.new_properties v = ∅)
  ∨ (v ≠ -1 ∧ LandCover.new_properties v = {[ "landuse" := v ]}).
Proof.
  unfold LandCover.new_properties. destruct (Z.eqb_spec v (-1)); [by left|by right].
Qed.

Lemma lookup_new_properties (v k : Z) :
  LandCover.new_properties v !! "landuse" = Some k → k = v ∧ v ≠ -1.
Proof.
  destruct (new_properties_cases v) as [[_ ->]|[Hv ->]]; [done|].
  rewrite lookup_singleton_eq. by intros [= ->].
Qed.

Lemma elem_of_concat_fmap {X F} (f : X → list F) (xs : list X) y :
  y ∈ concat (f <$> xs) ↔ ∃ x, x ∈ xs ∧ y ∈ f x.
Proof.
  rewrite elem_of_concat. split.
  - intros (l & (x & -> & Hx)%list_elem_of_fmap & Hy). by exists x.
  - intros (x & Hx & Hy). exists (f x). split; [|done].
    apply list_elem_of_fmap. by exists x.
Qed.

Lemma length_concat_le {X F} (f : X → list F) (xs : list X) :
  (∀ x, length (f x) ≤ 1)%nat → (length (concat (f <$> xs)) ≤ length xs)%nat.
Proof.
  intros Hf. induction xs as [|x xs IH]; [done|].
  rewrite fmap_cons. cbn [concat length]. rewrite length_app. specialize (Hf x). lia.
Qed.

(** X7. When the geometries of the terrain features of the service are
    parsed and their type attributes are strings, the terrain layer has at
    most one feature for each of them, each with the geometry of a polygon or
    multipolygon of the service; a feature has a code only when the table of
    terrain codes gives it for the lowercase type, and the code is never -1. *)
Theorem terrain_codes_from_table (self : LandCover.t) w0 :
  Forall (readable "typelandgebruik") (top10nl w0 "terrein_vlak") →
  returns (LandCover.process_terrain_features self) w0 (λ fts w',
    w' = w0
    ∧ (length fts ≤ length (top10nl w0 "terrein_vlak"))%nat
    ∧ ∀ ft, ft ∈ fts →
        (∃ ter g, ter ∈ top10nl w0 "terrein_vlak" ∧ shape (raw_geometry ter) = Some g
                  ∧ LandCover.is_polygonal g = true ∧ geometry ft = mapping g)
        ∧ ∀ k, properties ft !! "landuse" = Some k →
            k ≠ -1
            ∧ ∃ type, lower type = type
                ∧ default ∅ (LandCover.landcover_mapping self !! "terrain") !! type
                  = Some k).
Proof.
  intros Hall. eexists _, _. split; [by apply process_terrain_features_run|].
  split; [done|]. split.
  - apply length_concat_le. intros ter. unfold terrain_feature.
    destruct (shape _) as [g|]; [|simpl; lia].
    destruct (LandCover.is_polygonal g); simpl; lia.
  - intros ft (ter & Hter & Hft)%elem_of_concat_fmap. unfold terrain_feature in Hft.
    destruct (shape (raw_geometry ter)) as [g|] eqn:Hg; [|by apply not_elem_of_nil in Hft].
    destruct (LandCover.is_polygonal g) eqn:Hpoly; [|by apply not_elem_of_nil in Hft].
    apply list_elem_of_singleton in Hft as ->. simpl. split.
    + by exists ter, g.
    + intros k [-> Hk]%lookup_new_properties. split; [done|].
      exists (attribute "typelandgebruik" ter). split; [apply attribute_lower|].
      by destruct (_ !! attribute "typelandgebruik" ter).
Qed.

(** X8. A road feature of the road layer has a code only when it is the
    code given for hardened roads or a value of the table of road codes, and
    the code is never -1. *)
Theorem road_codes_from_table (self : LandCover.t) w0 :
  Forall (readable "verhardingstype") (top10nl w0 "wegdeel_vlak") →
  returns (LandCover.process_road_features self) w0 (λ fts w',
    w' = w0
    ∧ (length fts ≤ length (top10nl w0 "wegdeel_vlak"))%nat
    ∧ ∀ ft k, ft ∈ fts → properties ft !! "landuse" = Some k →
        k ≠ -1
        ∧ (k = LandCover.main_road self
           ∨ ∃ type, lower type = type ∧ type ≠ "verhard"
               ∧ default ∅ (LandCover.landcover_mapping self !! "road") !! type = Some k)).
Proof.
  intros Hall. eexists _, _. split; [by apply process_road_features_run|].
  split; [done|]. split.
  - apply length_concat_le. intros road. unfold road_feature.
    destruct (shape _) as [g|]; [|simpl; lia].
    destruct (LandCover.is_polygonal g); simpl; lia.
  - intros ft k (road & Hroad & Hft)%elem_of_concat_fmap. unfold road_feature in Hft.
    destruct (shape (raw_geometry road)) as [g|]; [|by apply not_elem_of_nil in Hft].
    destruct (LandCover.is_polygonal g); [|by apply not_elem_of_nil in Hft].
    apply list_elem_of_singleton in Hft as ->. simpl.
    intros [-> Hk]%lookup_new_properties. split; [done|].
    destruct (String.eqb_spec (attribute "verhardingstype" road) "verhard") as [Heq|Hne];
      [by left|right].
    exists (attribute "verhardingstype" road). split; [apply attribute_lower|].
    split; [done|]. by destruct (_ !! attribute "verhardingstype" road).
Qed.

(** X9. A road of the service whose surface type is "verhard", in whatever
    case, and whose geometry is a polygon or multipolygon, is in the road
    layer with the code given for hardened roads, whatever the table of road
    codes holds, and without a code when that code is -1. *)
Theorem hardened_road_override (self : LandCover.t) (road : RawFeature) g w0 :
  Forall (readable "verhardingstype") (top10nl w0 "wegdeel_vlak") →
  road ∈ top10nl w0 "wegdeel_vlak" → hardened road →
  shape (raw_geometry road) = Some g → LandCover.is_polygonal g = true →
  returns (LandCover.process_road_features self) w0 (λ fts _,
    {| geometry := mapping g;
       properties := if LandCover.main_road self =? -1 then ∅
                     else {[ "landuse" := LandCover.main_road self ]} |} ∈ fts).
Proof.
  intros Hall Hroad (s & Hs & Hlow) Hg Hpoly.
  eexists _, _. split; [by apply process_road_features_run|].
  apply elem_of_concat_fmap. exists road. split; [done|].
  unfold road_feature. rewrite Hg, Hpoly. apply list_elem_of_singleton.
  unfold attribute. rewrite Hs, Hlow. done.
Qed.

(** X10. The two lookups of the code table agree: a terrain feature of the
    service with a string type, and a road feature with a string surface type
    that is not "verhard", are in their layer with the code
    [get_landcover_code] returns for that string, and without a code when it
    returns -1. *)
Theorem classification_agrees_with_lookup (self : LandCover.t) (isroad : bool)
    (feature : RawFeature) (s : string) g w0 :
  let key := if isroad then "verhardingstype" else "typelandgebruik" in
  let collection := if isroad then "wegdeel_vlak" else "terrein_vlak" in
  Forall (readable key) (top10nl w0 collection) →
  feature ∈ top10nl w0 collection →
  raw_properties feature !! key = Some (PStr s) →
  (isroad = true → lower s ≠ "verhard") →
  shape (raw_geometry feature) = Some g → LandCover.is_polygonal g = true →
  returns (if isroad then LandCover.process_road_features self
           else LandCover.process_terrain_features self) w0 (λ fts _,
    {| geometry := mapping g;
       properties := LandCover.new_properties
                       (LandCover.get_landcover_code self s isroad) |} ∈ fts).
Proof.
  intros key collection Hall Hin Hs Hhard Hg Hpoly. unfold LandCover.get_landcover_code.
  subst key collection. destruct isroad; simpl in *.
  - eexists _, _. split; [by apply process_road_features_run|].
    apply elem_of_concat_fmap. exists feature. split; [done|].
    unfold road_feature. rewrite Hg, Hpoly. apply list_elem_of_singleton.
    unfold attribute. rewrite Hs.
    specialize (Hhard eq_refl). apply String.eqb_neq in Hhard as ->. done.
  - eexists _, _. split; [by apply process_terrain_features_run|].
    apply elem_of_concat_fmap. exists feature. split; [done|].
    unfold terrain_feature. rewrite Hg, Hpoly. apply list_elem_of_singleton.
    unfold attribute. by rewrite Hs.
Qed.

(** X11. Every feature of the water layer has a level other than -1 and
    the geometry of a polygon or multipolygon, that of an area of the service
    or the buffer of a line of the service, with the attributes of that feature
    unchanged; the areas come before the buffered lines. *)
Theorem water_features_filtered w0 :
  Forall (λ wat, is_Some (shape (raw_geometry wat)))
    (top10nl w0 "waterdeel_vlak" ++ top10nl w0 "waterdeel_lijn") →
  returns LandCover.process_water_features w0 (λ water w',
    w' = w0
    ∧ ∃ areas lines, water = areas ++ lines
        ∧ (∀ wat, wat ∈ areas →
             ∃ src g, src ∈ top10nl w0 "waterdeel_vlak"
               ∧ shape (raw_geometry src) = Some g
               ∧ LandCover.is_polygonal g = true
               ∧ raw_properties src !! "hoogteniveau" ≠ Some (PInt (-1))
               ∧ wat = {| raw_geometry := mapping g; raw_properties := raw_properties src |})
        ∧ (∀ wat, wat ∈ lines →
             ∃ src g, src ∈ top10nl w0 "waterdeel_lijn"
               ∧ shape (raw_geometry src) = Some g
               ∧ LandCover.is_polygonal (buffer g) = true
               ∧ raw_properties src !! "hoogteniveau" ≠ Some (PInt (-1))
               ∧ wat = {| raw_geometry := mapping (buffer g);
                          raw_properties := raw_properties src |})).
Proof.
  intros Hall. eexists _, _. split; [by apply process_water_features_run|].
  split; [done|]. eexists _, _. split; [reflexivity|].
  assert (∀ o, LandCover.not_minus_one o = true → o ≠ Some (PInt (-1))) as Hlevel.
  { intros o Ho ->. done. }
  split.
  - intros wat (src & Hsrc & Hwat)%elem_of_concat_fmap. unfold water_feature in Hwat.
    destruct (shape (raw_geometry src)) as [g|] eqn:Hg; [|by apply not_elem_of_nil in Hwat].
    destruct (_ && _) eqn:Hkeep; [|by apply not_elem_of_nil in Hwat].
    apply andb_prop in Hkeep as [Hlev Hpoly].
    apply list_elem_of_singleton in Hwat as ->. exists src, g. split_and!; auto.
  - intros wat (src & Hsrc & Hwat)%elem_of_concat_fmap. unfold water_feature in Hwat.
    destruct (shape (raw_geometry src)) as [g|] eqn:Hg; [|by apply not_elem_of_nil in Hwat].
    destruct (_ && _) eqn:Hkeep; [|by apply not_elem_of_nil in Hwat].
    apply andb_prop in Hkeep as [Hlev Hpoly].
    apply list_elem_of_singleton in Hwat as ->. exists src, g. split_and!; auto.
Qed.

Lemma foldlM_world {A B} (f : A → B → M A) (xs : list B) :
  (∀ a x w r w', f a x w = inr (r, w') → w' = w) →
  ∀ a w r w', foldlM f a xs w = inr (r, w') → w' = w.
Proof.
  intros Hf. induction xs as [|x xs IH]; intros a w r w'; simpl.
  - by intros [= _ <-].
  - unfold mbind, M_bind. destruct (f a x w) as [e|[a' w1]] eqn:Hstep; [done|].
    apply Hf in Hstep as ->. apply IH.
Qed.

Lemma terrain_step_world (table : gmap string Z) acc ter w r w' :
  LandCover.terrain_step table acc ter w = inr (r, w') → w' = w.
Proof.
  unfold LandCover.terrain_step, shapeM, LandCover.get_lower, mbind, M_bind.
  destruct (shape (raw_geometry ter)); simpl; [|done].
  destruct (raw_properties ter !! "typelandgebruik") as [[?|?]|]; simpl; try done;
    destruct (LandCover.is_polygonal _); by intros [= _ <-].
Qed.

Lemma road_step_world (main_road : Z) (table : gmap string Z) acc road w r w' :
  LandCover.road_step main_road table acc road w = inr (r, w') → w' = w.
Proof.
  unfold LandCover.road_step, shapeM, LandCover.get_lower, mbind, M_bind.
  destruct (shape (raw_geometry road)); simpl; [|done].
  destruct (raw_properties road !! "verhardingstype") as [[?|?]|]; simpl; try done;
    destruct (LandCover.is_polygonal _); by intros [= _ <-].
Qed.

Lemma water_step_world (buffered : bool) acc wat w r w' :
  LandCover.water_step buffered acc wat w = inr (r, w') → w' = w.
Proof.
  unfold LandCover.water_step, shapeM, mbind, M_bind.
  destruct (shape (raw_geometry wat)); simpl; [|done].
  destruct (_ && _); by intros [= _ <-].
Qed.

Lemma process_terrain_features_world (self : LandCover.t) w r w' :
  LandCover.process_terrain_features self w = inr (r, w') → w' = w.
Proof.
  unfold LandCover.process_terrain_features, LandCover.get_top10nl.
  unfold mbind at 1, M_bind at 1. simpl.
  apply foldlM_world. intros ?????. apply terrain_step_world.
Qed.

Lemma process_road_features_world (self : LandCover.t) w r w' :
  LandCover.process_road_features self w = inr (r, w') → w' = w.
Proof.
  unfold LandCover.process_road_features, LandCover.get_top10nl.
  unfold mbind at 1, M_bind at 1. simpl.
  apply foldlM_world. intros ?????. apply road_step_world.
Qed.

Lemma process_features_raise (self : LandCover.t) (feature : RawFeature) w0 :
  shape (raw_geometry feature) = None →
  (feature ∈ top10nl w0 "terrein_vlak" →
   raises (LandCover.process_terrain_features self) w0)
  ∧ (feature ∈ top10nl w0 "wegdeel_vlak" →
     raises (LandCover.process_road_features self) w0)
  ∧ (feature ∈ top10nl w0 "waterdeel_vlak" ∨ feature ∈ top10nl w0 "waterdeel_lijn" →
     raises LandCover.process_water_features w0).
Proof.
  intros Hg. split_and!.
  - intros Hin. unfold LandCover.process_terrain_features, LandCover.get_top10nl.
    unfold raises, mbind at 1, M_bind at 1. simpl.
    eapply foldlM_raises; [done|]. intros acc w. exists ShapelyError.
    unfold LandCover.terrain_step, shapeM, mbind, M_bind. by rewrite Hg.
  - intros Hin. unfold LandCover.process_road_features, LandCover.get_top10nl.
    unfold raises, mbind at 1, M_bind at 1. simpl.
    eapply foldlM_raises; [done|]. intros acc w. exists ShapelyError.
    unfold LandCover.road_step, shapeM, mbind, M_bind. by rewrite Hg.
  - assert (∀ buffered acc w, raises (LandCover.water_step buffered acc feature) w) as Hstep.
    { intros buffered acc w. exists ShapelyError.
      unfold LandCover.water_step, shapeM, mbind, M_bind. by rewrite Hg. }
    intros Hin. unfold LandCover.process_water_features, LandCover.get_top10nl.
    unfold raises, mbind at 1, M_bind at 1. simpl.
    unfold mbind at 1, M_bind at 1. simpl.
    destruct Hin as [Hin|Hin].
    + apply raises_bind. by eapply foldlM_raises.
    + apply raises_bind_post. intros acc w1 Hvlak.
      apply foldlM_world in Hvlak as ->; [|intros ?????; apply water_step_world].
      by eapply foldlM_raises.
Qed.

(** X12. The constructor fails as a whole when the service hands over one
    terrain, road or water feature with a geometry that cannot be parsed: no
    object is returned, whatever the other features are. *)
Theorem init_fails_on_unparsed_feature (a : LandCover.init_args) (feature : RawFeature) w0 :
  (feature ∈ top10nl w0 "terrein_vlak" ∨ feature ∈ top10nl w0 "wegdeel_vlak"
   ∨ feature ∈ top10nl w0 "waterdeel_vlak" ∨ feature ∈ top10nl w0 "waterdeel_lijn") →
  shape (raw_geometry feature) = None →
  raises (LandCover.init a) w0.
Proof.
  intros Hin Hg. unfold LandCover.init.
  apply raises_bind_post. intros dtm w1 Hdtm.
  assert (w1 = w0) as ->.
  { revert Hdtm. unfold LandCover.dtm_dataset_prep, get_world, mbind, M_bind.
    destruct (LandCover.arg_dataset a), (LandCover.arg_dataset_path a); simpl;
      try (by intros [= _ <-]).
    destruct (raster_files w0 s); simpl; [|done]. by intros [= _ <-]. }
  apply raises_bind_post. intros table w1 Htable.
  assert (w1 = w0) as ->.
  { revert Htable. unfold LandCover.load_landcover_mapping, get_world, mbind, M_bind. simpl.
    destruct (json_files w0 _); simpl; [|done]. by intros [= _ <-]. }
  apply raises_bind. unfold LandCover.get_features.
  destruct (process_features_raise
              (LandCover.Self (LandCover.arg_bbox a) None (LandCover.arg_crs a)
                 (LandCover.arg_main_roadtype a) dtm None None
                 (LandCover.arg_buildings_path a) (LandCover.arg_layer a)
                 (LandCover.arg_building_data a) (LandCover.arg_landcover_path a)
                 table [] [] [] [] None None None) feature w0 Hg)
    as (Hte & Hro & Hwa).
  destruct Hin as [Hin|[Hin|Hin]].
  - apply raises_bind. by apply Hte.
  - apply raises_bind_post. intros te w1 ->%process_terrain_features_world.
    apply raises_bind. by apply Hro.
  - apply raises_bind_post. intros te w1 ->%process_terrain_features_world.
    apply raises_bind_post. intros ro w1 ->%process_road_features_world.
    apply raises_bind. by apply Hwa.
Qed.

End Ingestion.

(** ** The lists of removed buildings *)

Lemma list_remove_None (x : string) (l : list string) :
  Buildings.list_remove x l = None ↔ x ∉ l.
Proof.
  induction l as [|y l IH]; simpl.
  - split; [intros _; apply not_elem_of_nil|done].
  - rewrite not_elem_of_cons. destruct (String.eqb_spec x y) as [->|Hne].
    + split; [done|]. by intros [? _].
    + rewrite fmap_None, IH. split; [by intros ?|by intros [_ ?]].
Qed.

Lemma list_remove_first (x : string) (l1 l2 : list string) :
  x ∉ l1 → Buildings.list_remove x (l1 ++ x :: l2) = Some (l1 ++ l2).
Proof.
  induction l1 as [|y l1 IH]; simpl; intros Hx.
  - by rewrite String.eqb_refl.
  - apply not_elem_of_cons in Hx as [Hne Hx].
    apply String.eqb_neq in Hne as ->. by rewrite IH.
Qed.

Lemma list_remove_snoc (x : string) (l : list string) :
  ∃ l', Buildings.list_remove x (l ++ [x]) = Some l'
        ∧ l' ≡ₚ l ∧ (x ∉ l → l' = l).
Proof.
  induction l as [|y l (l' & Hrun & Hperm & Hsame)]; simpl.
  - rewrite String.eqb_refl. by exists [].
  - destruct (String.eqb_spec x y) as [->|Hne].
    + exists (l ++ [y]). split; [done|]. split.
      * by rewrite <- Permutation_cons_append.
      * intros Hy. destruct Hy. by left.
    + exists (y :: l'). rewrite Hrun. split; [done|]. split; [by rewrite Hperm|].
      intros [_ Hx]%not_elem_of_cons. by rewrite Hsame.
Qed.

Section Removal.
Context `{GeoLib}.

(** X13. Removing a building and retrieving it again returns an object
    whose list of removed buildings has the identifiers it had, each as often
    as before; the object is the one before when the identifier was not in the
    list already. The same holds for the user buildings. Neither call touches
    the world. *)
Theorem remove_then_retrieve (self : Buildings.t) (identification : string) w0 :
  (∃ self',
     (s ← Buildings.remove_buildings self identification;
      Buildings.retrieve_buildings s identification) w0 = inr (self', w0)
     ∧ Buildings.removed_buildings self' ≡ₚ Buildings.removed_buildings self
     ∧ (identification ∉ Buildings.removed_buildings self → self' = self))
  ∧ (∃ self',
       (s ← Buildings.remove_user_buildings self identification;
        Buildings.retrieve_user_buildings s identification) w0 = inr (self', w0)
       ∧ Buildings.removed_user_buildings self' ≡ₚ Buildings.removed_user_buildings self
       ∧ (identification ∉ Buildings.removed_user_buildings self → self' = self)).
Proof.
  destruct self as [bg removed ub ubh removed_user is3d]. split.
  - destruct (list_remove_snoc identification removed) as (l' & Hrun & Hperm & Hsame).
    eexists. split; [|split].
    + unfold Buildings.remove_buildings, Buildings.retrieve_buildings, mbind, M_bind.
      simpl. rewrite Hrun. reflexivity.
    + done.
    + simpl. intros Hx. by rewrite Hsame.
  - destruct (list_remove_snoc identification removed_user) as (l' & Hrun & Hperm & Hsame).
    eexists. split; [|split].
    + unfold Buildings.remove_user_buildings, Buildings.retrieve_user_buildings,
        mbind, M_bind.
      simpl. rewrite Hrun. reflexivity.
    + done.
    + simpl. intros Hx. by rewrite Hsame.
Qed.

(** X14. Retrieving an identifier that is not in the list of removed
    buildings raises ValueError; retrieving one that is there takes its first
    occurrence out of the list and leaves the later ones. The same holds for
    the user buildings. *)
Theorem retrieve_first_or_error (self : Buildings.t) (identification : string) w0 :
  (identification ∉ Buildings.removed_buildings self →
   Buildings.retrieve_buildings self identification w0 = inl ValueError)
  ∧ (∀ l1 l2, Buildings.removed_buildings self = l1 ++ identification :: l2 →
       identification ∉ l1 →
       ∃ self', Buildings.retrieve_buildings self identification w0 = inr (self', w0)
         ∧ Buildings.removed_buildings self' = l1 ++ l2
         ∧ Buildings.removed_user_buildings self' = Buildings.removed_user_buildings self
         ∧ Buildings.user_buildings self' = Buildings.user_buildings self)
  ∧ (identification ∉ Buildings.removed_user_buildings self →
     Buildings.retrieve_user_buildings self identification w0 = inl ValueError)
  ∧ (∀ l1 l2, Buildings.removed_user_buildings self = l1 ++ identification :: l2 →
       identification ∉ l1 →
       ∃ self', Buildings.retrieve_user_buildings self identification w0 = inr (self', w0)
         ∧ Buildings.removed_user_buildings self' = l1 ++ l2
         ∧ Buildings.removed_buildings self' = Buildings.removed_buildings self
         ∧ Buildings.user_buildings self' = Buildings.user_buildings self).
Proof.
  split_and!.
  - intros Hx%list_remove_None.
    unfold Buildings.retrieve_buildings, mbind, M_bind. by rewrite Hx.
  - intros l1 l2 Hl Hx. eexists. split.
    + unfold Buildings.retrieve_buildings, mbind, M_bind.
      rewrite Hl, list_remove_first by done. reflexivity.
    + by split_and!.
  - intros Hx%list_remove_None.
    unfold Buildings.retrieve_user_buildings, mbind, M_bind. by rewrite Hx.
  - intros l1 l2 Hl Hx. eexists. split.
    + unfold Buildings.retrieve_user_buildings, mbind, M_bind.
      rewrite Hl, list_remove_first by done. reflexivity.
    + by split_and!.
Qed.

End Removal.

(** ** The index of the matcher *)

Section Index.
Context `{GeoLib}.

Hypothesis intersects_sym : ∀ a b, intersects a b = intersects b a.
Hypothesis within_intersects : ∀ a b, within a b = true → intersects a b = true.
Hypothesis rtree_order_perm : ∀ entries, rtree_order entries ≡ₚ entries.
Hypothesis intersects_boxes :
  ∀ a b, intersects a b = true → boxes_intersect (bounds a) (bounds b) = true.

Lemma boxes_intersect_sym (a b : BoundingBox) : boxes_intersect a b = boxes_intersect b a.
Proof.
  unfold boxes_intersect.
  destruct (Qle_bool (minx a) (maxx b)), (Qle_bool (minx b) (maxx a)),
           (Qle_bool (miny a) (maxy b)), (Qle_bool (miny b) (maxy a)); done.
Qed.

(** X15. The query of the index loses no match: when the geometries of the
    highest blobs are parsed and one of them intersects the footprint or
    contains it, the footprint blob leaves the matcher with the identifier of
    a highest blob in that relation with it; when none is, it keeps its own
    identifier. Its geometry is unchanged and the world is untouched. *)
Theorem index_keeps_every_match (highest_buildings : list Building)
    (footprint_building : Building) footprint_geom w0 :
  Forall (λ b, is_Some (shape (b_geometry b))) highest_buildings →
  shape (b_geometry footprint_building) = Some footprint_geom →
  ∃ x,
    (rtree_index ← Buildings.build_index highest_buildings;
     Buildings.match_footprint rtree_index highest_buildings footprint_building) w0
    = inr (x, w0)
    ∧ b_geometry x = b_geometry footprint_building
    ∧ ((∃ b hg, b ∈ highest_buildings ∧ shape (b_geometry b) = Some hg
                ∧ code_related footprint_geom hg = true) →
       ∃ b hg, b ∈ highest_buildings ∧ shape (b_geometry b) = Some hg
               ∧ code_related footprint_geom hg = true ∧ parcel_id x = parcel_id b)
    ∧ ((∀ b hg, b ∈ highest_buildings → shape (b_geometry b) = Some hg →
                code_related footprint_geom hg = false) →
       parcel_id x = parcel_id footprint_building).
Proof.
  intros Hall Hfg.
  destruct (match_footprint_run intersects_sym within_intersects rtree_order_perm
              highest_buildings footprint_building w0 Hall)
    as (x & Hrun & Hgeom & Hid); [by eexists|].
  exists x. split.
  { unfold mbind, M_bind. by rewrite build_index_run. }
  split; [done|].
  unfold spec_match in Hid. rewrite Hfg in Hid. simpl in Hid.
  set (candidates := rtree_intersection _ (bounds footprint_geom)) in Hid.
  assert (∀ hg, code_related footprint_geom hg = candidate_related footprint_geom hg)
    as Hrel by (intros hg; by apply relation_of_the_code).
  destruct (list_find _ candidates) as [[i idx]|] eqn:Hfind.
  - apply list_find_Some in Hfind as (_ & Hidx & _).
    destruct (highest_buildings !! idx) as [b|] eqn:Hb; [|done].
    simpl in Hidx, Hid. injection Hid as Hid.
    destruct (shape (b_geometry b)) as [hg|] eqn:Hhg; [|done]. simpl in Hidx.
    assert (b ∈ highest_buildings) as Hin by by eapply list_elem_of_lookup_2.
    split.
    + intros _. exists b, hg. by rewrite Hrel.
    + intros Hnone. specialize (Hrel hg). rewrite (Hnone b hg Hin Hhg) in Hrel.
      congruence.
  - injection Hid as Hid. split; [|done].
    intros (b & hg & Hin & Hhg & Hcode). exfalso.
    apply list_find_None in Hfind. rewrite Forall_forall in Hfind.
    apply list_elem_of_lookup in Hin as (j & Hj).
    apply (Hfind j).
    + unfold candidates, rtree_intersection. apply list_elem_of_fmap.
      exists (j, bounds hg). split; [done|]. apply list_elem_of_filter. split.
      * simpl. rewrite boxes_intersect_sym. apply intersects_boxes.
        unfold code_related in Hcode. apply orb_prop in Hcode as [?|?]; auto.
      * rewrite rtree_order_perm. apply list_elem_of_lookup. exists j.
        rewrite list_lookup_imap, Hj. simpl. by rewrite Hhg.
    + rewrite Hj. simpl. rewrite Hhg. simpl. by rewrite <- Hrel.
Qed.

End Index.

(** ** Saving the grid *)

Section Saving.
Context `{GeoLib}.

(** X16. A grid of one row or of one column cannot be saved: the squeezed
    array has lost an axis, and [save_raster] raises IndexError without a file
    written. *)
Theorem save_raster_single_line (self : LandCover.t) (name : string)
    (change_nodata : bool) (disk : gmap string LandCover.RasterFile) ds l a h w w0 :
  LandCover.dtm_dataset self = Some ds → LandCover.array self = Some l →
  heap w0 !! l = Some a → rect h w a →
  (h = 1 ∨ (0 < h ∧ w = 1))%nat →
  LandCover.save_raster self name change_nodata disk w0 = inl IndexError.
Proof.
  intros Hds Harr Hl Ha Hline.
  unfold LandCover.save_raster. rewrite Hds, Harr.
  unfold mbind, M_bind, deref. simpl. rewrite Hl. simpl.
  unfold np_squeeze. rewrite (array_shape_rect h w a) by (done || lia).
  destruct Hline as [->|[Hh ->]].
  - destruct w as [|[|w']], change_nodata, (ds_nodata ds); reflexivity.
  - destruct h as [|[|h']], change_nodata, (ds_nodata ds); try reflexivity; lia.
Qed.

(** X17. A grid of at least two rows and two columns is saved under the
    given name with its values and size, the reference system of the dataset
    and the transform of the object; the nodata value of the file is -9999 when
    that is asked for or when the dataset has none, in which case a warning is
    printed, and the nodata value of the dataset otherwise. The other files
    and the heap are untouched. *)
Theorem save_raster_writes (self : LandCover.t) (name : string)
    (change_nodata : bool) (disk : gmap string LandCover.RasterFile) ds l a h w w0 :
  LandCover.dtm_dataset self = Some ds → LandCover.array self = Some l →
  heap w0 !! l = Some a → rect h w a → (2 ≤ h)%nat → (2 ≤ w)%nat →
  returns (LandCover.save_raster self name change_nodata disk) w0 (λ disk' w',
    disk' = <[name := {| LandCover.rf_height := h; LandCover.rf_width := w;
                         LandCover.rf_values := a;
                         LandCover.rf_crs := ds_crs ds;
                         LandCover.rf_nodata :=
                           if change_nodata then -9999 else default (-9999) (ds_nodata ds);
                         LandCover.rf_transform := LandCover.transform self |}]> disk
    ∧ heap w' = heap w0
    ∧ stdout w' = stdout w0
        ++ (if change_nodata || bool_decide (is_Some (ds_nodata ds)) then []
            else ["Warning: No no data value found in dataset.. Defaulting to -9999."])
        ++ ["File written to '" +:+ name +:+ "'"]).
Proof.
  intros Hds Harr Hl Ha Hh Hw.
  pose proof (array_shape_rect h w a Ha ltac:(lia)) as Hshape.
  assert (length a = h ∧ from_option length 0%nat (head a) = w) as [Hlen Hwid]
    by (unfold array_shape in Hshape; by injection Hshape).
  unfold LandCover.save_raster. rewrite Hds, Harr.
  unfold returns, mbind, M_bind, deref. simpl. rewrite Hl. simpl.
  unfold np_squeeze. rewrite Hshape.
  destruct h as [|[|h']]; [lia..|]. destruct w as [|[|w']]; [lia..|].
  destruct change_nodata; simpl; rewrite ?Hlen, ?Hwid; simpl.
  - eexists _, _. split; [reflexivity|]. by split_and!.
  - destruct (ds_nodata ds) as [v|]; simpl; rewrite ?Hlen, ?Hwid; simpl.
    + eexists _, _. split; [reflexivity|]. by split_and!.
    + eexists _, _. split; [reflexivity|].
      split_and!; [done..|]. simpl. by rewrite <- (assoc_L (++)).
Qed.

End Saving.

(** ** The laws of the small instance *)

Lemma foldr_min_le (d : nat) (l : list nat) (x : nat) :
  x ∈ l → (foldr Nat.min d l ≤ x)%nat.
Proof.
  induction l as [|y l IH]; simpl; [by intros ?%not_elem_of_nil|].
  intros [->|Hx]%elem_of_cons; [lia|]. specialize (IH Hx). lia.
Qed.

Lemma foldr_max_ge (l : list nat) (x : nat) :
  x ∈ l → (x ≤ foldr Nat.max 0 l)%nat.
Proof.
  induction l as [|y l IH]; simpl; [by intros ?%not_elem_of_nil|].
  intros [->|Hx]%elem_of_cons; [lia|]. specialize (IH Hx). lia.
Qed.

Lemma Qle_bool_nat (m n : nat) :
  (m ≤ n)%nat → Qle_bool (inject_Z (Z.of_nat m)) (inject_Z (Z.of_nat n)) = true.
Proof. intros Hmn. apply Qle_bool_iff. rewrite <- Zle_Qle. lia. Qed.

Lemma toy_intersects_boxes (a b : @Geom Toy.lib) :
  @intersects Toy.lib a b = true →
  boxes_intersect (@bounds Toy.lib a) (@bounds Toy.lib b) = true.
Proof.
  simpl. unfold Toy.share_pixel. rewrite existsb_exists.
  intros (p & Ha%list_elem_of_In & Hb%bool_decide_eq_true).
  assert (∀ (g : Toy.geom) (proj : pixel → nat) d, p ∈ g.2 →
            (foldr Nat.min d (proj <$> g.2) ≤ proj p
             ∧ proj p ≤ S (foldr Nat.max 0 (proj <$> g.2)))%nat) as Hbox.
  { intros g proj d Hp.
    assert (proj p ∈ proj <$> g.2) as Hin by (apply list_elem_of_fmap; by exists p).
    pose proof (foldr_min_le d _ _ Hin). pose proof (foldr_max_ge _ _ Hin). lia. }
  pose proof (Hbox b snd (default 0%nat (head (snd <$> b.2))) Hb).
  pose proof (Hbox a snd (default 0%nat (head (snd <$> a.2))) Ha).
  pose proof (Hbox b fst (default 0%nat (head (fst <$> b.2))) Hb).
  pose proof (Hbox a fst (default 0%nat (head (fst <$> a.2))) Ha).
  unfold boxes_intersect, Toy.box_of. simpl.
  rewrite !Qle_bool_nat; [done|lia..].
Qed.

(** ** The further properties on the small instance *)

Lemma grid_values_in_range_witness :
  LandCover.dtm_dataset Toy.four_layers = Some (Toy.dataset 2 2 "EPSG:28992")
  ∧ rasterizable Toy.four_layers = true
  ∧ (∀ ft k, ft ∈ LandCover.terrains Toy.four_layers ++ LandCover.roads Toy.four_layers →
             properties ft !! "landuse" = Some k → 0 ≤ k ≤ 8)
  ∧ returns (LandCover.convert_to_raster Toy.four_layers) Toy.world0 (λ ls w',
      ∃ a, heap w' !! ls.1 = Some a
        ∧ rect 2 2 a
        ∧ ∀ r c x, cell a r c = Some x → x = NODATA ∨ 0 ≤ x ≤ 8).
Proof.
  assert (∀ ft k, ft ∈ LandCover.terrains Toy.four_layers ++ LandCover.roads Toy.four_layers →
                  properties ft !! "landuse" = Some k → 0 ≤ k ≤ 8) as Hcodes.
  { intros ft k Hft Hk. simpl in Hft.
    repeat (apply elem_of_cons in Hft as [->|Hft]);
      [..|by apply not_elem_of_nil in Hft];
      vm_compute in Hk; injection Hk as <-; lia. }
  split; [reflexivity|]. split; [vm_compute; reflexivity|]. split; [exact Hcodes|].
  apply (grid_values_in_range Toy.four_layers (Toy.dataset 2 2 "EPSG:28992") Toy.world0);
    [reflexivity|vm_compute; reflexivity|exact Hcodes].
Defined.

Lemma grid_ignores_heights_witness :
  LandCover.dtm_dataset Toy.four_layers = Some (Toy.dataset 2 2 "EPSG:28992")
  ∧ LandCover.dtm_dataset Toy.four_layers_hills = Some Toy.hills
  ∧ rasterizable Toy.four_layers = true
  ∧ returns (LandCover.convert_to_raster Toy.four_layers) Toy.world0 (λ ls1 w1',
      returns (LandCover.convert_to_raster Toy.four_layers_hills) Toy.world1 (λ ls2 w2',
        ∃ a, heap w1' !! ls1.1 = Some a ∧ heap w2' !! ls2.1 = Some a)).
Proof.
  split; [reflexivity|]. split; [reflexivity|]. split; [vm_compute; reflexivity|].
  apply (grid_ignores_heights Toy.four_layers Toy.four_layers_hills
           (Toy.dataset 2 2 "EPSG:28992") Toy.hills Toy.world0 Toy.world1);
    solve [reflexivity | vm_compute; reflexivity].
Defined.

Lemma convert_to_raster_attributes_witness :
  LandCover.dtm_dataset Toy.four_layers = Some (Toy.dataset 2 2 "EPSG:28992")
  ∧ rasterizable Toy.four_layers = true
  ∧ returns (LandCover.convert_to_raster Toy.four_layers) Toy.world0 (λ ls w',
      LandCover.transform ls.2 = Some Toy.identity
      ∧ LandCover.terrains ls.2 = LandCover.terrains Toy.four_layers
      ∧ LandCover.roads ls.2 = LandCover.roads Toy.four_layers
      ∧ LandCover.water ls.2 = LandCover.water Toy.four_layers
      ∧ LandCover.buildings ls.2 = LandCover.buildings Toy.four_layers
      ∧ (∃ snapshot a,
           LandCover.landcover_withoutbuild ls.2 = Some snapshot
           ∧ heap w' !! snapshot = Some a
           ∧ (∀ r c, (r < 2)%nat → (c < 2)%nat →
                cell a r c = Some (composite
                  [layer_code Toy.four_layers Toy.identity Water r c;
                   layer_code Toy.four_layers Toy.identity Road r c;
                   layer_code Toy.four_layers Toy.identity Terrain r c]))
           ∧ (snapshot = ls.1 ↔ LandCover.buildings Toy.four_layers = []))
      ∧ (LandCover.water Toy.four_layers ≠ [] →
         ∃ m, LandCover.water_mask ls.2 = Some m
           ∧ ∀ r c, (r < 2)%nat → (c < 2)%nat →
               cell m r c
               = Some (bool_decide (layer_code Toy.four_layers Toy.identity Water r c = None)))
      ∧ (LandCover.buildings Toy.four_layers ≠ [] →
         ∃ m, LandCover.building_mask ls.2 = Some m
           ∧ ∀ r c, (r < 2)%nat → (c < 2)%nat →
               cell m r c
               = Some (bool_decide
                         (layer_code Toy.four_layers Toy.identity BuildingLayer r c = None)))).
Proof.
  split; [reflexivity|]. split; [vm_compute; reflexivity|].
  apply (convert_to_raster_attributes Toy.four_layers (Toy.dataset 2 2 "EPSG:28992")
           Toy.world0); [reflexivity|vm_compute; reflexivity].
Defined.

Lemma update_build_landcover_spec_witness :
  LandCover.array Toy.initialized = Some 0%nat
  ∧ LandCover.transform Toy.initialized = Some Toy.identity
  ∧ heap Toy.world1 !! 0%nat = Some [[-9999; -9999]; [-9999; -9999]]
  ∧ rect 2 2 [[-9999; -9999]; [-9999; -9999]]
  ∧ mask_ok (b_geometry <$> [Toy.building (Toy.square 1 0) "0363100012345678"]) = true
  ∧ returns (LandCover.update_build_landcover Toy.initialized
               [Toy.building (Toy.square 1 0) "0363100012345678"]) Toy.world1 (λ self' w',
      ([Toy.building (Toy.square 1 0) "0363100012345678"] = [] →
         self' = Toy.initialized ∧ heap w' = heap Toy.world1
         ∧ stdout w' = stdout Toy.world1
             ++ ["No valid building geometries found. Skipping building rasterization."])
      ∧ ([Toy.building (Toy.square 1 0) "0363100012345678"] ≠ [] →
         ∃ a', self' = LandCover.set_array (Some (length (heap Toy.world1))) Toy.initialized
           ∧ heap w' = heap Toy.world1 ++ [a'] ∧ rect 2 2 a'
           ∧ stdout w' = stdout Toy.world1
           ∧ ∀ r c, (r < 2)%nat → (c < 2)%nat →
               cell a' r c
               = if covered (omap shape (b_geometry <$>
                               [Toy.building (Toy.square 1 0) "0363100012345678"]))
                      Toy.identity r c
                 then Some 2 else cell [[-9999; -9999]; [-9999; -9999]] r c)).
Proof.
  assert (rect 2 2 [[-9999; -9999]; [-9999; -9999]]) as Hrect
    by (split; [reflexivity|by repeat constructor]).
  split; [reflexivity|]. split; [reflexivity|]. split; [reflexivity|].
  split; [exact Hrect|]. split; [vm_compute; reflexivity|].
  apply (update_build_landcover_spec Toy.initialized
           [Toy.building (Toy.square 1 0) "0363100012345678"] 0%nat
           [[-9999; -9999]; [-9999; -9999]] Toy.identity 2 2 Toy.world1);
    [reflexivity|reflexivity|reflexivity|exact Hrect|vm_compute; reflexivity].
Defined.

Lemma update_landcover_spec_witness :
  LandCover.array Toy.initialized = Some 0%nat
  ∧ heap Toy.world1 !! 0%nat = Some [[-9999; -9999]; [-9999; -9999]]
  ∧ (length <$> [[-1; 0]; [5; -1]] = length <$> [[-9999; -9999]; [-9999; -9999]] →
     ∃ a',
       LandCover.update_landcover Toy.initialized 3 [[-1; 0]; [5; -1]] Toy.world1
       = inr (Toy.initialized, set_heap (<[0%nat := a']> (heap Toy.world1)) Toy.world1)
       ∧ length <$> a' = length <$> [[-9999; -9999]; [-9999; -9999]]
       ∧ ∀ r c x y, cell [[-9999; -9999]; [-9999; -9999]] r c = Some x →
           cell [[-1; 0]; [5; -1]] r c = Some y →
           cell a' r c = Some (if bool_decide (-1 < y) then 3 else x))
  ∧ (length <$> [[-1; 0]; [5; -1]] ≠ length <$> [[-9999; -9999]; [-9999; -9999]] →
     LandCover.update_landcover Toy.initialized 3 [[-1; 0]; [5; -1]] Toy.world1
     = inl IndexError).
Proof.
  split; [reflexivity|]. split; [reflexivity|].
  apply (update_landcover_spec Toy.initialized 3 [[-1; 0]; [5; -1]]
           [[-9999; -9999]; [-9999; -9999]] 0%nat Toy.world1); reflexivity.
Defined.

Lemma og_landcover_safe_after_build_witness :
  LandCover.og_landcover Toy.initialized = Some 0%nat
  ∧ LandCover.array Toy.initialized = Some 0%nat
  ∧ LandCover.transform Toy.initialized = Some Toy.identity
  ∧ heap Toy.world1 !! 0%nat = Some [[-9999; -9999]; [-9999; -9999]]
  ∧ rect 2 2 [[-9999; -9999]; [-9999; -9999]]
  ∧ mask_ok (b_geometry <$> [Toy.building (Toy.square 1 0) "0363100012345678"]) = true
  ∧ [Toy.building (Toy.square 1 0) "0363100012345678"] ≠ []
  ∧ returns (LandCover.update_build_landcover Toy.initialized
               [Toy.building (Toy.square 1 0) "0363100012345678"]) Toy.world1 (λ self1 w1,
      ∀ land_type input_array self2 w2,
        LandCover.update_landcover self1 land_type input_array w1 = inr (self2, w2) →
        LandCover.og_landcover self2 = Some 0%nat
        ∧ heap w2 !! 0%nat = Some [[-9999; -9999]; [-9999; -9999]]).
Proof.
  assert (rect 2 2 [[-9999; -9999]; [-9999; -9999]]) as Hrect
    by (split; [reflexivity|by repeat constructor]).
  assert ([Toy.building (Toy.square 1 0) "0363100012345678"] ≠ []) as Hne by discriminate.
  split; [reflexivity|]. split; [reflexivity|]. split; [reflexivity|].
  split; [reflexivity|]. split; [exact Hrect|]. split; [vm_compute; reflexivity|].
  split; [exact Hne|].
  apply (og_landcover_safe_after_build Toy.initialized
           [Toy.building (Toy.square 1 0) "0363100012345678"] 0%nat
           [[-9999; -9999]; [-9999; -9999]] Toy.identity 2 2 Toy.world1);
    [reflexivity|reflexivity|reflexivity|reflexivity|exact Hrect|vm_compute; reflexivity
    |exact Hne].
Defined.

Lemma terrain_codes_from_table_witness :
  Forall (readable "typelandgebruik") (top10nl Toy.world_served "terrein_vlak")
  ∧ returns (LandCover.process_terrain_features Toy.with_table) Toy.world_served (λ fts w',
      w' = Toy.world_served
      ∧ (length fts ≤ length (top10nl Toy.world_served "terrein_vlak"))%nat
      ∧ ∀ ft, ft ∈ fts →
          (∃ ter g, ter ∈ top10nl Toy.world_served "terrein_vlak"
                    ∧ shape (raw_geometry ter) = Some g
                    ∧ LandCover.is_polygonal g = true ∧ geometry ft = mapping g)
          ∧ ∀ k, properties ft !! "landuse" = Some k →
              k ≠ -1
              ∧ ∃ type, lower type = type
                  ∧ default ∅ (LandCover.landcover_mapping Toy.with_table !! "terrain") !! type
                    = Some k).
Proof.
  assert (Forall (readable "typelandgebruik") (top10nl Toy.world_served "terrein_vlak"))
    as Hread.
  { repeat (constructor;
      [split; [eexists; reflexivity|intros z Hz; vm_compute in Hz; discriminate]|]).
    constructor. }
  split; [exact Hread|].
  apply (terrain_codes_from_table Toy.with_table Toy.world_served Hread).
Defined.

Lemma road_codes_from_table_witness :
  Forall (readable "verhardingstype") (top10nl Toy.world_served "wegdeel_vlak")
  ∧ returns (LandCover.process_road_features Toy.with_table) Toy.world_served (λ fts w',
      w' = Toy.world_served
      ∧ (length fts ≤ length (top10nl Toy.world_served "wegdeel_vlak"))%nat
      ∧ ∀ ft k, ft ∈ fts → properties ft !! "landuse" = Some k →
          k ≠ -1
          ∧ (k = LandCover.main_road Toy.with_table
             ∨ ∃ type, lower type = type ∧ type ≠ "verhard"
                 ∧ default ∅ (LandCover.landcover_mapping Toy.with_table !! "road") !! type
                   = Some k)).
Proof.
  assert (Forall (readable "verhardingstype") (top10nl Toy.world_served "wegdeel_vlak"))
    as Hread.
  { repeat (constructor;
      [split; [eexists; reflexivity|intros z Hz; vm_compute in Hz; discriminate]|]).
    constructor. }
  split; [exact Hread|].
  apply (road_codes_from_table Toy.with_table Toy.world_served Hread).
Defined.

Lemma hardened_road_override_witness :
  Forall (readable "verhardingstype") (top10nl Toy.world_served "wegdeel_vlak")
  ∧ Toy.raw (Toy.square 1 0) {[ "verhardingstype" := PStr "Verhard" ]}
    ∈ top10nl Toy.world_served "wegdeel_vlak"
  ∧ hardened (Toy.raw (Toy.square 1 0) {[ "verhardingstype" := PStr "Verhard" ]})
  ∧ returns (LandCover.process_road_features Toy.with_table) Toy.world_served (λ fts _,
      {| geometry := @mapping Toy.lib (Polygon, [(1, 0)]%nat);
         properties := if LandCover.main_road Toy.with_table =? -1 then ∅
                       else {[ "landuse" := LandCover.main_road Toy.with_table ]} |} ∈ fts).
Proof.
  assert (Forall (readable "verhardingstype") (top10nl Toy.world_served "wegdeel_vlak"))
    as Hread.
  { repeat (constructor;
      [split; [eexists; reflexivity|intros z Hz; vm_compute in Hz; discriminate]|]).
    constructor. }
  assert (Toy.raw (Toy.square 1 0) {[ "verhardingstype" := PStr "Verhard" ]}
          ∈ top10nl Toy.world_served "wegdeel_vlak") as Hin by constructor.
  assert (hardened (Toy.raw (Toy.square 1 0) {[ "verhardingstype" := PStr "Verhard" ]}))
    as Hhard by (exists "Verhard"; split; reflexivity).
  split; [exact Hread|]. split; [exact Hin|]. split; [exact Hhard|].
  apply (hardened_road_override Toy.with_table
           (Toy.raw (Toy.square 1 0) {[ "verhardingstype" := PStr "Verhard" ]})
           (Polygon, [(1, 0)]%nat) Toy.world_served Hread Hin Hhard);
    reflexivity.
Defined.

Lemma classification_agrees_with_lookup_witness :
  Forall (readable "typelandgebruik") (top10nl Toy.world_served "terrein_vlak")
  ∧ Toy.raw (Toy.square 0 0) {[ "typelandgebruik" := PStr "Grasland" ]}
    ∈ top10nl Toy.world_served "terrein_vlak"
  ∧ returns (LandCover.process_terrain_features Toy.with_table) Toy.world_served (λ fts _,
      {| geometry := @mapping Toy.lib (Polygon, [(0, 0)]%nat);
         properties := LandCover.new_properties
                         (LandCover.get_landcover_code Toy.with_table "Grasland" false) |}
      ∈ fts).
Proof.
  assert (Forall (readable "typelandgebruik") (top10nl Toy.world_served "terrein_vlak"))
    as Hread.
  { repeat (constructor;
      [split; [eexists; reflexivity|intros z Hz; vm_compute in Hz; discriminate]|]).
    constructor. }
  assert (Toy.raw (Toy.square 0 0) {[ "typelandgebruik" := PStr "Grasland" ]}
          ∈ top10nl Toy.world_served "terrein_vlak") as Hin by constructor.
  split; [exact Hread|]. split; [exact Hin|].
  apply (classification_agrees_with_lookup Toy.with_table false
           (Toy.raw (Toy.square 0 0) {[ "typelandgebruik" := PStr "Grasland" ]})
           "Grasland" (Polygon, [(0, 0)]%nat) Toy.world_served Hread Hin);
    [reflexivity|discriminate|reflexivity|reflexivity].
Defined.

Lemma water_features_filtered_witness :
  Forall (λ wat, is_Some (@shape Toy.lib (raw_geometry wat)))
    (top10nl Toy.world_served "waterdeel_vlak" ++ top10nl Toy.world_served "waterdeel_lijn")
  ∧ returns LandCover.process_water_features Toy.world_served (λ water w',
      w' = Toy.world_served
      ∧ ∃ areas lines, water = areas ++ lines
          ∧ (∀ wat, wat ∈ areas →
               ∃ src g, src ∈ top10nl Toy.world_served "waterdeel_vlak"
                 ∧ shape (raw_geometry src) = Some g
                 ∧ LandCover.is_polygonal g = true
                 ∧ raw_properties src !! "hoogteniveau" ≠ Some (PInt (-1))
                 ∧ wat = {| raw_geometry := mapping g; raw_properties := raw_properties src |})
          ∧ (∀ wat, wat ∈ lines →
               ∃ src g, src ∈ top10nl Toy.world_served "waterdeel_lijn"
                 ∧ shape (raw_geometry src) = Some g
                 ∧ LandCover.is_polygonal (buffer g) = true
                 ∧ raw_properties src !! "hoogteniveau" ≠ Some (PInt (-1))
                 ∧ wat = {| raw_geometry := mapping (buffer g);
                            raw_properties := raw_properties src |})).
Proof.
  assert (Forall (λ wat, is_Some (@shape Toy.lib (raw_geometry wat)))
            (top10nl Toy.world_served "waterdeel_vlak"
             ++ top10nl Toy.world_served "waterdeel_lijn")) as Hparsed.
  { repeat (constructor; [eexists; reflexivity|]). constructor. }
  split; [exact Hparsed|].
  apply (water_features_filtered (H := Toy.lib) Toy.world_served Hparsed).
Defined.

Lemma init_fails_on_unparsed_feature_witness :
  (Toy.raw None ∅ ∈ top10nl Toy.world_broken "terrein_vlak"
   ∨ Toy.raw None ∅ ∈ top10nl Toy.world_broken "wegdeel_vlak"
   ∨ Toy.raw None ∅ ∈ top10nl Toy.world_broken "waterdeel_vlak"
   ∨ Toy.raw None ∅ ∈ top10nl Toy.world_broken "waterdeel_lijn")
  ∧ @shape Toy.lib (raw_geometry (Toy.raw None ∅)) = None
  ∧ raises (LandCover.init Toy.one_pixel_args) Toy.world_broken.
Proof.
  assert (Toy.raw None ∅ ∈ top10nl Toy.world_broken "terrein_vlak") as Hin
    by (do 2 constructor).
  split; [by left|]. split; [reflexivity|].
  apply (init_fails_on_unparsed_feature Toy.one_pixel_args (Toy.raw None ∅)
           Toy.world_broken); [by left|reflexivity].
Defined.

Lemma init_aliases_witness :
  ∃ self w',
    LandCover.init Toy.one_pixel_args Toy.world0 = inr (self, w')
    ∧ LandCover.og_landcover self = LandCover.array self
    ∧ is_Some (LandCover.array self)
    ∧ LandCover.landcover_withoutbuild self = None.
Proof.
  eexists _, _. split; [vm_compute; reflexivity|].
  eapply (init_aliases (H := Toy.lib) Toy.one_pixel_args Toy.world0).
  vm_compute. reflexivity.
Defined.

Lemma index_keeps_every_match_witness :
  (∀ a b : @Geom Toy.lib, @intersects Toy.lib a b = @intersects Toy.lib b a)
  ∧ (∀ a b : @Geom Toy.lib, @within Toy.lib a b = true → @intersects Toy.lib a b = true)
  ∧ (∀ entries, @rtree_order Toy.lib entries ≡ₚ entries)
  ∧ (∀ a b : @Geom Toy.lib, @intersects Toy.lib a b = true →
       boxes_intersect (@bounds Toy.lib a) (@bounds Toy.lib b) = true)
  ∧ Forall (λ b, is_Some (@shape Toy.lib (b_geometry b))) Toy.highest_blobs
  ∧ @shape Toy.lib (b_geometry Toy.footprint_blob) = Some (Polygon, [(1, 1)]%nat)
  ∧ ∃ x,
      (rtree_index ← Buildings.build_index Toy.highest_blobs;
       Buildings.match_footprint rtree_index Toy.highest_blobs Toy.footprint_blob) Toy.world0
      = inr (x, Toy.world0)
      ∧ b_geometry x = b_geometry Toy.footprint_blob
      ∧ ((∃ b hg, b ∈ Toy.highest_blobs ∧ shape (b_geometry b) = Some hg
                  ∧ code_related (H := Toy.lib) (Polygon, [(1, 1)]%nat) hg = true) →
         ∃ b hg, b ∈ Toy.highest_blobs ∧ shape (b_geometry b) = Some hg
                 ∧ code_related (H := Toy.lib) (Polygon, [(1, 1)]%nat) hg = true
                 ∧ parcel_id x = parcel_id b)
      ∧ ((∀ b hg, b ∈ Toy.highest_blobs → shape (b_geometry b) = Some hg →
                  code_related (H := Toy.lib) (Polygon, [(1, 1)]%nat) hg = false) →
         parcel_id x = parcel_id Toy.footprint_blob).
Proof.
  assert (Forall (λ b, is_Some (@shape Toy.lib (b_geometry b))) Toy.highest_blobs)
    as Hparsed by (repeat (constructor; [eexists; reflexivity|]); constructor).
  split; [exact toy_intersects_sym|]. split; [exact toy_within_intersects|].
  split; [exact toy_rtree_order_perm|]. split; [exact toy_intersects_boxes|].
  split; [exact Hparsed|]. split; [reflexivity|].
  apply (index_keeps_every_match (H := Toy.lib) toy_intersects_sym toy_within_intersects
           toy_rtree_order_perm toy_intersects_boxes
           Toy.highest_blobs Toy.footprint_blob (Polygon, [(1, 1)]%nat) Toy.world0 Hparsed).
  reflexivity.
Defined.

Lemma save_raster_single_line_witness :
  LandCover.dtm_dataset Toy.one_row = Some (Toy.dataset 1 2 "EPSG:28992")
  ∧ LandCover.array Toy.one_row = Some 0%nat
  ∧ heap Toy.one_row_world !! 0%nat = Some [[-9999; -9999]]
  ∧ rect 1 2 [[-9999; -9999]]
  ∧ (1 = 1 ∨ (0 < 1 ∧ 2 = 1))%nat
  ∧ LandCover.save_raster Toy.one_row "landcover.tif" false ∅ Toy.one_row_world
    = inl IndexError.
Proof.
  assert (rect 1 2 [[-9999; -9999]]) as Hrect
    by (split; [reflexivity|by repeat constructor]).
  split; [reflexivity|]. split; [reflexivity|]. split; [reflexivity|].
  split; [exact Hrect|]. split; [by left|].
  apply (save_raster_single_line Toy.one_row "landcover.tif" false ∅
           (Toy.dataset 1 2 "EPSG:28992") 0%nat [[-9999; -9999]] 1 2 Toy.one_row_world);
    [reflexivity|reflexivity|reflexivity|exact Hrect|by left].
Defined.

Lemma save_raster_writes_witness :
  LandCover.dtm_dataset Toy.initialized = Some (Toy.dataset 2 2 "EPSG:28992")
  ∧ LandCover.array Toy.initialized = Some 0%nat
  ∧ heap Toy.world1 !! 0%nat = Some [[-9999; -9999]; [-9999; -9999]]
  ∧ rect 2 2 [[-9999; -9999]; [-9999; -9999]]
  ∧ (2 ≤ 2)%nat
  ∧ returns (LandCover.save_raster Toy.initialized "landcover.tif" false ∅) Toy.world1
      (λ disk' w',
        disk' = <[ "landcover.tif" :=
                   {| LandCover.rf_height := 2; LandCover.rf_width := 2;
                      LandCover.rf_values := [[-9999; -9999]; [-9999; -9999]];
                      LandCover.rf_crs := "EPSG:28992";
                      LandCover.rf_nodata := -9999;
                      LandCover.rf_transform := Some Toy.identity |} ]> ∅
        ∧ heap w' = heap Toy.world1
        ∧ stdout w' = stdout Toy.world1
            ++ ["Warning: No no data value found in dataset.. Defaulting to -9999."]
            ++ ["File written to '" +:+ "landcover.tif" +:+ "'"]).
Proof.
  assert (rect 2 2 [[-9999; -9999]; [-9999; -9999]]) as Hrect
    by (split; [reflexivity|by repeat constructor]).
  split; [reflexivity|]. split; [reflexivity|]. split; [reflexivity|].
  split; [exact Hrect|]. split; [lia|].
  apply (save_raster_writes Toy.initialized "landcover.tif" false ∅
           (Toy.dataset 2 2 "EPSG:28992") 0%nat [[-9999; -9999]; [-9999; -9999]] 2 2
           Toy.world1);
    [reflexivity|reflexivity|reflexivity|exact Hrect|lia|lia].
Defined.
